(** * Lootloo / TaskLoot: the task, puzzle and reward engine

    A shallow embedding of
      - [src/services/tasks/puzzleGenerator.js]  (module [PuzzleGenerator]),
      - [src/services/tasks/service.js]          (module [TaskService]),
      - [src/services/users/service.js]          (module [UserService]),
      - [src/cache/redis.js], [database/connection.js] and the schema
        (modules [Cache] and [Db]),
    together with the properties of the engine that were checked on it.

    Conventions.
      - JavaScript numbers that take part in arithmetic whose rounding is
        observable (the time bonus) are IEEE-754 binary64 values: Rocq's
        primitive [float].  Counters, timestamps (milliseconds since the
        epoch) and piece indices are integers and are modelled by [Z].
      - A rejected promise / thrown exception is the [Throw] outcome of the
        monad [M]; the state reached so far is kept, exactly as with
        autocommitted statements sent through [pool.query].
      - SQL tables are lists of rows; constraints of the schema (UNIQUE,
        REFERENCES) are checked by the insert operations. *)

From Stdlib Require Import ZArith QArith Qround Qminmax Floats Ascii.
From stdpp Require Import base option list strings pretty gmap.

Set Warnings "-register-all".
Local Open Scope Z_scope.

(* ===================================================================== *)
(** ** JavaScript values and built-ins used by the services               *)
(* ===================================================================== *)

Module Js.

(** The error classes of [middleware/errorHandler] plus the built-in ones
    that the modelled code can raise. *)
Inductive error :=
  | ValidationError (message : string)
  | ConflictError (message : string)
  | NotFoundError (message : string)
  | ForbiddenError (message : string)
  | GoneError (message : string)
  | TypeError (message : string)
  | SyntaxError (message : string)
  | Error (message : string)            (* plain [new Error(...)] *)
  | DatabaseError (code : string).      (* rejection of [pool.query] *)

Inductive outcome (A : Type) :=
  | Ok (a : A)
  | Throw (e : error).
Arguments Ok {A} a.
Arguments Throw {A} e.

Definition is_ok {A} (o : outcome A) : bool :=
  match o with Ok _ => true | Throw _ => false end.

(** *** Numbers *)

Local Open Scope float_scope.

(** [Math.floor] on a binary64 value: NaN, the infinities and the zeros are
    returned unchanged; a finite value [(-1)^s * m * 2^e] with [e >= 0] is
    already an integer. *)
Definition Math_floor (x : float) : float :=
  match Prim2SF x with
  | S754_finite s m e =>
      if (0 <=? e)%Z then x
      else
        let d := (2 ^ (- e))%Z in
        let q := (Z.pos m / d)%Z in
        if s then
          if (Z.pos m mod d =? 0)%Z
          then - of_uint63 (Uint63.of_Z q)
          else - of_uint63 (Uint63.of_Z (q + 1))
        else of_uint63 (Uint63.of_Z q)
  | _ => x
  end.

(** [Math.max(a, b)]: NaN if either argument is NaN, and [+0] is larger
    than [-0]. *)
Definition Math_max (a b : float) : float :=
  if is_nan a then a
  else if is_nan b then b
  else if a <? b then b
  else if b <? a then a
  else if get_sign a then b else a.

(** The integer-valued number [n] (exact for [0 <= n < 2^53]). *)
Definition number_of_Z (n : Z) : float :=
  if (n <? 0)%Z then - of_uint63 (Uint63.of_Z (- n)) else of_uint63 (Uint63.of_Z n).

Local Close Scope float_scope.

(** *** Values

    The JavaScript values that the services handle: JSON data plus
    [undefined] and the built-in objects reachable through
    [Object.prototype].  Numbers stored in a value are integers. *)
Inductive value :=
  | VUndefined
  | VNull
  | VBool (b : bool)
  | VNumber (n : Z)
  | VString (s : string)
  | VArray (items : list value)
  | VObject (fields : list (string * value))
  | VBuiltin (name : string).

(** [!!v] *)
Definition truthy (v : value) : bool :=
  match v with
  | VUndefined | VNull => false
  | VBool b => b
  | VNumber n => negb (n =? 0)
  | VString s => negb (String.eqb s "")
  | VArray _ | VObject _ | VBuiltin _ => true
  end.

Definition Array_isArray (v : value) : bool :=
  match v with VArray _ => true | _ => false end.

(** *** JSON.stringify *)

Definition quote_char : Ascii.ascii := Ascii.ascii_of_nat 34.
Definition backslash : Ascii.ascii := Ascii.ascii_of_nat 92.

Definition hex_digit (n : nat) : Ascii.ascii :=
  Ascii.ascii_of_nat (if (n <? 10)%nat then 48 + n else 87 + n).

Definition escape_char (c : Ascii.ascii) : string :=
  let n := Ascii.nat_of_ascii c in
  if (n =? 34)%nat then String backslash (String quote_char "")
  else if (n =? 92)%nat then String backslash (String backslash "")
  else if (n =? 8)%nat then String backslash "b"
  else if (n =? 9)%nat then String backslash "t"
  else if (n =? 10)%nat then String backslash "n"
  else if (n =? 12)%nat then String backslash "f"
  else if (n =? 13)%nat then String backslash "r"
  else if (n <? 32)%nat then
    String backslash
      ("u00" +:+ String (hex_digit (n / 16)) (String (hex_digit (n mod 16)) ""))
  else String c "".

Fixpoint escape (s : string) : string :=
  match s with
  | EmptyString => EmptyString
  | String c s' => escape_char c +:+ escape s'
  end.

Definition quote (s : string) : string :=
  String quote_char (escape s +:+ String quote_char "").

(** [JSON.stringify(v)]; [None] stands for the result [undefined].  Inside
    an array [undefined] and functions are written as [null]; inside an
    object such members are left out. *)
Fixpoint JSON_stringify (v : value) : option string :=
  match v with
  | VUndefined | VBuiltin _ => None
  | VNull => Some "null"
  | VBool b => Some (if b then "true" else "false")
  | VNumber n => Some (pretty n)
  | VString s => Some (quote s)
  | VArray items =>
      Some ("[" +:+
            String.concat "," (map (fun x => default "null" (JSON_stringify x)) items)
            +:+ "]")
  | VObject fields =>
      Some ("{" +:+
            String.concat ","
              (omap (fun kx => (fun s => quote kx.1 +:+ ":" +:+ s) <$> JSON_stringify kx.2)
                    fields)
            +:+ "}")
  end.

(** *** JSONB

    What a [JSONB] column hands back for the text [JSON.stringify(v)]: the
    members that [JSON.stringify] leaves out are gone, the members of an
    object are in the order of the column type (shorter keys first, keys
    of one length by their bytes) and of two members with one key the
    later is kept.  [None] when there is no text. *)
Definition jsonb_key_lt (a b : string) : bool :=
  (String.length a <? String.length b)%nat
  || ((String.length a =? String.length b)%nat
      && match String.compare a b with Lt => true | _ => false end).

Fixpoint jsonb_insert (kx : string * value) (members : list (string * value))
    : list (string * value) :=
  match members with
  | [] => [kx]
  | ky :: rest =>
      if String.eqb kx.1 ky.1 then kx :: rest
      else if jsonb_key_lt kx.1 ky.1 then kx :: members
      else ky :: jsonb_insert kx rest
  end.

Fixpoint jsonb (v : value) : option value :=
  match v with
  | VUndefined | VBuiltin _ => None
  | VNull | VBool _ | VNumber _ | VString _ => Some v
  | VArray items => Some (VArray (map (fun x => default VNull (jsonb x)) items))
  | VObject fields =>
      Some (VObject
              (foldl (fun members kx => jsonb_insert kx members) []
                     (omap (fun kx => (fun x => (kx.1, x)) <$> jsonb kx.2) fields)))
  end.

(** An array of integers, such as an ordering of piece indices. *)
Definition index_array (l : list Z) : value := VArray (VNumber <$> l).

(** *** Property reads on object literals

    [obj[key]] on an object literal first looks at the own properties and
    then at [Object.prototype], whose members are all truthy objects. *)
Definition Object_prototype_keys : list string :=
  [ "constructor"; "__proto__"; "hasOwnProperty"; "isPrototypeOf";
    "propertyIsEnumerable"; "toLocaleString"; "toString"; "valueOf";
    "__defineGetter__"; "__defineSetter__"; "__lookupGetter__";
    "__lookupSetter__" ].

Inductive property (A : Type) :=
  | Own (a : A)                       (* an own property of the literal *)
  | Inherited (name : string)         (* a member of Object.prototype *)
  | Undefined.
Arguments Own {A} a.
Arguments Inherited {A} name.
Arguments Undefined {A}.

Fixpoint assoc {A} (key : string) (fields : list (string * A)) : option A :=
  match fields with
  | [] => None
  | (k, v) :: rest => if String.eqb k key then Some v else assoc key rest
  end.

Definition get {A} (fields : list (string * A)) (key : string) : property A :=
  match assoc key fields with
  | Some v => Own v
  | None =>
      if bool_decide (key ∈ Object_prototype_keys) then Inherited key
      else Undefined
  end.

Definition has_own_property (key : string) (v : value) : bool :=
  match v with
  | VObject fields => bool_decide (is_Some (assoc key fields))
  | _ => false
  end.

(** [delete v.key] for a key that is not an array index: [TypeError] on
    [null] and [undefined], otherwise the own property, if any, is removed
    (and the expression statement leaves [v] as the result below). *)
Definition delete_property (key : string) (v : value) : outcome value :=
  match v with
  | VUndefined | VNull =>
      Throw (TypeError "Cannot convert undefined or null to object")
  | VObject fields =>
      Ok (VObject (filter (fun kx => kx.1 <> key) fields))
  | _ => Ok v
  end.

(** *** Strings *)

Fixpoint trimStart (s : string) : string :=
  match s with
  | String c s' => if Ascii.is_space c then trimStart s' else s
  | EmptyString => EmptyString
  end.

(** [s.trim()] (on the ASCII white space characters). *)
Definition trim (s : string) : string :=
  String.rev (trimStart (String.rev (trimStart s))).

Definition lower_char (c : Ascii.ascii) : Ascii.ascii :=
  let n := Ascii.nat_of_ascii c in
  if bool_decide (65 <= n <= 90)%nat then Ascii.ascii_of_nat (n + 32) else c.

Definition upper_char (c : Ascii.ascii) : Ascii.ascii :=
  let n := Ascii.nat_of_ascii c in
  if bool_decide (97 <= n <= 122)%nat then Ascii.ascii_of_nat (n - 32) else c.

Fixpoint map_string (f : Ascii.ascii -> Ascii.ascii) (s : string) : string :=
  match s with
  | EmptyString => EmptyString
  | String c s' => String (f c) (map_string f s')
  end.

Definition toLowerCase : string -> string := map_string lower_char.
Definition toUpperCase : string -> string := map_string upper_char.

(** [s.replace(pattern, '')] for a string pattern: the first occurrence
    is removed. *)
Fixpoint remove_first (pattern s : string) : string :=
  if String.prefix pattern s
  then String.substring (String.length pattern) (String.length s - String.length pattern) s
  else match s with
       | EmptyString => EmptyString
       | String c s' => String c (remove_first pattern s')
       end.

(** [n.toString(36)] for an integer [n]. *)
Definition digit36 (d : N) : Ascii.ascii :=
  Ascii.ascii_of_N (if (d <? 10)%N then 48 + d else 87 + d).

Fixpoint toString36_digits (fuel : nat) (n : N) (acc : string) : string :=
  match fuel with
  | O => acc
  | S fuel' =>
      if (n =? 0)%N then acc
      else toString36_digits fuel' (n / 36)%N (String (digit36 (n mod 36)%N) acc)
  end.

Definition toString36 (n : Z) : string :=
  match n with
  | Z0 => "0"
  | Zpos p => toString36_digits (S (N.size_nat (Npos p))) (Npos p) ""
  | Zneg p => "-" +:+ toString36_digits (S (N.size_nat (Npos p))) (Npos p) ""
  end.

(** [s.substring(from, to)] for [0 <= from <= to]. *)
Definition substring (from to : nat) (s : string) : string :=
  String.substring from (Nat.min to (String.length s) - from) s.

End Js.
Export Js.

(* ===================================================================== *)
(** ** The relational store ([database/schema.sql])                       *)
(* ===================================================================== *)

Module Db.

Definition uuid := string.
Definition timestamp := Z.            (* milliseconds since the epoch *)

Record user_row := {
  u_id : uuid;
  u_email : string;
  u_role : string;
}.

Record company_profile_row := {
  cp_user_id : uuid;
  cp_company_name : string;
  cp_contact_person : option string;
  cp_website_url : option string;
  cp_registered_address : option string;
}.

Record task_row := {
  t_id : uuid;
  t_company_id : uuid;
  t_title : string;
  t_description : option string;
  t_task_type : string;
  t_difficulty : string;
  t_reward_type : string;
  t_reward_value : Q;
  t_reward_description : string;
  t_image_url : option string;
  t_puzzle_config : value;           (* [VNull] for SQL NULL *)
  t_status : string;
  t_is_featured : bool;
  t_featured_until : option timestamp;
  t_attempt_count : Z;
  t_conversion_count : Z;
  t_expires_at : option timestamp;
}.

Record attempt_row := {
  a_id : uuid;
  a_task_id : uuid;
  a_user_id : uuid;
  a_started_at : timestamp;
  a_completed_at : timestamp;
  a_time_taken_seconds : Z;
  a_is_successful : bool;
  a_difficulty_multiplier : Q;
}.

Record reward_row := {
  r_id : uuid;
  r_user_id : uuid;
  r_task_id : uuid;
  r_reward_code : string;
  r_reward_type : string;
  r_reward_value : Q;
  r_is_redeemed : bool;
  r_redeemed_at : option timestamp;
  r_expires_at : timestamp;
}.

(** The columns of [transactions] and [analytics_events] that refer to
    tasks and rewards (foreign keys without [ON DELETE]). *)
Record transaction_row := {
  tx_id : uuid;
  tx_transaction_type : string;
  tx_related_task_id : option uuid;
  tx_related_reward_id : option uuid;
}.

Record analytics_event_row := {
  ae_event_type : string;
  ae_user_id : option uuid;
  ae_task_id : option uuid;
  ae_company_id : option uuid;
}.

Record database := {
  users : list user_row;
  company_profiles : list company_profile_row;
  tasks : list task_row;
  task_attempts : list attempt_row;
  user_rewards : list reward_row;
  transactions : list transaction_row;
  analytics_events : list analytics_event_row;
}.

Definition with_tasks (ts : list task_row) (d : database) : database :=
  {| users := users d; company_profiles := company_profiles d; tasks := ts;
     task_attempts := task_attempts d; user_rewards := user_rewards d;
     transactions := transactions d; analytics_events := analytics_events d |}.

Definition with_task_attempts (l : list attempt_row) (d : database) : database :=
  {| users := users d; company_profiles := company_profiles d; tasks := tasks d;
     task_attempts := l; user_rewards := user_rewards d;
     transactions := transactions d; analytics_events := analytics_events d |}.

Definition with_user_rewards (l : list reward_row) (d : database) : database :=
  {| users := users d; company_profiles := company_profiles d; tasks := tasks d;
     task_attempts := task_attempts d; user_rewards := l;
     transactions := transactions d; analytics_events := analytics_events d |}.

(** SQLSTATE codes of the constraint violations and of the values that a
    column type refuses. *)
Definition unique_violation : string := "23505".
Definition foreign_key_violation : string := "23503".
Definition connection_failure : string := "08006".
Definition numeric_value_out_of_range : string := "22003".
Definition invalid_datetime_format : string := "22007".
Definition datetime_field_overflow : string := "22008".

(** *** Parameter values and column types *)

(** [INT] *)
Definition int4 (n : Z) : bool := (-2147483648 <=? n) && (n <=? 2147483647).

(** [numeric] rounds to the scale of the column, ties away from zero. *)
Definition round_half_away (q : Q) : Z :=
  if Qle_bool 0 q then Qfloor (q + (1 # 2)) else - Qfloor (- q + (1 # 2)).

(** A value stored in a [DECIMAL(3, 2)] column: rounded to two digits after
    the point; [None] when the rounded value needs more than three digits. *)
Definition decimal_3_2 (q : Q) : option Q :=
  let hundredths := round_half_away (q * 100) in
  if Z.abs hundredths <? 1000 then Some (Qred (hundredths # 100)) else None.

(** A JavaScript [Date] built from [ms] milliseconds since the epoch and
    sent as a [TIMESTAMP] parameter.  Beyond 8.64e15 milliseconds the date
    is an Invalid Date, whose text the store does not parse; a valid date
    before 4714-11-24 BC, which the driver writes with the suffix BC, is
    below the range of the column type. *)
Definition timestamp_param (ms : Z) : outcome timestamp :=
  if 8640000000000000 <? Z.abs ms then Throw (DatabaseError invalid_datetime_format)
  else if ms <? -210866803200000 then Throw (DatabaseError datetime_field_overflow)
  else Ok ms.

Definition user_exists (id : uuid) (d : database) : bool :=
  bool_decide (Exists (fun u => u_id u = id) (users d)).
Definition task_exists (id : uuid) (d : database) : bool :=
  bool_decide (Exists (fun t => t_id t = id) (tasks d)).

(** A statement runs against the store and either returns a result with the
    new store or is rejected, leaving the store as it was. *)
Definition statement (A : Type) := database -> outcome A * database.

(** What the trigger function [update_task_attempt_counts] does to a row
    of [tasks] on [TG_OP = 'INSERT']. *)
Definition count_attempt (successful : bool) (r : task_row) : task_row :=
  {| t_id := t_id r; t_company_id := t_company_id r; t_title := t_title r;
     t_description := t_description r; t_task_type := t_task_type r;
     t_difficulty := t_difficulty r; t_reward_type := t_reward_type r;
     t_reward_value := t_reward_value r;
     t_reward_description := t_reward_description r;
     t_image_url := t_image_url r; t_puzzle_config := t_puzzle_config r;
     t_status := t_status r; t_is_featured := t_is_featured r;
     t_featured_until := t_featured_until r;
     t_attempt_count := t_attempt_count r + 1;
     t_conversion_count :=
       if successful then t_conversion_count r + 1 else t_conversion_count r;
     t_expires_at := t_expires_at r |}.

(** The counters of a row of [tasks] as its columns accept them:
    [attempt_count INT], [conversion_count INT] and the generated column
    [conversion_rate DECIMAL(5, 2)], which is
    [ROUND(conversion_count / attempt_count * 100, 2)] when
    [attempt_count > 0] and 0 otherwise. *)
Definition task_counters_fit (t : task_row) : bool :=
  int4 (t_attempt_count t) && int4 (t_conversion_count t)
  && (if 0 <? t_attempt_count t
      then Z.abs (round_half_away
                    (inject_Z (t_conversion_count t) / inject_Z (t_attempt_count t)
                     * 100 * 100))
           <? 100000
      else true).

(** [UPDATE tasks SET <counters> WHERE id = taskId]: every row with this
    id is rewritten by [f]; the statement is refused, and nothing is
    written, when a rewritten row does not fit its columns. *)
Definition update_counters (f : task_row -> task_row) (taskId : uuid) (d : database)
    : option database :=
  if forallb (fun t => negb (bool_decide (t_id t = taskId)) || task_counters_fit (f t))
             (tasks d)
  then Some (with_tasks
               ((fun t => if bool_decide (t_id t = taskId) then f t else t) <$> tasks d) d)
  else None.

(** The trigger [update_task_counts AFTER INSERT ... ON task_attempts FOR
    EACH ROW], for the inserted row [new]:
    [UPDATE tasks SET attempt_count = attempt_count + 1,
       conversion_count = CASE WHEN NEW.is_successful THEN conversion_count + 1
                          ELSE conversion_count END
     WHERE id = NEW.task_id] *)
Definition update_task_attempt_counts (new : attempt_row) (d : database)
    : option database :=
  update_counters (count_attempt (a_is_successful new)) (a_task_id new) d.

(** The row as the columns of [task_attempts] hold it. *)
Definition stored_attempt (a : attempt_row) (multiplier : Q) : attempt_row :=
  {| a_id := a_id a; a_task_id := a_task_id a; a_user_id := a_user_id a;
     a_started_at := a_started_at a; a_completed_at := a_completed_at a;
     a_time_taken_seconds := a_time_taken_seconds a;
     a_is_successful := a_is_successful a;
     a_difficulty_multiplier := multiplier |}.

(** [INSERT INTO task_attempts ... RETURNING *].  The parameters are
    converted to the column types in their order ([started_at],
    [completed_at], [time_taken_seconds INT],
    [difficulty_multiplier DECIMAL(3, 2)]); then come the primary key and
    [UNIQUE(task_id, user_id)], the two foreign keys, and the trigger
    [update_task_counts], all within the statement: when the trigger fails,
    no row is inserted. *)
Definition insert_task_attempt (a : attempt_row) : statement attempt_row :=
  fun d =>
    match timestamp_param (a_started_at a) with
    | Throw e => (Throw e, d)
    | Ok _ =>
        match timestamp_param (a_completed_at a) with
        | Throw e => (Throw e, d)
        | Ok _ =>
            if negb (int4 (a_time_taken_seconds a))
            then (Throw (DatabaseError numeric_value_out_of_range), d)
            else
              match decimal_3_2 (a_difficulty_multiplier a) with
              | None => (Throw (DatabaseError numeric_value_out_of_range), d)
              | Some multiplier =>
                  let new := stored_attempt a multiplier in
                  if bool_decide
                       (Exists (fun b => a_id b = a_id new
                                       ∨ (a_task_id b = a_task_id new
                                          ∧ a_user_id b = a_user_id new))
                               (task_attempts d))
                  then (Throw (DatabaseError unique_violation), d)
                  else if negb (task_exists (a_task_id new) d
                                && user_exists (a_user_id new) d)
                  then (Throw (DatabaseError foreign_key_violation), d)
                  else
                    match update_task_attempt_counts new
                            (with_task_attempts (task_attempts d ++ [new]) d) with
                    | Some d' => (Ok new, d')
                    | None => (Throw (DatabaseError numeric_value_out_of_range), d)
                    end
              end
        end
    end.

(** [INSERT INTO user_rewards ... RETURNING *]: primary key,
    [reward_code ... UNIQUE] and the two foreign keys. *)
Definition insert_user_reward (r : reward_row) : statement reward_row :=
  fun d =>
    if bool_decide (Exists (fun b => r_id b = r_id r ∨ r_reward_code b = r_reward_code r)
                           (user_rewards d))
    then (Throw (DatabaseError unique_violation), d)
    else if negb (task_exists (r_task_id r) d && user_exists (r_user_id r) d)
    then (Throw (DatabaseError foreign_key_violation), d)
    else (Ok r, with_user_rewards (user_rewards d ++ [r]) d).

(** [INSERT INTO tasks ... RETURNING *]: primary key and the foreign key to
    the owning company. *)
Definition insert_task (t : task_row) : statement task_row :=
  fun d =>
    if task_exists (t_id t) d
    then (Throw (DatabaseError unique_violation), d)
    else if negb (user_exists (t_company_id t) d)
    then (Throw (DatabaseError foreign_key_violation), d)
    else (Ok t, with_tasks (tasks d ++ [t]) d).

(** A read-only statement. *)
Definition select {A} (f : database -> A) : statement A :=
  fun d => (Ok (f d), d).

(** A statement that only rewrites tables. *)
Definition update (f : database -> database) : statement unit :=
  fun d => (Ok tt, f d).

(** The task object handed around by the task service: a row of [tasks],
    the columns joined to it by [getTask], and the [user_attempt] member
    that [getTask] adds ([None]: the member is absent). *)
Record attempt_view := {
  av_id : uuid;
  av_is_successful : bool;
  av_time_taken_seconds : Z;
}.

Record task := {
  row : task_row;
  company_email : option string;
  company_name : option string;
  total_attempts : option Z;
  successful_attempts : option Z;
  user_attempt : option (option attempt_view);
}.

Definition task_of_row (r : task_row) : task :=
  {| row := r; company_email := None; company_name := None;
     total_attempts := None; successful_attempts := None; user_attempt := None |}.

Definition puzzle_config (t : task) : value := t_puzzle_config (row t).

Definition set_row_puzzle_config (v : value) (r : task_row) : task_row :=
  {| t_id := t_id r; t_company_id := t_company_id r; t_title := t_title r;
     t_description := t_description r; t_task_type := t_task_type r;
     t_difficulty := t_difficulty r; t_reward_type := t_reward_type r;
     t_reward_value := t_reward_value r;
     t_reward_description := t_reward_description r;
     t_image_url := t_image_url r; t_puzzle_config := v;
     t_status := t_status r; t_is_featured := t_is_featured r;
     t_featured_until := t_featured_until r;
     t_attempt_count := t_attempt_count r;
     t_conversion_count := t_conversion_count r;
     t_expires_at := t_expires_at r |}.

(** [task.puzzle_config = v] *)
Definition set_puzzle_config (v : value) (t : task) : task :=
  {| row := set_row_puzzle_config v (row t); company_email := company_email t;
     company_name := company_name t; total_attempts := total_attempts t;
     successful_attempts := successful_attempts t; user_attempt := user_attempt t |}.

(** [task.user_attempt = a] *)
Definition set_user_attempt (a : option attempt_view) (t : task) : task :=
  {| row := row t; company_email := company_email t;
     company_name := company_name t; total_attempts := total_attempts t;
     successful_attempts := successful_attempts t; user_attempt := Some a |}.

End Db.
Export Db.

(* ===================================================================== *)
(** ** The request monad: store, cache, object storage and log            *)
(* ===================================================================== *)

Module Runtime.

Record log_entry := {
  level : string;
  message : string;
  thrown : option error;
}.

(** The operations that the services await on the external collaborators:
    the resize to 400 x 400 and the extraction of a region by sharp, the
    upload and the deletion of objects on S3.  The list [calls] of a world
    records these, in order.  What [isValidImage] and [calculateDifficulty]
    read from sharp without awaiting it ([metadata()], the raw pixels of a
    piece) is part of the environment and is not recorded in [calls]. *)
Inductive external_call :=
  | SharpResize (width height : Z)
  | SharpExtract (left top width height : Z)
  | S3Upload (key : string)
  | S3DeleteObjects (keys : list string).

Record world := {
  db : database;
  (** Outcome of the statements still to come: [true] is a statement that
      the pool rejects (lost connection, timeout); past the end of the list
      every statement is delivered. *)
  db_faults : list bool;
  memoryCache : gmap string task;
  (** the keys of [memoryCache] in the order in which the [Map] received
      them, and the bound [memoryCacheMaxSize] of the cache service
      ([parseInt(process.env.MEMORY_CACHE_SIZE) || 1000]) *)
  memoryOrder : list string;
  memoryCacheMaxSize : Z;
  redis : gmap string task;
  redis_up : bool;
  s3_up : bool;
  calls : list external_call;
  log : list log_entry;
  uuids_drawn : nat;
  randoms_drawn : nat;
}.

Definition M (A : Type) := world -> outcome A * world.

Definition ret {A} (a : A) : M A := fun w => (Ok a, w).

Definition bind {A B} (m : M A) (k : A -> M B) : M B :=
  fun w =>
    match m w with
    | (Ok a, w') => k a w'
    | (Throw e, w') => (Throw e, w')
    end.

Definition throw {A} (e : error) : M A := fun w => (Throw e, w).

(** [try { m } catch (e) { h e }] *)
Definition try_catch {A} (m : M A) (h : error -> M A) : M A :=
  fun w =>
    match m w with
    | (Ok a, w') => (Ok a, w')
    | (Throw e, w') => h e w'
    end.

Definition lift_outcome {A} (o : outcome A) : M A := fun w => (o, w).

Definition set_db (d : database) (w : world) : world :=
  {| db := d; db_faults := db_faults w; memoryCache := memoryCache w;
     memoryOrder := memoryOrder w; memoryCacheMaxSize := memoryCacheMaxSize w;
     redis := redis w; redis_up := redis_up w; s3_up := s3_up w;
     calls := calls w; log := log w; uuids_drawn := uuids_drawn w;
     randoms_drawn := randoms_drawn w |}.

Definition set_db_faults (f : list bool) (w : world) : world :=
  {| db := db w; db_faults := f; memoryCache := memoryCache w;
     memoryOrder := memoryOrder w; memoryCacheMaxSize := memoryCacheMaxSize w;
     redis := redis w; redis_up := redis_up w; s3_up := s3_up w;
     calls := calls w; log := log w; uuids_drawn := uuids_drawn w;
     randoms_drawn := randoms_drawn w |}.

Definition set_caches (m r : gmap string task) (w : world) : world :=
  {| db := db w; db_faults := db_faults w; memoryCache := m;
     memoryOrder := memoryOrder w; memoryCacheMaxSize := memoryCacheMaxSize w;
     redis := r; redis_up := redis_up w; s3_up := s3_up w;
     calls := calls w; log := log w; uuids_drawn := uuids_drawn w;
     randoms_drawn := randoms_drawn w |}.

Definition set_memoryOrder (o : list string) (w : world) : world :=
  {| db := db w; db_faults := db_faults w; memoryCache := memoryCache w;
     memoryOrder := o; memoryCacheMaxSize := memoryCacheMaxSize w;
     redis := redis w; redis_up := redis_up w; s3_up := s3_up w;
     calls := calls w; log := log w; uuids_drawn := uuids_drawn w;
     randoms_drawn := randoms_drawn w |}.

Definition set_calls (c : list external_call) (w : world) : world :=
  {| db := db w; db_faults := db_faults w; memoryCache := memoryCache w;
     memoryOrder := memoryOrder w; memoryCacheMaxSize := memoryCacheMaxSize w;
     redis := redis w; redis_up := redis_up w; s3_up := s3_up w;
     calls := c; log := log w; uuids_drawn := uuids_drawn w;
     randoms_drawn := randoms_drawn w |}.

Definition set_log (l : list log_entry) (w : world) : world :=
  {| db := db w; db_faults := db_faults w; memoryCache := memoryCache w;
     memoryOrder := memoryOrder w; memoryCacheMaxSize := memoryCacheMaxSize w;
     redis := redis w; redis_up := redis_up w; s3_up := s3_up w;
     calls := calls w; log := l; uuids_drawn := uuids_drawn w;
     randoms_drawn := randoms_drawn w |}.

Definition set_drawn (u r : nat) (w : world) : world :=
  {| db := db w; db_faults := db_faults w; memoryCache := memoryCache w;
     memoryOrder := memoryOrder w; memoryCacheMaxSize := memoryCacheMaxSize w;
     redis := redis w; redis_up := redis_up w; s3_up := s3_up w;
     calls := calls w; log := log w; uuids_drawn := u;
     randoms_drawn := r |}.

(** [logger.<level>(message, error)] *)
Definition logger (lvl msg : string) (e : option error) : M unit :=
  fun w => (Ok tt, set_log (log w ++ [ {| level := lvl; message := msg; thrown := e |} ]) w).

Definition call (c : external_call) : M unit :=
  fun w => (Ok tt, set_calls (calls w ++ [c]) w).

(** [query(text, params)] of [database/connection.js]: one autocommitted
    statement sent through the pool.  A rejected statement is logged and
    rethrown. *)
Definition query {A} (s : statement A) : M A :=
  fun w =>
    match db_faults w with
    | true :: rest =>
        let e := DatabaseError connection_failure in
        bind (logger "error" "Database query failed" (Some e)) (fun _ => throw e)
             (set_db_faults rest w)
    | rest =>
        let w1 := set_db_faults (tail rest) w in
        match s (db w1) with
        | (Ok a, d') => bind (logger "debug" "Database query executed" None)
                             (fun _ => ret a) (set_db d' w1)
        | (Throw e, d') =>
            bind (logger "error" "Database query failed" (Some e)) (fun _ => throw e)
                 (set_db d' w1)
        end
    end.

(** [client.query(text, params)] inside a transaction: the same delivery
    rules, without the logging wrapper. *)
Definition client_query {A} (s : statement A) : M A :=
  fun w =>
    match db_faults w with
    | true :: rest => (Throw (DatabaseError connection_failure), set_db_faults rest w)
    | rest =>
        let w1 := set_db_faults (tail rest) w in
        match s (db w1) with
        | (o, d') => (o, set_db d' w1)
        end
    end.

(** [withTransaction(callback)]: BEGIN, the callback, COMMIT; on any error
    ROLLBACK, which restores the store to its state at BEGIN, and rethrow. *)
Definition withTransaction {A} (callback : M A) : M A :=
  fun w =>
    let snapshot := db w in
    try_catch
      (bind (client_query (update id)) (fun _ =>
       bind callback (fun result =>
       bind (client_query (update id)) (fun _ =>
       ret result))))
      (fun e w' =>
         match client_query (update (fun _ => snapshot)) w' with
         | (Ok _, w'') => (Throw e, w'')
         | (Throw e', w'') => (Throw e', set_db snapshot w'')
         end)
      w.

End Runtime.
Export Runtime.

Declare Scope monad_scope.
Delimit Scope monad_scope with monad.
Notation "x <- m ;; k" := (bind m (fun x => k))
  (at level 100, m at next level, right associativity) : monad_scope.
Notation "m ;;; k" := (bind m (fun _ => k))
  (at level 100, right associativity) : monad_scope.
Open Scope monad_scope.

(* ===================================================================== *)
(** ** The two-tier cache ([src/cache/redis.js])                          *)
(* ===================================================================== *)

Module Cache.

(** Entries are task objects.  The memory tier holds the object itself, so
    a later mutation of the object by its reader is seen through the cache;
    the Redis tier holds the serialization made when the entry was set.
    The memory tier is a [Map]: [memoryOrder] keeps its keys in the order
    in which they were added, which is the order [keys()] yields.  The
    model covers a period in which no entry reaches its time to live. *)

(** [if (memoryCache.size >= this.memoryCacheMaxSize)
      memoryCache.delete(memoryCache.keys().next().value)] *)
Definition evict (w : world) : world :=
  if memoryCacheMaxSize w <=? Z.of_nat (size (memoryCache w)) then
    match memoryOrder w with
    | [] => w
    | firstKey :: rest =>
        set_memoryOrder rest
          (set_caches (delete firstKey (memoryCache w)) (redis w) w)
    end
  else w.

(** [memoryCache.set(key, ...)]: a key already present keeps its place. *)
Definition setMemory (key : string) (t : task) (w : world) : world :=
  let w1 := evict w in
  let order :=
    match memoryCache w1 !! key with
    | Some _ => memoryOrder w1
    | None => memoryOrder w1 ++ [key]
    end in
  set_memoryOrder order
    (set_caches (<[key := t]> (memoryCache w1)) (redis w1) w1).

Definition deleteMemory (key : string) (w : world) : world :=
  set_memoryOrder (filter (fun k => k ≠ key) (memoryOrder w))
    (set_caches (delete key (memoryCache w)) (redis w) w).

Definition get (key : string) : M (option task) :=
  fun w =>
    match memoryCache w !! key with
    | Some t => (Ok (Some t), w)
    | None =>
        if redis_up w then
          match redis w !! key with
          | None => (Ok None, w)
          | Some t => (Ok (Some t), setMemory key t w)
          end
        else
          (logger "error" "Cache get error:" (Some (Error "redis")) ;;; ret None) w
    end.

Definition set (key : string) (t : task) : M bool :=
  fun w =>
    if redis_up w then
      (Ok true,
       setMemory key t (set_caches (memoryCache w) (<[key := t]> (redis w)) w))
    else
      (logger "error" "Cache set error:" (Some (Error "redis")) ;;; ret false) w.

Definition del (key : string) : M bool :=
  fun w =>
    if redis_up w then
      (Ok true,
       deleteMemory key (set_caches (memoryCache w) (delete key (redis w)) w))
    else
      (logger "error" "Cache delete error:" (Some (Error "redis")) ;;; ret false) w.

(** The object under [key] in the memory tier is mutated in place. *)
Definition mutate_in_memory (key : string) (f : task -> task) : M unit :=
  fun w => (Ok tt, set_caches (alter f key (memoryCache w)) (redis w) w).

End Cache.

(* ===================================================================== *)
(** ** External collaborators and configuration                           *)
(* ===================================================================== *)

Module Env.

Definition Buffer := list Byte.byte.

(** What [sharp(buffer).metadata()] lets the caller read; a member that is
    [undefined] on the returned object is [None]. *)
Record image_metadata := {
  format : option string;
  width : option Z;
  height : option Z;
}.

(** The libraries, random sources and process environment the services
    run against.  Every property of the services is stated for an
    arbitrary environment. *)
Record environment := {
  (** the members [format], [width] and [height] of the value of
      [sharp(buffer).metadata()], which the code reads without awaiting it
      (a member that the value does not have is undefined); [None] when
      the call throws *)
  sharp_metadata : Buffer -> option image_metadata;
  (** the awaited pipelines [resize(w, h, ...).jpeg(...).toBuffer()] and
      [extract({ left, top, width, height }).jpeg(...).toBuffer()];
      [None] when the promise is rejected *)
  sharp_resize_jpeg : Buffer -> Z -> Z -> option Buffer;
  sharp_extract_jpeg : Buffer -> Z -> Z -> Z -> Z -> option Buffer;
  (** unique-colour ratio of a piece, computed from the member [data] of
      the value of [sharp(buffer).resize(50, 50).raw().toBuffer(...)],
      which the code reads without awaiting it; [None] when reading the
      pixels throws, as it does when [data] is undefined *)
  piece_entropy : Buffer -> option Q;
  (** [crypto.createHash('sha256').update(b).digest('hex')] *)
  sha256_hex : Buffer -> string;
  (** the [k]-th result of [uuidv4()] and of [Math.random()] (read modulo 1) *)
  uuidv4 : nat -> string;
  Math_random : nat -> Q;
  (** [Math.random().toString(36)] for the [k]-th random number *)
  Math_random_toString36 : nat -> string;
  Buffer_from_base64 : string -> Buffer;
  (** [JSON.parse(v)], [None] when it throws *)
  JSON_parse : value -> option value;
  toISOString : Z -> string;
  (** [process.env] *)
  CDN_URL : option string;
  REWARD_EXPIRY_DAYS : option Z;          (* [parseInt] of the variable; [None] is NaN *)
  MAX_TASK_REWARD_VALUE : option Q;       (* [parseFloat] of the variable *)
}.

(** The libraries throw errors of their own classes. *)
Definition sharp_result (o : option Buffer) : outcome Buffer :=
  match o with
  | Some b => Ok b
  | None => Throw (Error "Input buffer contains unsupported image format")
  end.

Definition parse_JSON (E : environment) (v : value) : outcome value :=
  match JSON_parse E v with
  | Some parsed => Ok parsed
  | None => Throw (SyntaxError "Unexpected token in JSON")
  end.

End Env.
Export Env.

(* ===================================================================== *)
(** ** [src/services/tasks/puzzleGenerator.js]                            *)
(* ===================================================================== *)

Module PuzzleGenerator.

Record piece := {
  index : Z;
  hash : string;
  piece_row : Z;
  piece_col : Z;
}.

Record PuzzleConfig := {
  image_url : string;
  grid_size : Z;
  piece_count : Z;
  pieces : list (Z * string);          (* [{ index, hash }] *)
  shuffled_order : list Z;
  difficulty_seed : string;
  correct_solution : list Z;
  created_at : string;
  expires_at : string;
}.

(** The object literal built at the end of [generateImagePuzzle], member by
    member, as a JavaScript value. *)
Definition PuzzleConfig_value (c : PuzzleConfig) : value :=
  VObject
    [ ("image_url", VString (image_url c));
      ("grid_size", VNumber (grid_size c));
      ("piece_count", VNumber (piece_count c));
      ("pieces",
       VArray ((fun p => VObject [("index", VNumber p.1); ("hash", VString p.2)])
               <$> pieces c));
      ("shuffled_order", index_array (shuffled_order c));
      ("difficulty_seed", VString (difficulty_seed c));
      ("correct_solution", index_array (correct_solution c));
      ("created_at", VString (created_at c));
      ("expires_at", VString (expires_at c)) ].

Definition cdnUrl (E : environment) : string :=
  match CDN_URL E with
  | Some u => if String.eqb u "" then "https://cdn.taskloot.com" else u
  | None => "https://cdn.taskloot.com"
  end.

(** *** isValidImage *)
Definition isValidImage (E : environment) (buffer : Buffer) : bool :=
  if (Z.of_nat (length buffer) =? 0) || (5000000 <? Z.of_nat (length buffer)) then false
  else
    match sharp_metadata E buffer with
    | None => false                                   (* catch (error) *)
    | Some metadata =>
        match format metadata with
        | Some f => bool_decide (f ∈ ["jpeg"; "png"; "webp"])
        | None => false
        end
        && match width metadata with Some w => 0 <? w | None => false end
        && match height metadata with Some h => 0 <? h | None => false end
    end.

(** *** uploadToS3 *)
Definition uploadToS3 (key : string) (body : Buffer) (contentType : string) : M unit :=
  call (S3Upload key) ;;;
  fun w =>
    if s3_up w then logger "debug" "File uploaded to S3" None w
    else
      (logger "error" "S3 upload failed:" (Some (Error "s3")) ;;;
       throw (Error "Failed to upload image to storage")) w.

(** *** shuffleArray (Fisher-Yates) *)
Definition swap (a : list Z) (i j : nat) : list Z :=
  match a !! i, a !! j with
  | Some x, Some y => <[j := x]> (<[i := y]> a)
  | _, _ => a
  end.

(** [Math.floor(Math.random() * (i + 1))] for the [k]-th random number. *)
Definition random_index (E : environment) (k i : nat) : nat :=
  let r := Math_random E k in
  let frac := (r - inject_Z (Qfloor r))%Q in
  Z.to_nat (Qfloor (frac * inject_Z (Z.of_nat (i + 1)))).

(** The loop [for (i = length - 1; i > 0; i--)], [i] counting down from
    [n]; [k] is the number of random numbers drawn before. *)
Fixpoint shuffle_from (E : environment) (n : nat) (k : nat) (shuffled : list Z) : list Z :=
  match n with
  | O => shuffled
  | S n' =>
      let j := random_index E k n in
      shuffle_from E n' (S k) (swap shuffled n j)
  end.

Definition shuffleArray (E : environment) (array : list Z) : M (list Z) :=
  fun w =>
    let n := (length array - 1)%nat in
    (Ok (shuffle_from E n (randoms_drawn w) array),
     set_drawn (uuids_drawn w) (randoms_drawn w + n) w).

Definition draw_uuid (E : environment) : M string :=
  fun w => (Ok (uuidv4 E (uuids_drawn w)),
            set_drawn (S (uuids_drawn w)) (randoms_drawn w) w).

(** *** calculateDifficulty

    The average unique-colour ratio of the pieces, bucketed; any failure
    while reading a piece is caught and gives ['medium']. *)
Definition calculateDifficulty (E : environment) (pieceBuffers : list Buffer) : M string :=
  match mapM (piece_entropy E) pieceBuffers with
  | None =>
      logger "error" "Difficulty calculation failed:" (Some (Error "sharp")) ;;;
      ret "medium"
  | Some entropies =>
      match pieceBuffers with
      | [] => ret "hard"                               (* 0 / 0 is NaN *)
      | _ =>
          let totalEntropy := foldr Qplus 0%Q entropies in
          let avgEntropy := (totalEntropy / inject_Z (Z.of_nat (length pieceBuffers)))%Q in
          if Qlt_le_dec avgEntropy (1 # 10) then ret "easy"
          else if Qlt_le_dec avgEntropy (3 # 10) then ret "medium"
          else ret "hard"
      end
  end.

(** *** generateImagePuzzle *)

Fixpoint for_each {A B} (l : list A) (body : A -> M B) : M (list B) :=
  match l with
  | [] => ret []
  | x :: rest =>
      y <- body x ;;
      ys <- for_each rest body ;;
      ret (y :: ys)
  end.

(** One iteration of the inner loop: extract the region, hash it. *)
Definition extract_piece (E : environment) (resized : Buffer)
    (piecesPerSide : Z) (pieceSize : Q) (row col : Z) : M (piece * Buffer) :=
  let left := Qfloor (inject_Z col * pieceSize) in
  let top := Qfloor (inject_Z row * pieceSize) in
  let width := Qfloor pieceSize in
  let height := Qfloor pieceSize in
  call (SharpExtract left top width height) ;;;
  buffer <- lift_outcome (sharp_result (sharp_extract_jpeg E resized left top width height)) ;;
  ret ({| index := row * piecesPerSide + col;
          hash := sha256_hex E buffer;
          piece_row := row;
          piece_col := col |}, buffer).

(** The nested loops over [row] and [col]. *)
Definition extract_pieces (E : environment) (resized : Buffer)
    (piecesPerSide : Z) (pieceSize : Q) : M (list (piece * Buffer)) :=
  let range := Z.of_nat <$> seq 0 (Z.to_nat piecesPerSide) in
  rows <- for_each range (fun row =>
            for_each range (fun col =>
              extract_piece E resized piecesPerSide pieceSize row col)) ;;
  ret (concat rows).

(** [[9, 16, 25].includes(gridSize)] *)
Definition valid_grid_size (gridSize : value) : bool :=
  match gridSize with
  | VNumber n => bool_decide (n ∈ [9; 16; 25])
  | _ => false
  end.

Definition number_of (v : value) : Z :=
  match v with VNumber n => n | _ => 0 end.

Definition generateImagePuzzle (E : environment) (now : timestamp)
    (imageBuffer : Buffer) (gridSizeArg : value) : M PuzzleConfig :=
  (* default parameter [gridSize = 9] *)
  let gridSize := match gridSizeArg with VUndefined => VNumber 9 | v => v end in
  try_catch
    ((if negb (valid_grid_size gridSize)
      then throw (ValidationError "Grid size must be 9, 16, or 25")
      else ret tt) ;;;
     (if negb (isValidImage E imageBuffer)
      then throw (ValidationError "Invalid image format. Must be JPEG/PNG and < 5MB")
      else ret tt) ;;;
     logger "info" "Generating puzzle" None ;;;
     call (SharpResize 400 400) ;;;
     resized <- lift_outcome (sharp_result (sharp_resize_jpeg E imageBuffer 400 400)) ;;
     id <- draw_uuid E ;;
     let imageKey := "puzzles/" +:+ id +:+ "-original.jpg" in
     uploadToS3 imageKey resized "image/jpeg" ;;;
     let piecesPerSide := Z.sqrt (number_of gridSize) in
     let pieceSize := (400 / inject_Z piecesPerSide)%Q in
     extracted <- extract_pieces E resized piecesPerSide pieceSize ;;
     let pieces := extracted.*1 in
     let pieceBuffers := extracted.*2 in
     pieceKeys <- for_each (seq 0 (length pieceBuffers)) (fun i =>
                    id <- draw_uuid E ;;
                    ret ("puzzles/" +:+ id +:+ "-piece-" +:+ pretty i +:+ ".jpg")) ;;
     shuffledIndices <- shuffleArray E
                          (Z.of_nat <$> seq 0 (Z.to_nat (number_of gridSize))) ;;
     difficulty <- calculateDifficulty E pieceBuffers ;;
     let puzzleConfig :=
       {| image_url := cdnUrl E +:+ "/" +:+ imageKey;
          grid_size := piecesPerSide;
          piece_count := number_of gridSize;
          pieces := (fun p => (index p, hash p)) <$> pieces;
          shuffled_order := shuffledIndices;
          difficulty_seed := difficulty;
          correct_solution := index <$> pieces;
          created_at := toISOString E now;
          expires_at := toISOString E (now + 24 * 60 * 60 * 1000) |} in
     logger "info" "Puzzle generated successfully" None ;;;
     ret puzzleConfig)
    (fun error =>
       logger "error" "Puzzle generation failed:" (Some error) ;;;
       throw error).

(** *** deletePuzzleAssets (called with the image URL only)

    A failure of S3 is logged and not rethrown. *)
Definition deletePuzzleAssets (E : environment) (imageUrl : string) : M unit :=
  if String.eqb imageUrl "" then ret tt
  else
    let key := remove_first (cdnUrl E +:+ "/") imageUrl in
    call (S3DeleteObjects [key]) ;;;
    fun w =>
      if s3_up w then logger "info" "Puzzle assets deleted" None w
      else logger "error" "Failed to delete puzzle assets:" (Some (Error "s3")) w.

(** *** validateSolution *)

Record validation := {
  is_correct : bool;
  score : float;
  base_score : option float;
  time_bonus : float;
  time_taken_seconds : option float;
  error_message : option string;
}.

Definition array_length (v : value) : nat :=
  match v with VArray items => length items | _ => 0%nat end.

Definition validateSolution (userSolution correctSolution : value)
    (timeTaken : float) : outcome validation :=
  if negb (Array_isArray userSolution) || negb (Array_isArray correctSolution)
  then Throw (ValidationError "Invalid solution format")
  else if negb (array_length userSolution =? array_length correctSolution)%nat
  then Throw (ValidationError "Solution arrays must have same length")
  else
    let isCorrect :=
      bool_decide (JSON_stringify userSolution = JSON_stringify correctSolution) in
    if negb isCorrect then
      Ok {| is_correct := false; score := 0; base_score := None; time_bonus := 0;
            time_taken_seconds := None;
            error_message := Some "Puzzle arrangement is incorrect" |}
    else
      let maxTimeSeconds := 300%float in
      let timeTakenSeconds := (timeTaken / 1000)%float in
      let timeRatio :=
        Math_max 0 ((maxTimeSeconds - timeTakenSeconds) / maxTimeSeconds)%float in
      let baseScore := 100%float in
      let timeBonus := Math_floor (timeRatio * 50)%float in
      let totalScore := (baseScore + timeBonus)%float in
      Ok {| is_correct := true; score := totalScore; base_score := Some baseScore;
            time_bonus := timeBonus; time_taken_seconds := Some timeTakenSeconds;
            error_message := None |}.

End PuzzleGenerator.

(* ===================================================================== *)
(** ** [src/services/tasks/service.js]                                    *)
(* ===================================================================== *)

Module TaskService.

Record TaskData := {
  title : option string;                (* [None]: undefined *)
  description : option string;
  task_type : string;
  difficulty : string;
  reward_type : string;
  reward_value : option Q;              (* [parseFloat(reward_value)], [None]: NaN *)
  reward_description : option string;
  image_file : option string;           (* base64 *)
}.

Record AttemptData := {
  is_successful : bool;
  time_taken_seconds : Z;
  difficulty_multiplier : option Q;
}.

(** *** validateTaskData *)
Definition validateTaskData (E : environment) (taskData : TaskData) : outcome unit :=
  let bad_length (s : option string) (lo hi : nat) :=
    match s with
    | None => true
    | Some s =>
        String.eqb s ""
        || (String.length (trim s) <? lo)%nat || (hi <? String.length (trim s))%nat
    end in
  if bad_length (title taskData) 3%nat 100%nat
  then Throw (ValidationError "Title must be between 3 and 100 characters")
  else if match description taskData with
          | Some d => (1000 <? String.length d)%nat
          | None => false
          end
  then Throw (ValidationError "Description must be less than 1000 characters")
  else if negb (bool_decide (task_type taskData ∈
                  ["image-puzzle"; "spot-diff"; "speed-challenge"; "meme"; "logic"]))
  then Throw (ValidationError "Invalid task type")
  else if negb (bool_decide (difficulty taskData ∈ ["easy"; "medium"; "hard"; "expert"]))
  then Throw (ValidationError "Invalid difficulty level")
  else if negb (bool_decide (reward_type taskData ∈
                  ["discount"; "coupon"; "points"; "cashback"]))
  then Throw (ValidationError "Invalid reward type")
  else
    match reward_value taskData with
    | None => Throw (ValidationError "Reward value must be a positive number")
    | Some rewardValue =>
        if Qle_bool rewardValue 0
        then Throw (ValidationError "Reward value must be a positive number")
        else
          let maxReward :=
            match MAX_TASK_REWARD_VALUE E with
            | Some m => if Qeq_bool m 0 then 10000%Q else m
            | None => 10000%Q
            end in
          if negb (Qle_bool rewardValue maxReward)
          then Throw (ValidationError "Reward value cannot exceed the maximum")
          else if bad_length (reward_description taskData) 10%nat 255%nat
          then Throw (ValidationError
                        "Reward description must be between 10 and 255 characters")
          else Ok tt
    end.

(** *** getGridSizeFromDifficulty *)
Definition gridSizes : list (string * Z) :=
  [ ("easy", 9); ("medium", 16); ("hard", 25); ("expert", 25) ].

(** [gridSizes[difficulty] || 16] *)
Definition getGridSizeFromDifficulty (difficulty : string) : value :=
  match Js.get gridSizes difficulty with
  | Own n => if n =? 0 then VNumber 16 else VNumber n
  | Inherited name => VBuiltin name
  | Undefined => VNumber 16
  end.

Definition cache_key (taskId : uuid) : string := "task:" +:+ taskId.

(** *** createTask *)

(** [SELECT id FROM tasks WHERE company_id = $1 AND LOWER(title) = LOWER($2)] *)
Definition select_same_title (companyId : uuid) (title : string) (d : database)
    : list uuid :=
  t_id <$> filter (fun t => t_company_id t = companyId
                         ∧ toLowerCase (t_title t) = toLowerCase title) (tasks d).

Definition createTask (E : environment) (now : timestamp) (new_id : uuid)
    (companyId : uuid) (taskData : TaskData) : M task :=
  lift_outcome (validateTaskData E taskData) ;;;
  let title_trimmed := trim (default "" (title taskData)) in
  existingTask <- query (select (select_same_title companyId title_trimmed)) ;;
  (if negb (bool_decide (existingTask = []))
   then throw (ConflictError "Task with this title already exists for your company")
   else ret tt) ;;;
  generated <-
    match image_file taskData with
    | Some image =>
        if String.eqb image "" then ret None
        else
          try_catch
            (let gridSize := getGridSizeFromDifficulty (difficulty taskData) in
             config <- PuzzleGenerator.generateImagePuzzle E now
                         (Buffer_from_base64 E image) gridSize ;;
             ret (Some config))
            (fun error =>
               logger "error" "Failed to process task image:" (Some error) ;;;
               throw (ValidationError
                 "Failed to process image. Please ensure it's a valid JPEG/PNG file under 5MB"))
    | None => ret None
    end ;;
  let new_row :=
    {| t_id := new_id;
       t_company_id := companyId;
       t_title := title_trimmed;
       t_description :=
         match description taskData with
         | Some d => if String.eqb (trim d) "" then None else Some (trim d)
         | None => None
         end;
       t_task_type := task_type taskData;
       t_difficulty := difficulty taskData;
       t_reward_type := reward_type taskData;
       t_reward_value := default 0%Q (reward_value taskData);
       t_reward_description := trim (default "" (reward_description taskData));
       t_image_url := PuzzleGenerator.image_url <$> generated;
       (* [generatedPuzzleConfig ? JSON.stringify(generatedPuzzleConfig) : null]
          into the column [puzzle_config JSONB] *)
       t_puzzle_config :=
         match generated with
         | Some config => default VNull (jsonb (PuzzleGenerator.PuzzleConfig_value config))
         | None => VNull
         end;
       t_status := "draft";
       t_is_featured := false;
       t_featured_until := None;
       t_attempt_count := 0;
       t_conversion_count := 0;
       t_expires_at := None |} in
  inserted <- query (insert_task new_row) ;;
  let task := task_of_row inserted in
  Cache.set (cache_key (t_id inserted)) task ;;;
  logger "business" "Task created" None ;;;
  ret task.

(** *** getTask *)

Definition attempts_of (taskId : uuid) (d : database) : list attempt_row :=
  filter (fun a => a_task_id a = taskId) (task_attempts d).

Definition successful_attempts_of (taskId : uuid) (d : database) : list attempt_row :=
  filter (fun a => a_is_successful a = true) (attempts_of taskId d).

(** The join of [tasks], [users], [company_profiles] and the attempt
    counts, for the task [taskId]. *)
Definition select_task_details (taskId : uuid) (d : database) : list task :=
  t ← filter (fun t => t_id t = taskId) (tasks d);
  u ← filter (fun u => u_id u = t_company_id t) (users d);
  cp ← match filter (fun cp => cp_user_id cp = u_id u) (company_profiles d) with
       | [] => [None]
       | cps => Some <$> cps
       end;
  [ {| row := t;
       company_email := Some (u_email u);
       company_name := cp_company_name <$> cp;
       total_attempts := Some (Z.of_nat (length (attempts_of (t_id t) d)));
       successful_attempts :=
         Some (Z.of_nat (length (successful_attempts_of (t_id t) d)));
       user_attempt := None |} ].

(** [SELECT id, is_successful, time_taken_seconds FROM task_attempts
     WHERE task_id = $1 AND user_id = $2] *)
Definition select_user_attempt (taskId userId : uuid) (d : database)
    : list attempt_view :=
  (fun a => {| av_id := a_id a; av_is_successful := a_is_successful a;
               av_time_taken_seconds := a_time_taken_seconds a |})
  <$> filter (fun a => a_task_id a = taskId ∧ a_user_id a = userId) (task_attempts d).

(** An assignment to a member of the task object; [shared] tells whether
    the object is the one held by the memory tier of the cache. *)
Definition assign (key : string) (shared : bool) (f : task -> task) (t : task) : M task :=
  (if shared then Cache.mutate_in_memory key f else ret tt) ;;;
  ret (f t).

Definition getTask (E : environment) (taskId : uuid) (userId : option uuid) : M task :=
  let key := cache_key taskId in
  cached <- Cache.get key ;;
  found <-
    match cached with
    | Some task => ret (task, true)
    | None =>
        result <- query (select (select_task_details taskId)) ;;
        match result with
        | [] => throw (NotFoundError "Task not found")
        | task :: _ =>
            stored <- Cache.set key task ;;
            ret (task, stored)
        end
    end ;;
  let '(task, shared) := found in
  task <-
    match userId with
    | Some user =>
        if String.eqb user "" then ret task
        else
          attemptResult <- query (select (select_user_attempt taskId user)) ;;
          assign key shared (set_user_attempt (head attemptResult)) task
    | None => ret task
    end ;;
  (* Don't expose puzzle solution to users *)
  if truthy (puzzle_config task) then
    puzzleConfig <- lift_outcome (parse_JSON E (puzzle_config task)) ;;
    puzzleConfig <- lift_outcome (delete_property "correct_solution" puzzleConfig) ;;
    assign key shared (set_puzzle_config puzzleConfig) task
  else ret task.

(** *** recordAttempt *)

Definition select_attempt_ids (taskId userId : uuid) (d : database) : list uuid :=
  a_id <$> filter (fun a => a_task_id a = taskId ∧ a_user_id a = userId) (task_attempts d).

(** [SELECT * FROM tasks WHERE id = $1 AND status = $2] *)
Definition select_task_with_status (taskId : uuid) (status : string) (d : database)
    : list task_row :=
  filter (fun t => t_id t = taskId ∧ t_status t = status) (tasks d).

Definition bump_counters (successful : bool) (r : task_row) : task_row :=
  {| t_id := t_id r; t_company_id := t_company_id r; t_title := t_title r;
     t_description := t_description r; t_task_type := t_task_type r;
     t_difficulty := t_difficulty r; t_reward_type := t_reward_type r;
     t_reward_value := t_reward_value r;
     t_reward_description := t_reward_description r;
     t_image_url := t_image_url r; t_puzzle_config := t_puzzle_config r;
     t_status := t_status r; t_is_featured := t_is_featured r;
     t_featured_until := t_featured_until r;
     t_attempt_count := t_attempt_count r + 1;
     t_conversion_count :=
       if successful then t_conversion_count r + 1 else t_conversion_count r;
     t_expires_at := t_expires_at r |}.

(** [UPDATE tasks SET attempt_count = attempt_count + 1,
       conversion_count = CASE WHEN $1 THEN conversion_count + 1 ELSE conversion_count END
     WHERE id = $2] *)
Definition update_task_statistics (successful : bool) (taskId : uuid)
    : statement unit :=
  fun d =>
    match update_counters (bump_counters successful) taskId d with
    | Some d' => (Ok tt, d')
    | None => (Throw (DatabaseError numeric_value_out_of_range), d)
    end.

Definition recordAttempt (now : timestamp) (new_id : uuid)
    (taskId userId : uuid) (attemptData : AttemptData) : M attempt_row :=
  existingAttempt <- query (select (select_attempt_ids taskId userId)) ;;
  (if negb (bool_decide (existingAttempt = []))
   then throw (ConflictError "You have already attempted this task")
   else ret tt) ;;;
  taskResult <- query (select (select_task_with_status taskId "active")) ;;
  match taskResult with
  | [] => throw (NotFoundError "Task not found or not active")
  | task :: _ =>
      (if match t_expires_at task with
          | Some expires => expires <? now
          | None => false
          end
       then throw (GoneError "Task has expired")
       else ret tt) ;;;
      attempt <- query (insert_task_attempt
        {| a_id := new_id;
           a_task_id := taskId;
           a_user_id := userId;
           a_started_at := now - time_taken_seconds attemptData * 1000;
           a_completed_at := now;
           a_time_taken_seconds := time_taken_seconds attemptData;
           a_is_successful := is_successful attemptData;
           a_difficulty_multiplier :=
             match difficulty_multiplier attemptData with
             | Some m => if Qeq_bool m 0 then 1%Q else m
             | None => 1%Q
             end |}) ;;
      query (update_task_statistics (is_successful attemptData) taskId) ;;;
      Cache.del (cache_key taskId) ;;;
      logger "business" "Task attempt recorded" None ;;;
      ret attempt
  end.

(** *** deleteTask *)

Definition select_owned_task (taskId companyId : uuid) (d : database) : list task_row :=
  filter (fun t => t_id t = taskId ∧ t_company_id t = companyId) (tasks d).

Definition delete_attempts_of_task (taskId : uuid) (d : database) : database :=
  with_task_attempts (filter (fun a => a_task_id a <> taskId) (task_attempts d)) d.

Definition delete_rewards_of_task (taskId : uuid) (d : database) : database :=
  with_user_rewards (filter (fun r => r_task_id r <> taskId) (user_rewards d)) d.

Definition delete_task_row (taskId : uuid) (d : database) : database :=
  with_tasks (filter (fun t => t_id t <> taskId) (tasks d)) d.

(** [DELETE FROM task_attempts WHERE task_id = $1]: no table refers to
    [task_attempts]. *)
Definition delete_from_task_attempts (taskId : uuid) : statement unit :=
  update (delete_attempts_of_task taskId).

(** A row of [transactions] refers to a reward of the task
    ([related_reward_id UUID REFERENCES user_rewards(id)]). *)
Definition reward_of_task_referenced (taskId : uuid) (d : database) : bool :=
  existsb
    (fun x =>
       match tx_related_reward_id x with
       | Some rewardId =>
           bool_decide
             (rewardId ∈ (r_id <$> filter (fun r => r_task_id r = taskId) (user_rewards d)))
       | None => false
       end)
    (transactions d).

(** [DELETE FROM user_rewards WHERE task_id = $1]: refused while a row of
    [transactions] refers to one of the rewards. *)
Definition delete_from_user_rewards (taskId : uuid) : statement unit :=
  fun d =>
    if reward_of_task_referenced taskId d
    then (Throw (DatabaseError foreign_key_violation), d)
    else (Ok tt, delete_rewards_of_task taskId d).

(** A row of [transactions] or of [analytics_events] refers to the task
    ([related_task_id UUID REFERENCES tasks(id)],
     [task_id UUID REFERENCES tasks(id)]). *)
Definition task_referenced (taskId : uuid) (d : database) : bool :=
  existsb (fun x => bool_decide (tx_related_task_id x = Some taskId)) (transactions d)
  || existsb (fun e => bool_decide (ae_task_id e = Some taskId)) (analytics_events d).

(** [DELETE FROM tasks WHERE id = $1]: when a row is deleted, the attempts
    and rewards that still refer to it go with it ([ON DELETE CASCADE]);
    the statement is refused while a row of [transactions] or
    [analytics_events] refers to the task or a row of [transactions] refers
    to a reward that the cascade deletes. *)
Definition delete_from_tasks (taskId : uuid) : statement unit :=
  fun d =>
    if negb (task_exists taskId d) then (Ok tt, d)
    else if task_referenced taskId d || reward_of_task_referenced taskId d
    then (Throw (DatabaseError foreign_key_violation), d)
    else
      (Ok tt,
       delete_task_row taskId
         (delete_rewards_of_task taskId (delete_attempts_of_task taskId d))).

Definition deleteTask (E : environment) (taskId companyId : uuid) : M bool :=
  taskResult <- query (select (select_owned_task taskId companyId)) ;;
  match taskResult with
  | [] => throw (NotFoundError "Task not found or access denied")
  | task :: _ =>
      withTransaction
        (client_query (delete_from_task_attempts taskId) ;;;
         client_query (delete_from_user_rewards taskId) ;;;
         client_query (delete_from_tasks taskId)) ;;;
      (match t_image_url task with
       | Some url =>
           if negb (String.eqb url "") && truthy (t_puzzle_config task) then
             try_catch
               (lift_outcome (parse_JSON E (t_puzzle_config task)) ;;;
                PuzzleGenerator.deletePuzzleAssets E url)
               (fun error => logger "error" "Failed to cleanup puzzle assets:" (Some error))
           else ret tt
       | None => ret tt
       end) ;;;
      Cache.del (cache_key taskId) ;;;
      logger "business" "Task deleted" None ;;;
      ret true
  end.

(** *** publishTask *)

Definition set_status (status : string) (r : task_row) : task_row :=
  {| t_id := t_id r; t_company_id := t_company_id r; t_title := t_title r;
     t_description := t_description r; t_task_type := t_task_type r;
     t_difficulty := t_difficulty r; t_reward_type := t_reward_type r;
     t_reward_value := t_reward_value r;
     t_reward_description := t_reward_description r;
     t_image_url := t_image_url r; t_puzzle_config := t_puzzle_config r;
     t_status := status; t_is_featured := t_is_featured r;
     t_featured_until := t_featured_until r;
     t_attempt_count := t_attempt_count r;
     t_conversion_count := t_conversion_count r;
     t_expires_at := t_expires_at r |}.

(** [UPDATE tasks SET status = 'active' WHERE id = $1 AND company_id = $2
     RETURNING *] *)
Definition update_published (taskId companyId : uuid) : statement (list task_row) :=
  fun d =>
    let touched t := bool_decide (t_id t = taskId ∧ t_company_id t = companyId) in
    let rows := (fun t => if touched t then set_status "active" t else t) <$> tasks d in
    (Ok (filter (fun t => t_id t = taskId ∧ t_company_id t = companyId) rows),
     with_tasks rows d).

Definition publishTask (taskId companyId : uuid) : M (option task_row) :=
  taskResult <- query (select (select_owned_task taskId companyId)) ;;
  match taskResult with
  | [] => throw (NotFoundError "Task not found or access denied")
  | task :: _ =>
      (if negb (String.eqb (t_status task) "draft")
       then throw (ForbiddenError "Only draft tasks can be published")
       else ret tt) ;;;
      (if match t_image_url task with
          | Some url => String.eqb url ""
          | None => true
          end
       then throw (ValidationError "Task must have an image to be published")
       else ret tt) ;;;
      (if Qle_bool (t_reward_value task) 0
       then throw (ValidationError "Task must have a valid reward value")
       else ret tt) ;;;
      result <- query (update_published taskId companyId) ;;
      Cache.del (cache_key taskId) ;;;
      logger "business" "Task published" None ;;;
      ret (head result)
  end.

(** *** featureTask *)

Definition set_featured (until : timestamp) (r : task_row) : task_row :=
  {| t_id := t_id r; t_company_id := t_company_id r; t_title := t_title r;
     t_description := t_description r; t_task_type := t_task_type r;
     t_difficulty := t_difficulty r; t_reward_type := t_reward_type r;
     t_reward_value := t_reward_value r;
     t_reward_description := t_reward_description r;
     t_image_url := t_image_url r; t_puzzle_config := t_puzzle_config r;
     t_status := t_status r; t_is_featured := true;
     t_featured_until := Some until;
     t_attempt_count := t_attempt_count r;
     t_conversion_count := t_conversion_count r;
     t_expires_at := t_expires_at r |}.

(** [UPDATE tasks SET is_featured = true, featured_until = $1
     WHERE id = $2 AND company_id = $3 RETURNING *] *)
Definition update_featured (until : timestamp) (taskId companyId : uuid)
    : statement (list task_row) :=
  fun d =>
    match timestamp_param until with
    | Throw e => (Throw e, d)
    | Ok until =>
        let touched t := bool_decide (t_id t = taskId ∧ t_company_id t = companyId) in
        let rows :=
          (fun t => if touched t then set_featured until t else t) <$> tasks d in
        (Ok (filter (fun t => t_id t = taskId ∧ t_company_id t = companyId) rows),
         with_tasks rows d)
    end.

Record featured := {
  featured_task : option task_row;
  cost : Z;
  featured_until : timestamp;
}.

(** [costPerDay] is [parseFloat(process.env.FEATURED_TASK_COST_PER_DAY) || 99],
    here for a variable that is unset or holds a whole number;
    [durationDays] is a whole number of days.  The products and the sum
    are those of the integers, which is what the code computes as long as
    they are safe integers (at most 2^53 - 1 in absolute value). *)
Definition featureTask (FEATURED_TASK_COST_PER_DAY : option Z) (now : timestamp)
    (taskId companyId : uuid) (durationDays : Z) : M featured :=
  taskResult <- query (select (select_owned_task taskId companyId)) ;;
  match taskResult with
  | [] => throw (NotFoundError "Task not found or access denied")
  | task :: _ =>
      (if negb (String.eqb (t_status task) "active")
       then throw (ForbiddenError "Only active tasks can be featured")
       else ret tt) ;;;
      let costPerDay :=
        match FEATURED_TASK_COST_PER_DAY with
        | Some c => if c =? 0 then 99 else c
        | None => 99
        end in
      let totalCost := costPerDay * durationDays in
      let featuredUntil := now + durationDays * 24 * 60 * 60 * 1000 in
      result <- query (update_featured featuredUntil taskId companyId) ;;
      Cache.del (cache_key taskId) ;;;
      logger "business" "Task featured" None ;;;
      ret {| featured_task := head result; cost := totalCost;
             featured_until := featuredUntil |}
  end.

End TaskService.

(* ===================================================================== *)
(** ** [src/services/users/service.js]: the reward ledger                 *)
(* ===================================================================== *)

Module UserService.

(** *** generateRewardCode

    ['TL' + Date.now().toString(36)
          + Math.random().toString(36).substring(2, 8).toUpperCase()] *)
Definition generateRewardCode (E : environment) (now : timestamp) : M string :=
  fun w =>
    let prefix := "TL" in
    let timestamp := toString36 now in
    let random :=
      toUpperCase (Js.substring 2 8 (Math_random_toString36 E (randoms_drawn w))) in
    (Ok (prefix +:+ timestamp +:+ random),
     set_drawn (uuids_drawn w) (S (randoms_drawn w)) w).

(** *** getRedemptionInstructions *)
Definition instructions : list (string * string) :=
  [ ("discount",
     "Show this code at the store or enter it during online checkout to avail the discount.");
    ("coupon", "Use this code during online checkout to apply the coupon.");
    ("points",
     "These points have been added to your account and can be redeemed for rewards.");
    ("cashback",
     "The cashback amount will be credited to your registered bank account within 5-7 business days.") ].

Definition getRedemptionInstructions (rewardType : string) : value :=
  match Js.get instructions rewardType with
  | Own text =>
      if String.eqb text ""
      then VString "Please contact the company for redemption instructions."
      else VString text
  | Inherited name => VBuiltin name
  | Undefined => VString "Please contact the company for redemption instructions."
  end.

(** *** createReward *)

Definition select_reward_ids (userId taskId : uuid) (d : database) : list uuid :=
  r_id <$> filter (fun r => r_user_id r = userId ∧ r_task_id r = taskId) (user_rewards d).

Definition select_task (taskId : uuid) (d : database) : list task_row :=
  filter (fun t => t_id t = taskId) (tasks d).

(** [parseInt(process.env.REWARD_EXPIRY_DAYS) || 30] *)
Definition expiryDays (E : environment) : Z :=
  match REWARD_EXPIRY_DAYS E with
  | Some n => if n =? 0 then 30 else n
  | None => 30
  end.

Definition createReward (E : environment) (now : timestamp) (new_id : uuid)
    (userId taskId : uuid) : M reward_row :=
  existingReward <- query (select (select_reward_ids userId taskId)) ;;
  (if negb (bool_decide (existingReward = []))
   then throw (ConflictError "Reward already exists for this task")
   else ret tt) ;;;
  taskResult <- query (select (select_task taskId)) ;;
  match taskResult with
  | [] => throw (NotFoundError "Task not found")
  | task :: _ =>
      rewardCode <- generateRewardCode E now ;;
      let expiresAt := now + expiryDays E * 24 * 60 * 60 * 1000 in
      reward <- query (insert_user_reward
        {| r_id := new_id;
           r_user_id := userId;
           r_task_id := taskId;
           r_reward_code := rewardCode;
           r_reward_type := t_reward_type task;
           r_reward_value := t_reward_value task;
           r_is_redeemed := false;
           r_redeemed_at := None;
           r_expires_at := expiresAt |}) ;;
      logger "business" "Reward created" None ;;;
      ret reward
  end.

(** *** redeemReward *)

Record reward_details := {
  reward : reward_row;
  task_title : string;
  company_id : uuid;
  rd_company_name : option string;
  rd_contact_person : option string;
  rd_website_url : option string;
  rd_registered_address : option string;
}.

(** The join of [user_rewards], [tasks], [users] and [company_profiles]
    filtered by [ur.reward_code = $1 AND ur.user_id = $2]. *)
Definition select_reward_details (rewardCode : string) (userId : uuid) (d : database)
    : list reward_details :=
  ur ← filter (fun r => r_reward_code r = rewardCode ∧ r_user_id r = userId)
              (user_rewards d);
  t ← filter (fun t => t_id t = r_task_id ur) (tasks d);
  u ← filter (fun u => u_id u = t_company_id t) (users d);
  cp ← match filter (fun cp => cp_user_id cp = u_id u) (company_profiles d) with
       | [] => [None]
       | cps => Some <$> cps
       end;
  [ {| reward := ur;
       task_title := t_title t;
       company_id := t_company_id t;
       rd_company_name := cp_company_name <$> cp;
       rd_contact_person := cp ≫= cp_contact_person;
       rd_website_url := cp ≫= cp_website_url;
       rd_registered_address := cp ≫= cp_registered_address |} ].

Definition mark_redeemed (now : timestamp) (r : reward_row) : reward_row :=
  {| r_id := r_id r; r_user_id := r_user_id r; r_task_id := r_task_id r;
     r_reward_code := r_reward_code r; r_reward_type := r_reward_type r;
     r_reward_value := r_reward_value r;
     r_is_redeemed := true;
     r_redeemed_at := Some now;
     r_expires_at := r_expires_at r |}.

(** [UPDATE user_rewards SET is_redeemed = true, redeemed_at = CURRENT_TIMESTAMP
     WHERE id = $1] *)
Definition update_redeemed (now : timestamp) (rewardId : uuid) (d : database)
    : database :=
  with_user_rewards
    ((fun r => if bool_decide (r_id r = rewardId) then mark_redeemed now r else r)
     <$> user_rewards d) d.

Record redemption := {
  red_id : uuid;
  red_reward_code : string;
  red_reward_type : string;
  red_reward_value : Q;
  red_redeemed_at : string;
  red_company_name : option string;
  red_contact_person : option string;
  red_website_url : option string;
  red_registered_address : option string;
  how_to_redeem : value;
}.

Definition redeemReward (E : environment) (now : timestamp)
    (userId : uuid) (rewardCode : string) : M redemption :=
  result <- query (select (select_reward_details rewardCode userId)) ;;
  match result with
  | [] => throw (NotFoundError "Reward not found")
  | found :: _ =>
      (if r_is_redeemed (reward found)
       then throw (ConflictError "Reward has already been redeemed")
       else ret tt) ;;;
      (if r_expires_at (reward found) <? now
       then throw (GoneError "Reward has expired")
       else ret tt) ;;;
      query (update (update_redeemed now (r_id (reward found)))) ;;;
      logger "business" "Reward redeemed" None ;;;
      ret {| red_id := r_id (reward found);
             red_reward_code := r_reward_code (reward found);
             red_reward_type := r_reward_type (reward found);
             red_reward_value := r_reward_value (reward found);
             red_redeemed_at := toISOString E now;
             red_company_name := rd_company_name found;
             red_contact_person := rd_contact_person found;
             red_website_url := rd_website_url found;
             red_registered_address := rd_registered_address found;
             how_to_redeem := getRedemptionInstructions (r_reward_type (reward found)) |}
  end.

End UserService.

(* ===================================================================== *)
(** ** Sample data: a small deployment used to exercise the services      *)
(* ===================================================================== *)

Module Sample.

Definition png : Buffer := [Byte.x89; Byte.x50; Byte.x4e; Byte.x47].

Definition byte_of (z : Z) : Byte.byte :=
  default Byte.x00 (Byte.of_N (Z.to_N (z `mod` 256))).

(** An environment with sharp as the generator calls it: the promises of
    [metadata()] and of [toBuffer()] on the raw pixels are read without
    being awaited, so that [format], [width], [height] and [data] are
    undefined; the awaited pipelines answer (an extracted region is
    stood for by the bytes of the image followed by its left, top, width
    and height). *)
Definition E : environment := {|
  sharp_metadata := fun _ =>
    Some {| format := None; width := None; height := None |};
  sharp_resize_jpeg := fun b _ _ => Some b;
  sharp_extract_jpeg := fun b left top width height =>
    Some (b ++ (byte_of <$> [left; top; width; height]));
  piece_entropy := fun _ => None;
  sha256_hex := fun b => "e3b0c44298fc1c14";
  uuidv4 := fun k => "uuid-" +:+ pretty k;
  Math_random := fun k => (1 # 3)%Q;
  Math_random_toString36 := fun k =>
    match k with O => "0.4fzyo82mvyr" | _ => "0.9x1k2j3h4g5" end;
  Buffer_from_base64 := fun _ => png;
  JSON_parse := fun v =>
    match v with
    | VString _ =>
        Some (VObject [ ("grid_size", VNumber 3);
                        ("shuffled_order", index_array [2; 0; 1]);
                        ("correct_solution", index_array [0; 1; 2]) ])
    | _ => None
    end;
  toISOString := fun z => pretty z;
  CDN_URL := None;
  REWARD_EXPIRY_DAYS := None;
  MAX_TASK_REWARD_VALUE := None;
|}.

Definition company : user_row :=
  {| u_id := "company-1"; u_email := "owner@pizza.example"; u_role := "company" |}.
Definition player : user_row :=
  {| u_id := "player-1"; u_email := "p1@mail.example"; u_role := "player" |}.
Definition other_player : user_row :=
  {| u_id := "player-2"; u_email := "p2@mail.example"; u_role := "player" |}.

Definition pizza (status : string) (expires : option timestamp) : task_row :=
  {| t_id := "task-1"; t_company_id := "company-1"; t_title := "Pizza Puzzle";
     t_description := None; t_task_type := "image-puzzle"; t_difficulty := "easy";
     t_reward_type := "discount"; t_reward_value := 20%Q;
     t_reward_description := "20% off your next order";
     t_image_url := Some "https://cdn.taskloot.com/puzzles/p-original.jpg";
     t_puzzle_config := VString "{...}";
     t_status := status; t_is_featured := false; t_featured_until := None;
     t_attempt_count := 0; t_conversion_count := 0; t_expires_at := expires |}.

Definition store (ts : list task_row) (as_ : list attempt_row) (rs : list reward_row)
    : database :=
  {| users := [company; player; other_player]; company_profiles := [];
     tasks := ts; task_attempts := as_; user_rewards := rs;
     transactions := []; analytics_events := [] |}.

Definition boot (d : database) (faults : list bool) : world :=
  {| db := d; db_faults := faults; memoryCache := ∅;
     memoryOrder := []; memoryCacheMaxSize := 1000; redis := ∅;
     redis_up := true; s3_up := true; calls := []; log := [];
     uuids_drawn := 0; randoms_drawn := 0 |}.

Definition active_world : world := boot (store [pizza "active" None] [] []) [].

Definition attempt_ok : TaskService.AttemptData :=
  {| TaskService.is_successful := true;
     TaskService.time_taken_seconds := 45;
     TaskService.difficulty_multiplier := None |}.

Definition pizza_data : TaskService.TaskData :=
  {| TaskService.title := Some "Pizza Puzzle";
     TaskService.description := None;
     TaskService.task_type := "image-puzzle";
     TaskService.difficulty := "easy";
     TaskService.reward_type := "discount";
     TaskService.reward_value := Some 20%Q;
     TaskService.reward_description := Some "20% off your next order";
     TaskService.image_file := Some "iVBORw0KGgo=" |}.

Definition reward_of (user : uuid) (code : string) (redeemed : bool)
    (expires : timestamp) : reward_row :=
  {| r_id := "reward-1"; r_user_id := user; r_task_id := "task-1";
     r_reward_code := code; r_reward_type := "discount"; r_reward_value := 20%Q;
     r_is_redeemed := redeemed;
     r_redeemed_at := if redeemed then Some 5 else None;
     r_expires_at := expires |}.

End Sample.

(* ===================================================================== *)
(** ** The formulas of the specification, for comparison                  *)
(* ===================================================================== *)

Module Formula.

(** time_bonus = floor(50 * max(0, (max_time - elapsed_seconds) / max_time))
    with max_time = 300, over the rationals; [elapsed_ms] is the elapsed
    time in milliseconds. *)
Definition time_bonus (elapsed_ms : Z) : Z :=
  Qfloor (50 * Qmax 0 ((300 - inject_Z elapsed_ms / 1000) / 300))%Q.

Definition score (elapsed_ms : Z) : Z := 100 + time_bonus elapsed_ms.

(** attempt_count / conversion_count equal the aggregates over the attempts. *)
Definition counters_consistent (d : database) : Prop :=
  Forall (fun t =>
            t_attempt_count t = Z.of_nat (length (TaskService.attempts_of (t_id t) d))
            ∧ t_conversion_count t
              = Z.of_nat (length (TaskService.successful_attempts_of (t_id t) d)))
         (tasks d).

End Formula.

(* ===================================================================== *)
(** ** Properties of the JavaScript built-ins                             *)
(* ===================================================================== *)

Module JsFacts.

(** Characters that separate the items of a printed array. *)
Definition separator (c : Ascii.ascii) : Prop := c = ","%char ∨ c = "]"%char.

Fixpoint separator_free (s : string) : Prop :=
  match s with
  | EmptyString => True
  | String c s' => ¬ separator c ∧ separator_free s'
  end.

Lemma app_cons c (x s : string) : String c x +:+ s = String c (x +:+ s).
Proof. reflexivity. Qed.

Lemma app_empty (s : string) : "" +:+ s = s.
Proof. reflexivity. Qed.

Lemma app_assoc (x y z : string) : (x +:+ y) +:+ z = x +:+ (y +:+ z).
Proof. induction x as [|c x IH]; [done|]. rewrite !app_cons. by f_equal. Qed.

Lemma separator_free_app s t :
  separator_free s -> separator_free t -> separator_free (s +:+ t).
Proof.
  induction s as [|c s IH]; [done|]. rewrite app_cons. simpl.
  intros [? ?] ?. split; auto.
Qed.

Lemma pretty_N_char_not_separator d : ¬ separator (pretty_N_char d).
Proof.
  unfold separator, pretty_N_char.
  intros [Hc|Hc]; repeat case_match; discriminate Hc.
Qed.

Lemma pretty_N_go_separator_free x s :
  separator_free s -> separator_free (pretty_N_go x s).
Proof.
  revert s. induction (N.lt_wf_0 x) as [x _ IH]; intros s Hs.
  destruct (decide (x = 0%N)) as [->|Hx].
  - by rewrite pretty_N_go_0.
  - rewrite pretty_N_go_step by lia.
    apply IH; [apply N.div_lt; lia|].
    simpl. split; [apply pretty_N_char_not_separator|done].
Qed.

Lemma pretty_N_separator_free (x : N) : separator_free (pretty x).
Proof.
  unfold pretty, pretty_N. case_decide.
  - simpl. split; [|done]. unfold separator. intros [Hc|Hc]; discriminate Hc.
  - by apply pretty_N_go_separator_free.
Qed.

Lemma pretty_Z_separator_free (x : Z) : separator_free (pretty x).
Proof.
  destruct x as [|p|p]; unfold pretty, pretty_Z.
  - simpl. split; [|done]. unfold separator. intros [Hc|Hc]; discriminate Hc.
  - apply (pretty_N_separator_free (Npos p)).
  - apply (separator_free_app "-").
    + simpl. split; [|done]. unfold separator. intros [Hc|Hc]; discriminate Hc.
    + apply (pretty_N_separator_free (Npos p)).
Qed.

Lemma pretty_N_go_length x s :
  (String.length s <= String.length (pretty_N_go x s))%nat.
Proof.
  revert s. induction (N.lt_wf_0 x) as [x _ IH]; intros s.
  destruct (decide (x = 0%N)) as [->|Hx].
  - by rewrite pretty_N_go_0.
  - rewrite pretty_N_go_step by lia.
    etrans; [|apply IH; apply N.div_lt; lia]. simpl. lia.
Qed.

Lemma pretty_N_nonempty (x : N) : pretty x <> EmptyString.
Proof.
  unfold pretty, pretty_N. case_decide; [done|].
  rewrite pretty_N_go_step by lia. intros Heq.
  pose proof (pretty_N_go_length (x `div` 10)%N
                (String (pretty_N_char (x `mod` 10)%N) "")) as Hl.
  rewrite Heq in Hl. simpl in Hl. lia.
Qed.

Lemma pretty_Z_nonempty (x : Z) : pretty x <> EmptyString.
Proof.
  destruct x as [|p|p]; unfold pretty, pretty_Z; [done| |done].
  apply (pretty_N_nonempty (Npos p)).
Qed.

(** Two separator-free words, each followed by text that starts with a
    separator, agree as soon as the whole texts agree. *)
Definition starts_with_separator (s : string) : Prop :=
  match s with
  | EmptyString => False
  | String c _ => separator c
  end.

Lemma word_split x y s t :
  separator_free x -> separator_free y ->
  starts_with_separator s -> starts_with_separator t ->
  x +:+ s = y +:+ t -> x = y ∧ s = t.
Proof.
  revert y. induction x as [|c x IH]; intros [|d y] Hx Hy Hs Ht Heq.
  - done.
  - rewrite app_empty, app_cons in Heq. destruct s as [|c s]; [done|].
    injection Heq as -> _. simpl in Hy, Hs. by destruct Hy as [Hy _].
  - rewrite app_empty, app_cons in Heq. destruct t as [|d t]; [done|].
    injection Heq as <- _. simpl in Hx, Ht. by destruct Hx as [Hx _].
  - rewrite !app_cons in Heq. injection Heq as -> Heq.
    destruct Hx as [_ Hx], Hy as [_ Hy].
    destruct (IH y Hx Hy Hs Ht Heq) as [-> ->]. done.
Qed.

(** The text that follows the first item of a printed array. *)
Fixpoint rest_of_array (items : list string) : string :=
  match items with
  | [] => "]"
  | x :: items' => "," +:+ x +:+ rest_of_array items'
  end.

Lemma rest_starts_with_separator items : starts_with_separator (rest_of_array items).
Proof. destruct items; simpl; unfold separator; auto. Qed.

Lemma concat_rest x items :
  String.concat "," (x :: items) +:+ "]" = x +:+ rest_of_array items.
Proof.
  revert x. induction items as [|y items IH]; intros x.
  - done.
  - change (String.concat "," (x :: y :: items))
      with (x +:+ "," +:+ String.concat "," (y :: items)).
    change (rest_of_array (y :: items)) with ("," +:+ y +:+ rest_of_array items).
    rewrite !app_assoc. do 2 f_equal. apply IH.
Qed.

Lemma rest_of_array_inj xs ys :
  Forall separator_free xs -> Forall separator_free ys ->
  rest_of_array xs = rest_of_array ys -> xs = ys.
Proof.
  revert ys. induction xs as [|x xs IH]; intros [|y ys] Hxs Hys Heq;
    try done.
  simpl in Heq. rewrite !app_cons, !app_empty in Heq. injection Heq as Heq.
  apply Forall_cons in Hxs as [Hx Hxs]. apply Forall_cons in Hys as [Hy Hys].
  apply word_split in Heq as [-> Heq];
    auto using rest_starts_with_separator.
  f_equal. by apply IH.
Qed.

Lemma concat_bracket_inj xs ys :
  Forall separator_free xs -> Forall separator_free ys ->
  Forall (fun x => x <> EmptyString) xs -> Forall (fun y => y <> EmptyString) ys ->
  String.concat "," xs +:+ "]" = String.concat "," ys +:+ "]" -> xs = ys.
Proof.
  intros Hxs Hys Hxn Hyn Heq.
  destruct xs as [|x xs], ys as [|y ys].
  - done.
  - rewrite concat_rest in Heq. simpl in Heq. rewrite app_empty in Heq.
    apply Forall_cons in Hyn as [Hy _]. apply Forall_cons in Hys as [Hsy _].
    destruct y as [|c y]; [done|]. rewrite app_cons in Heq. injection Heq as <- _.
    destruct Hsy as [Hsy _]. exfalso. apply Hsy. by right.
  - rewrite concat_rest in Heq. simpl in Heq. rewrite app_empty in Heq.
    apply Forall_cons in Hxn as [Hx _]. apply Forall_cons in Hxs as [Hsx _].
    destruct x as [|c x]; [done|]. rewrite app_cons in Heq. injection Heq as -> _.
    destruct Hsx as [Hsx _]. exfalso. apply Hsx. by right.
  - rewrite !concat_rest in Heq.
    apply Forall_cons in Hxs as [Hx Hxs]. apply Forall_cons in Hys as [Hy Hys].
    apply word_split in Heq as [-> Heq];
      auto using rest_starts_with_separator.
    f_equal. by apply rest_of_array_inj.
Qed.

Lemma stringify_index_array l :
  JSON_stringify (index_array l)
  = Some ("[" +:+ String.concat "," (pretty <$> l) +:+ "]").
Proof.
  unfold index_array. simpl. do 3 f_equal.
  rewrite <- list_fmap_compose. done.
Qed.

(** [JSON.stringify] tells arrays of integers apart. *)
Lemma stringify_index_array_inj l1 l2 :
  JSON_stringify (index_array l1) = JSON_stringify (index_array l2) -> l1 = l2.
Proof.
  rewrite !stringify_index_array. intros Heq.
  injection Heq as Heq.
  apply concat_bracket_inj in Heq.
  - revert Heq. apply (inj (fmap pretty)).
  - apply Forall_fmap, Forall_forall. intros x _. apply pretty_Z_separator_free.
  - apply Forall_fmap, Forall_forall. intros x _. apply pretty_Z_separator_free.
  - apply Forall_fmap, Forall_forall. intros x _. apply pretty_Z_nonempty.
  - apply Forall_fmap, Forall_forall. intros x _. apply pretty_Z_nonempty.
Qed.

(** *** Property reads *)

Lemma assoc_None {A} key (fields : list (string * A)) :
  key ∉ fields.*1 -> Js.assoc key fields = None.
Proof.
  induction fields as [|[k v] fields IH]; [done|].
  intros Hk. cbn [Js.assoc].
  destruct (String.eqb_spec k key) as [->|Hne].
  - exfalso. apply Hk. simpl. set_solver.
  - apply IH. intros Hin. apply Hk. simpl. apply elem_of_cons. by right.
Qed.

Lemma assoc_Some_elem {A} key (fields : list (string * A)) v :
  Js.assoc key fields = Some v -> key ∈ fields.*1.
Proof.
  induction fields as [|[k x] fields IH]; [done|].
  cbn [Js.assoc]. destruct (String.eqb_spec k key) as [->|Hne].
  - intros _. simpl. set_solver.
  - intros H. simpl. apply elem_of_cons. right. by apply IH.
Qed.

End JsFacts.

(* ===================================================================== *)
(** ** SolutionValidator: [validateSolution]                              *)
(* ===================================================================== *)

Module ValidatorFacts.
Import PuzzleGenerator.

Lemma array_length_index_array l : array_length (index_array l) = length l.
Proof. unfold index_array. simpl. by rewrite length_fmap. Qed.

(** On two arrays of integers of the same length the validator never
    throws: it reports success exactly when the arrays are equal. *)
Lemma validateSolution_index_arrays (lu lc : list Z) (timeTaken : float) :
  length lu = length lc ->
  validateSolution (index_array lu) (index_array lc) timeTaken
  = if bool_decide (lu = lc)
    then Ok {| is_correct := true;
               score := (100 + Math_floor (Math_max 0 ((300 - timeTaken / 1000) / 300) * 50))%float;
               base_score := Some 100%float;
               time_bonus := Math_floor (Math_max 0 ((300 - timeTaken / 1000) / 300) * 50)%float;
               time_taken_seconds := Some (timeTaken / 1000)%float;
               error_message := None |}
    else Ok {| is_correct := false; score := 0; base_score := None; time_bonus := 0;
               time_taken_seconds := None;
               error_message := Some "Puzzle arrangement is incorrect" |}.
Proof.
  intros Hlen. unfold validateSolution.
  rewrite !array_length_index_array, Hlen, Nat.eqb_refl. simpl.
  case_bool_decide as Heq.
  - apply JsFacts.stringify_index_array_inj in Heq. by rewrite bool_decide_eq_true_2.
  - rewrite bool_decide_eq_false_2; [done|]. intros ->. by apply Heq.
Qed.

(** C7 (as the code has it).  [validateSolution] throws exactly when its
    two arguments are not both arrays of the same length, and what it
    throws is then a ValidationError; membership of the items in a common
    index set is not examined: two arrays of integers of the same length
    that differ, whatever their items, give the result
    [is_correct = false], [score = 0]. *)
Theorem validateSolution_throws_iff (userSolution correctSolution : value)
    (timeTaken : float) :
  ((exists e, validateSolution userSolution correctSolution timeTaken = Throw e)
   <-> ¬ (Array_isArray userSolution = true ∧ Array_isArray correctSolution = true
          ∧ array_length userSolution = array_length correctSolution))
  ∧ (forall e, validateSolution userSolution correctSolution timeTaken = Throw e ->
               exists message, e = ValidationError message)
  ∧ (forall lu lc : list Z,
       userSolution = index_array lu -> correctSolution = index_array lc ->
       length lu = length lc -> lu <> lc ->
       validateSolution userSolution correctSolution timeTaken
       = Ok {| is_correct := false; score := 0; base_score := None; time_bonus := 0;
               time_taken_seconds := None;
               error_message := Some "Puzzle arrangement is incorrect" |}).
Proof.
  split; [|split].
  - unfold validateSolution.
    destruct (Array_isArray userSolution), (Array_isArray correctSolution); simpl;
      try (split; [intros _ (? & ? & ?); done | intros _; eauto]).
    destruct (Nat.eqb_spec (array_length userSolution) (array_length correctSolution))
      as [Hl|Hl]; simpl.
    + split; [|intros H; destruct H; done].
      intros [e He]. by case_match.
    + split; [intros _ (_ & _ & ?); done | intros _; eauto].
  - intros e. unfold validateSolution.
    repeat case_match; intros [= <-]; eauto.
  - intros lu lc -> -> Hlen Hne.
    rewrite validateSolution_index_arrays by done.
    by rewrite bool_decide_eq_false_2.
Qed.

(** C7, the claim as stated fails: two arrays of the same length drawn
    from different index sets are scored, not rejected. *)
Lemma validateSolution_ignores_index_sets :
  ¬ (forall (lu lc : list Z) (timeTaken : float),
       length lu = length lc ->
       (exists i, i ∈ lu ∧ i ∉ lc) ->
       exists message,
         validateSolution (index_array lu) (index_array lc) timeTaken
         = Throw (ValidationError message)).
Proof.
  intros H.
  destruct (H [0; 1; 7] [0; 1; 2] 1000%float) as [message Hm].
  - done.
  - exists 7. split; [set_solver|]. intros Hin.
    repeat (apply elem_of_cons in Hin as [Hin|Hin]; [discriminate Hin|]).
    by apply elem_of_nil in Hin.
  - vm_compute in Hm. discriminate Hm.
Qed.

(** C3, the point where the code leaves the formula: after 126 seconds the
    quotient (300 - 126) / 300 is the binary64 number just below 0.58, its
    product with 50 is rounded to 28.999999999999996, and [Math.floor]
    gives a bonus of 28, while floor(50 * 174 / 300) = 29. *)
Theorem validateSolution_bonus_at_126s :
  validateSolution (index_array [0; 1; 2]) (index_array [0; 1; 2]) 126000
  = Ok {| is_correct := true; score := 128; base_score := Some 100%float;
          time_bonus := 28; time_taken_seconds := Some 126%float;
          error_message := None |}
  ∧ Formula.time_bonus 126000 = 29
  ∧ Formula.score 126000 = 129.
Proof. repeat split; vm_compute; reflexivity. Qed.

(** The scenario of the specification: a correct ordering after 45 seconds
    scores 142, as the formula says. *)
Example validateSolution_after_45s :
  score <$> (match validateSolution (index_array [2; 0; 1]) (index_array [2; 0; 1]) 45000 with
             | Ok r => Some r | Throw _ => None end) = Some 142%float
  ∧ Formula.score 45000 = 142.
Proof. split; vm_compute; reflexivity. Qed.

End ValidatorFacts.

(* ===================================================================== *)
(** ** Reasoning about the request monad                                  *)
(* ===================================================================== *)

Module MonadFacts.

Lemma bind_ok_inv {A B} (m : M A) (k : A -> M B) w b w' :
  bind m k w = (Ok b, w') ->
  exists a w1, m w = (Ok a, w1) ∧ k a w1 = (Ok b, w').
Proof.
  unfold bind. destruct (m w) as [[a|e] w1]; [eauto|discriminate].
Qed.

Lemma bind_run_ok {A B} (m : M A) (k : A -> M B) w a w1 :
  m w = (Ok a, w1) -> bind m k w = k a w1.
Proof. unfold bind. by intros ->. Qed.

Lemma bind_run_throw {A B} (m : M A) (k : A -> M B) w e w1 :
  m w = (Throw e, w1) -> bind m k w = (Throw e, w1).
Proof. unfold bind. by intros ->. Qed.

(** The memory tier of the cache is all that [evict], [setMemory] and
    [deleteMemory] change. *)
Lemma db_evict w : db (Cache.evict w) = db w.
Proof. unfold Cache.evict. by repeat case_match. Qed.

Lemma db_setMemory key t w : db (Cache.setMemory key t w) = db w.
Proof. unfold Cache.setMemory. cbn. apply db_evict. Qed.

Lemma db_deleteMemory key w : db (Cache.deleteMemory key w) = db w.
Proof. reflexivity. Qed.

Lemma db_faults_evict w : db_faults (Cache.evict w) = db_faults w.
Proof. unfold Cache.evict. by repeat case_match. Qed.

Lemma db_faults_setMemory key t w : db_faults (Cache.setMemory key t w) = db_faults w.
Proof. unfold Cache.setMemory. cbn. apply db_faults_evict. Qed.

Lemma db_faults_deleteMemory key w : db_faults (Cache.deleteMemory key w) = db_faults w.
Proof. reflexivity. Qed.

Lemma redis_evict w : redis (Cache.evict w) = redis w.
Proof. unfold Cache.evict. by repeat case_match. Qed.

Lemma redis_setMemory key t w : redis (Cache.setMemory key t w) = redis w.
Proof. unfold Cache.setMemory. cbn. apply redis_evict. Qed.

Lemma redis_deleteMemory key w : redis (Cache.deleteMemory key w) = redis w.
Proof. reflexivity. Qed.

Lemma redis_up_evict w : redis_up (Cache.evict w) = redis_up w.
Proof. unfold Cache.evict. by repeat case_match. Qed.

Lemma redis_up_setMemory key t w : redis_up (Cache.setMemory key t w) = redis_up w.
Proof. unfold Cache.setMemory. cbn. apply redis_up_evict. Qed.

Lemma redis_up_deleteMemory key w : redis_up (Cache.deleteMemory key w) = redis_up w.
Proof. reflexivity. Qed.

Lemma s3_up_evict w : s3_up (Cache.evict w) = s3_up w.
Proof. unfold Cache.evict. by repeat case_match. Qed.

Lemma s3_up_setMemory key t w : s3_up (Cache.setMemory key t w) = s3_up w.
Proof. unfold Cache.setMemory. cbn. apply s3_up_evict. Qed.

Lemma s3_up_deleteMemory key w : s3_up (Cache.deleteMemory key w) = s3_up w.
Proof. reflexivity. Qed.

Lemma calls_evict w : calls (Cache.evict w) = calls w.
Proof. unfold Cache.evict. by repeat case_match. Qed.

Lemma calls_setMemory key t w : calls (Cache.setMemory key t w) = calls w.
Proof. unfold Cache.setMemory. cbn. apply calls_evict. Qed.

Lemma calls_deleteMemory key w : calls (Cache.deleteMemory key w) = calls w.
Proof. reflexivity. Qed.

Lemma log_evict w : log (Cache.evict w) = log w.
Proof. unfold Cache.evict. by repeat case_match. Qed.

Lemma log_setMemory key t w : log (Cache.setMemory key t w) = log w.
Proof. unfold Cache.setMemory. cbn. apply log_evict. Qed.

Lemma log_deleteMemory key w : log (Cache.deleteMemory key w) = log w.
Proof. reflexivity. Qed.

Lemma uuids_drawn_evict w : uuids_drawn (Cache.evict w) = uuids_drawn w.
Proof. unfold Cache.evict. by repeat case_match. Qed.

Lemma uuids_drawn_setMemory key t w : uuids_drawn (Cache.setMemory key t w) = uuids_drawn w.
Proof. unfold Cache.setMemory. cbn. apply uuids_drawn_evict. Qed.

Lemma uuids_drawn_deleteMemory key w : uuids_drawn (Cache.deleteMemory key w) = uuids_drawn w.
Proof. reflexivity. Qed.

Lemma randoms_drawn_evict w : randoms_drawn (Cache.evict w) = randoms_drawn w.
Proof. unfold Cache.evict. by repeat case_match. Qed.

Lemma randoms_drawn_setMemory key t w : randoms_drawn (Cache.setMemory key t w) = randoms_drawn w.
Proof. unfold Cache.setMemory. cbn. apply randoms_drawn_evict. Qed.

Lemma randoms_drawn_deleteMemory key w : randoms_drawn (Cache.deleteMemory key w) = randoms_drawn w.
Proof. reflexivity. Qed.

Lemma memoryCacheMaxSize_evict w : memoryCacheMaxSize (Cache.evict w) = memoryCacheMaxSize w.
Proof. unfold Cache.evict. by repeat case_match. Qed.

Lemma memoryCacheMaxSize_setMemory key t w : memoryCacheMaxSize (Cache.setMemory key t w) = memoryCacheMaxSize w.
Proof. unfold Cache.setMemory. cbn. apply memoryCacheMaxSize_evict. Qed.

Lemma memoryCacheMaxSize_deleteMemory key w : memoryCacheMaxSize (Cache.deleteMemory key w) = memoryCacheMaxSize w.
Proof. reflexivity. Qed.

Lemma lookup_setMemory key t w : memoryCache (Cache.setMemory key t w) !! key = Some t.
Proof. unfold Cache.setMemory. cbn. apply lookup_insert_eq. Qed.

Create Rewrite HintDb memory_tier.
#[export] Hint Rewrite db_evict db_setMemory db_deleteMemory db_faults_evict db_faults_setMemory db_faults_deleteMemory redis_evict redis_setMemory redis_deleteMemory redis_up_evict redis_up_setMemory redis_up_deleteMemory s3_up_evict s3_up_setMemory s3_up_deleteMemory calls_evict calls_setMemory calls_deleteMemory log_evict log_setMemory log_deleteMemory uuids_drawn_evict uuids_drawn_setMemory uuids_drawn_deleteMemory randoms_drawn_evict randoms_drawn_setMemory randoms_drawn_deleteMemory memoryCacheMaxSize_evict memoryCacheMaxSize_setMemory memoryCacheMaxSize_deleteMemory : memory_tier.

(** [safe P Q m]: running [m] keeps the invariant [P] of the world, and
    whatever [m] throws satisfies [Q]. *)
Definition safe (P : world -> Prop) (Q : error -> Prop) {A} (m : M A) : Prop :=
  forall w, P w -> P (m w).2 ∧ (forall e, (m w).1 = Throw e -> Q e).

Lemma safe_ret P Q {A} (a : A) : safe P Q (ret a).
Proof. intros w Hw. split; [done|]. intros e He. discriminate He. Qed.

Lemma safe_throw (P : world -> Prop) (Q : error -> Prop) {A} e :
  Q e -> safe P Q (@throw A e).
Proof. intros He w Hw. split; [done|]. intros e' [= <-]. done. Qed.

Lemma safe_bind P Q {A B} (m : M A) (k : A -> M B) :
  safe P Q m -> (forall a, safe P Q (k a)) -> safe P Q (bind m k).
Proof.
  intros Hm Hk w Hw. unfold bind.
  destruct (Hm w Hw) as [HP HQ]. destruct (m w) as [[a|e] w1]; simpl in *.
  - by apply Hk.
  - split; [done|]. intros e' [= <-]. by apply HQ.
Qed.

Lemma safe_try_catch P Q Q' {A} (m : M A) (h : error -> M A) :
  safe P Q' m -> (forall e, Q' e -> safe P Q (h e)) -> safe P Q (try_catch m h).
Proof.
  intros Hm Hh w Hw. unfold try_catch.
  destruct (Hm w Hw) as [HP HQ]. destruct (m w) as [[a|e] w1]; simpl in *.
  - split; [done|]. intros e He. discriminate He.
  - apply Hh; [by apply HQ|done].
Qed.

Lemma safe_lift_outcome (P : world -> Prop) (Q : error -> Prop) {A} (o : outcome A) :
  (forall e, o = Throw e -> Q e) -> safe P Q (lift_outcome o).
Proof. intros Ho w Hw. split; [done|]. simpl. apply Ho. Qed.

Lemma safe_if P Q {A} (b : bool) (m1 m2 : M A) :
  (b = true -> safe P Q m1) -> (b = false -> safe P Q m2) ->
  safe P Q (if b then m1 else m2).
Proof. destruct b; auto. Qed.

Lemma safe_for_each P Q {A B} (l : list A) (body : A -> M B) :
  (forall x, safe P Q (body x)) -> safe P Q (PuzzleGenerator.for_each l body).
Proof.
  intros Hbody. induction l as [|x l IH]; simpl.
  - apply safe_ret.
  - apply safe_bind; [done|]. intros y.
    apply safe_bind; [done|]. intros ys. apply safe_ret.
Qed.

(** Invariants that only read the log. *)
Definition on_log (I : list log_entry -> Prop) : world -> Prop := fun w => I (log w).

Definition log_invariant (ok : log_entry -> Prop) : world -> Prop :=
  on_log (Forall ok).

Lemma safe_logger ok Q lvl msg e :
  ok {| level := lvl; message := msg; thrown := e |} ->
  safe (log_invariant ok) Q (logger lvl msg e).
Proof.
  intros Hok w Hw. split; [|intros e' He'; discriminate He'].
  unfold log_invariant, on_log in *. simpl. apply Forall_app. split; [done|].
  by apply Forall_singleton.
Qed.

Lemma safe_same_log ok Q {A} (m : M A) :
  (forall w, log (m w).2 = log w) -> (forall w e, (m w).1 = Throw e -> Q e) ->
  safe (log_invariant ok) Q m.
Proof.
  intros Hlog HQ w Hw. split; [|apply HQ].
  unfold log_invariant, on_log in *. by rewrite Hlog.
Qed.

Lemma safe_call ok Q c : safe (log_invariant ok) Q (call c).
Proof. apply safe_same_log; [done|]. intros w e He. discriminate He. Qed.

(** A statement of the store is rejected with a [DatabaseError] only. *)
Definition database_errors_only {A} (s : statement A) : Prop :=
  forall d e d', s d = (Throw e, d') -> exists code, e = DatabaseError code.

Lemma select_database_errors_only {A} (f : database -> A) :
  database_errors_only (select f).
Proof. intros d e d' H. discriminate H. Qed.

Lemma update_database_errors_only f : database_errors_only (update f).
Proof. intros d e d' H. discriminate H. Qed.

Lemma insert_task_database_errors_only t : database_errors_only (insert_task t).
Proof.
  intros d e d'. unfold insert_task. repeat case_match; intros [= <- <-]; eauto.
Qed.

Lemma insert_task_attempt_database_errors_only a :
  database_errors_only (insert_task_attempt a).
Proof.
  intros d e d'. unfold insert_task_attempt, timestamp_param.
  repeat case_match; intros [= <- <-]; simplify_eq; eauto.
Qed.

Lemma insert_user_reward_database_errors_only r :
  database_errors_only (insert_user_reward r).
Proof.
  intros d e d'. unfold insert_user_reward. repeat case_match; intros [= <- <-]; eauto.
Qed.

Lemma safe_query ok (Q : error -> Prop) {A} (s : statement A) :
  database_errors_only s ->
  (forall lvl msg e, (e = None ∨ exists code, e = Some (DatabaseError code)) ->
                     ok {| level := lvl; message := msg; thrown := e |}) ->
  (forall code, Q (DatabaseError code)) ->
  safe (log_invariant ok) Q (query s).
Proof.
  intros Hs Hok HQ w Hw. unfold query.
  assert (Hlog : forall w1 e, log w1 = log w ->
            (e = None ∨ exists code, e = Some (DatabaseError code)) ->
            forall lvl msg,
            Forall ok (log (set_log (log w1 ++ [ {| level := lvl; message := msg; thrown := e |} ]) w1))).
  { intros w1 e Hl He lvl msg. simpl. rewrite Hl. apply Forall_app. split; [done|].
    apply Forall_singleton. by apply Hok. }
  unfold log_invariant, on_log in *.
  destruct (db_faults w) as [|[|] rest] eqn:Hf.
  - destruct (s _) as [[a|e] d'] eqn:Hsd; simpl.
    + split; [|intros e He; discriminate He].
      apply (Hlog (set_db d' (set_db_faults [] w)) None); [done|by left].
    + destruct (Hs _ _ _ Hsd) as [code ->].
      split; [|intros e [= <-]; apply HQ].
      apply (Hlog (set_db d' (set_db_faults [] w))); [done|right; eauto].
  - simpl. split; [|intros e [= <-]; apply HQ].
    apply (Hlog (set_db_faults rest w)); [done|right; eauto].
  - destruct (s _) as [[a|e] d'] eqn:Hsd; simpl.
    + split; [|intros e He; discriminate He].
      apply (Hlog (set_db d' (set_db_faults rest w)) None); [done|by left].
    + destruct (Hs _ _ _ Hsd) as [code ->].
      split; [|intros e [= <-]; apply HQ].
      apply (Hlog (set_db d' (set_db_faults rest w))); [done|right; eauto].
Qed.

Lemma safe_cache_get ok Q key :
  ok {| level := "error"; message := "Cache get error:"; thrown := Some (Error "redis") |} ->
  safe (log_invariant ok) Q (Cache.get key).
Proof.
  intros Hok w Hw. unfold Cache.get, log_invariant, on_log in *.
  repeat case_match; cbn [fst snd]; autorewrite with memory_tier;
    (split; [|intros e He; discriminate He]); try done.
  simpl. apply Forall_app. split; [done|]. by apply Forall_singleton.
Qed.

Lemma safe_cache_set ok Q key t :
  ok {| level := "error"; message := "Cache set error:"; thrown := Some (Error "redis") |} ->
  safe (log_invariant ok) Q (Cache.set key t).
Proof.
  intros Hok w Hw. unfold Cache.set, log_invariant, on_log in *.
  repeat case_match; cbn [fst snd]; autorewrite with memory_tier;
    (split; [|intros e He; discriminate He]); try done.
  simpl. apply Forall_app. split; [done|]. by apply Forall_singleton.
Qed.

Lemma safe_cache_del ok Q key :
  ok {| level := "error"; message := "Cache delete error:"; thrown := Some (Error "redis") |} ->
  safe (log_invariant ok) Q (Cache.del key).
Proof.
  intros Hok w Hw. unfold Cache.del, log_invariant, on_log in *.
  repeat case_match; cbn [fst snd]; autorewrite with memory_tier;
    (split; [|intros e He; discriminate He]); try done.
  simpl. apply Forall_app. split; [done|]. by apply Forall_singleton.
Qed.

End MonadFacts.

(* ===================================================================== *)
(** ** Grid sizes: [getGridSizeFromDifficulty] and [createTask]           *)
(* ===================================================================== *)

Module GridFacts.
Import MonadFacts PuzzleGenerator TaskService.

Definition grid_size_error : error := ValidationError "Grid size must be 9, 16, or 25".

(** A log entry that does not report the grid size error. *)
Definition no_grid_size_error (entry : log_entry) : Prop :=
  thrown entry <> Some grid_size_error.

Lemma validateTaskData_difficulty E taskData :
  validateTaskData E taskData = Ok tt ->
  difficulty taskData ∈ ["easy"; "medium"; "hard"; "expert"].
Proof.
  unfold validateTaskData. intros H.
  destruct (bool_decide (difficulty taskData ∈ ["easy"; "medium"; "hard"; "expert"])) eqn:Hd.
  - by apply bool_decide_eq_true_1 in Hd.
  - simpl in H. repeat case_match; discriminate H.
Qed.

Lemma valid_difficulty_grid_size d :
  d ∈ ["easy"; "medium"; "hard"; "expert"] ->
  valid_grid_size (getGridSizeFromDifficulty d) = true.
Proof.
  intros Hd. repeat (apply elem_of_cons in Hd as [->|Hd]; [by vm_compute|]).
  by apply elem_of_nil in Hd.
Qed.

Local Ltac differ :=
  cbv beta; unfold no_grid_size_error; simpl;
  first [ congruence
        | unfold grid_size_error in *;
          first [ congruence | let H := fresh in intros H; discriminate H ] ].

Local Ltac safe_step :=
  first
    [ apply safe_ret
    | apply safe_call
    | apply safe_logger; differ
    | apply safe_throw; differ
    | apply safe_bind; [|intros ?] ].

Lemma sharp_result_throws o e :
  sharp_result o = Throw e -> e <> grid_size_error.
Proof. destruct o; intros [= <-]. differ. Qed.

Lemma uploadToS3_safe key body contentType :
  safe (log_invariant no_grid_size_error) (fun e => e <> grid_size_error)
       (uploadToS3 key body contentType).
Proof.
  unfold uploadToS3. apply safe_bind; [apply safe_call|]. intros _ w Hw.
  destruct (s3_up w).
  - apply safe_logger; [differ|done].
  - refine (safe_bind _ _ (logger _ _ _) (fun _ => throw _) _ _ w Hw).
    + apply safe_logger. differ.
    + intros _. apply safe_throw. differ.
Qed.

Lemma generateImagePuzzle_safe E now imageBuffer gridSize :
  valid_grid_size gridSize = true ->
  safe (log_invariant no_grid_size_error) (fun e => e <> grid_size_error)
       (generateImagePuzzle E now imageBuffer gridSize).
Proof.
  intros Hvalid. unfold generateImagePuzzle.
  assert (Heff : valid_grid_size
                   match gridSize with VUndefined => VNumber 9 | _ => gridSize end = true)
    by by destruct gridSize.
  rewrite Heff. simpl negb. cbv iota.
  apply safe_try_catch with (Q' := fun e => e <> grid_size_error).
  2: { intros e He. apply safe_bind.
       - apply safe_logger. differ.
       - intros _. by apply safe_throw. }
  apply safe_bind; [apply safe_ret|]. intros _.
  apply safe_bind.
  { apply safe_if; intros _; [|apply safe_ret].
    apply safe_throw. differ. }
  intros _.
  apply safe_bind; [apply safe_logger; differ|]. intros _.
  apply safe_bind; [apply safe_call|]. intros _.
  apply safe_bind.
  { apply safe_lift_outcome. intros e. apply sharp_result_throws. }
  intros resized.
  apply safe_bind.
  { apply safe_same_log; [done|]. intros w e He. discriminate He. }
  intros id.
  apply safe_bind; [apply uploadToS3_safe|]. intros _.
  apply safe_bind.
  { unfold extract_pieces. apply safe_bind; [|intros ?; apply safe_ret].
    apply safe_for_each. intros row. apply safe_for_each. intros col.
    unfold extract_piece.
    apply safe_bind; [apply safe_call|]. intros _.
    apply safe_bind; [|intros ?; apply safe_ret].
    apply safe_lift_outcome. intros e. apply sharp_result_throws. }
  intros extracted.
  apply safe_bind.
  { apply safe_for_each. intros i.
    apply safe_bind; [|intros ?; apply safe_ret].
    apply safe_same_log; [done|]. intros w e He. discriminate He. }
  intros pieceKeys.
  apply safe_bind.
  { apply safe_same_log; [done|]. intros w e He. discriminate He. }
  intros shuffled.
  apply safe_bind.
  { unfold calculateDifficulty. repeat case_match; repeat safe_step. }
  intros difficulty.
  apply safe_bind; [apply safe_logger; differ|]. intros _. apply safe_ret.
Qed.

Lemma createTask_safe E now new_id companyId taskData :
  safe (log_invariant no_grid_size_error) (fun _ => True)
       (createTask E now new_id companyId taskData).
Proof.
  unfold createTask.
  destruct (validateTaskData E taskData) as [[]|e] eqn:Hvalid.
  2: { intros w Hw. simpl. done. }
  pose proof (valid_difficulty_grid_size _ (validateTaskData_difficulty _ _ Hvalid))
    as Hgrid.
  apply safe_bind; [by apply safe_lift_outcome|]. intros _.
  apply safe_bind.
  { apply safe_query; [apply select_database_errors_only| |done].
    intros lvl msg e [->|[code ->]]; differ. }
  intros existing.
  apply safe_bind.
  { apply safe_if; intros _; [by apply safe_throw|apply safe_ret]. }
  intros _.
  apply safe_bind.
  { destruct (image_file taskData) as [image|]; [|apply safe_ret].
    apply safe_if; intros _; [apply safe_ret|].
    apply safe_try_catch with (Q' := fun e => e <> grid_size_error).
    - apply safe_bind; [by apply generateImagePuzzle_safe|].
      intros config. apply safe_ret.
    - intros e He. apply safe_bind.
      + apply safe_logger. differ.
      + intros _. by apply safe_throw. }
  intros generated.
  apply safe_bind.
  { apply safe_query; [apply insert_task_database_errors_only| |done].
    intros lvl msg e [->|[code ->]]; differ. }
  intros inserted.
  apply safe_bind.
  { apply safe_cache_set. differ. }
  intros _.
  apply safe_bind; [apply safe_logger; differ|]. intros _. apply safe_ret.
Qed.

(** X27.  The table of [getGridSizeFromDifficulty] as [createTask] uses
    it: 'easy' gives 9, 'medium' 16, 'hard' and 'expert' 25; every other
    difficulty that is not the name of a member of [Object.prototype]
    gives the default 16; a difficulty accepted by [validateTaskData],
    which [createTask] runs first, gives a grid size in {9, 16, 25}; and
    no run of [createTask] logs the grid size error of
    [generateImagePuzzle]. *)
Theorem getGridSizeFromDifficulty_in_createTask :
  getGridSizeFromDifficulty "easy" = VNumber 9
  ∧ getGridSizeFromDifficulty "medium" = VNumber 16
  ∧ getGridSizeFromDifficulty "hard" = VNumber 25
  ∧ getGridSizeFromDifficulty "expert" = VNumber 25
  ∧ (forall d, d ∉ ["easy"; "medium"; "hard"; "expert"] ->
               d ∉ Object_prototype_keys ->
               getGridSizeFromDifficulty d = VNumber 16)
  ∧ (forall E taskData,
       validateTaskData E taskData = Ok tt ->
       getGridSizeFromDifficulty (difficulty taskData)
       ∈ [VNumber 9; VNumber 16; VNumber 25])
  ∧ (forall E now new_id companyId taskData w,
       Forall no_grid_size_error (log w) ->
       Forall no_grid_size_error (log (createTask E now new_id companyId taskData w).2)).
Proof.
  repeat split; try reflexivity.
  - intros d Hd Hp. unfold getGridSizeFromDifficulty, Js.get.
    assert (Hassoc : Js.assoc d gridSizes = None).
    { by apply JsFacts.assoc_None. }
    rewrite Hassoc. by rewrite bool_decide_eq_false_2.
  - intros E taskData Hvalid.
    apply validateTaskData_difficulty in Hvalid.
    repeat (apply elem_of_cons in Hvalid as [->|Hvalid]; [vm_compute; set_solver|]).
    by apply elem_of_nil in Hvalid.
  - intros E now new_id companyId taskData w Hw.
    by apply (createTask_safe E now new_id companyId taskData w).
Qed.

(** C10, at the difficulty 'constructor'.  The name is not a key of the
    table, yet [gridSizes[difficulty]] finds the member that every object
    literal inherits from [Object.prototype]; it is truthy, so that
    [|| 16] does not apply and the function returns it: not a number, not
    the default 16, and not a grid size that [generateImagePuzzle]
    accepts. *)
Theorem getGridSizeFromDifficulty_at_constructor :
("constructor" ∉ ["easy"; "medium"; "hard"; "expert"])
  ∧ Js.assoc "constructor" gridSizes = None
  ∧ getGridSizeFromDifficulty "constructor" = VBuiltin "constructor"
  ∧ getGridSizeFromDifficulty "constructor" <> VNumber 16
  ∧ (forall n, getGridSizeFromDifficulty "constructor" <> VNumber n)
  ∧ valid_grid_size (getGridSizeFromDifficulty "constructor") = false.
Proof.
  split; [|split; [|split; [|split; [|split]]]].
  - intros Hin. repeat (apply elem_of_cons in Hin as [Hin|Hin]; [discriminate Hin|]).
    by apply elem_of_nil in Hin.
  - reflexivity.
  - reflexivity.
  - intros H. discriminate H.
  - intros n H. discriminate H.
  - reflexivity.
Qed.

End GridFacts.

(* ===================================================================== *)
(** ** PuzzleGenerator: [generateImagePuzzle]                             *)
(* ===================================================================== *)

Module PuzzleFacts.
Import MonadFacts PuzzleGenerator.

Lemma try_catch_ok_inv {A} (m : M A) (h : error -> M A) w a w' :
  (forall e w1, is_ok (h e w1).1 = false) ->
  try_catch m h w = (Ok a, w') -> m w = (Ok a, w').
Proof.
  intros Hh. unfold try_catch. destruct (m w) as [[a1|e] w1]; [done|].
  intros H. specialize (Hh e w1). by rewrite H in Hh.
Qed.

End PuzzleFacts.
(* ===================================================================== *)
(** ** The slicing step of [generateImagePuzzle]                          *)
(* ===================================================================== *)

Module SlicerFacts.
Import MonadFacts PuzzleGenerator PuzzleFacts.





Definition extracted (E : environment) (resized : Buffer) (r : Z * Z * Z * Z)
    : option Buffer :=
  sharp_extract_jpeg E resized r.1.1.1 r.1.1.2 r.1.2 r.2.


















End SlicerFacts.

(* ===================================================================== *)
(** ** TaskLifecycle: [getTask]                                           *)
(* ===================================================================== *)

Module GetTaskFacts.
Import MonadFacts TaskService.

Lemma delete_property_removes key v v' :
  delete_property key v = Ok v' -> has_own_property key v' = false.
Proof.
  destruct v; simpl; intros [= <-]; try done. simpl.
  apply bool_decide_eq_false_2. intros [x Hx].
  apply JsFacts.assoc_Some_elem, list_elem_of_fmap in Hx as ([k y] & -> & Hin).
  apply list_elem_of_filter in Hin as [Hne _]. by apply Hne.
Qed.

(** Members other than the deleted one are kept. *)
Lemma assoc_filter_ne {A} key other (fields : list (string * A)) :
  other <> key ->
  Js.assoc other (filter (fun kx => kx.1 <> key) fields) = Js.assoc other fields.
Proof.
  intros Hne. induction fields as [|[k x] fields IH]; [done|].
  rewrite filter_cons. simpl. case_decide as Hk.
  - cbn [Js.assoc]. by rewrite IH.
  - simpl in Hk. subst k. rewrite IH. cbn [Js.assoc].
    destruct (String.eqb_spec key other) as [->|_]; done.
Qed.

Lemma falsy_has_no_property key v : truthy v = false -> has_own_property key v = false.
Proof. by destruct v. Qed.

Lemma assign_ok_inv key shared f t w t' w' :
  assign key shared f t w = (Ok t', w') -> t' = f t.
Proof.
  unfold assign. intros H. apply bind_ok_inv in H as (u & w1 & _ & H).
  by injection H as <- _.
Qed.

(** C1.  Whatever the cache and the store hold, a task returned by
    [getTask] has no [correct_solution] member in its [puzzle_config]:
    a configuration that is present is parsed, the member is deleted, and
    the result replaces the configuration before the task is returned. *)
Theorem getTask_hides_correct_solution E taskId userId w task w' :
  getTask E taskId userId w = (Ok task, w') ->
  has_own_property "correct_solution" (puzzle_config task) = false.
Proof.
  unfold getTask. intros H.
  apply bind_ok_inv in H as (cached & w1 & _ & H).
  apply bind_ok_inv in H as ([task0 shared] & w2 & _ & H).
  apply bind_ok_inv in H as (task1 & w3 & _ & H).
  destruct (truthy (puzzle_config task1)) eqn:Htruthy.
  - apply bind_ok_inv in H as (parsed & w4 & _ & H).
    apply bind_ok_inv in H as (stripped & w5 & Hdelete & H).
    apply assign_ok_inv in H as ->.
    unfold lift_outcome in Hdelete. injection Hdelete as Hdelete _.
    by apply delete_property_removes in Hdelete.
  - injection H as <- _. by apply falsy_has_no_property.
Qed.

Definition sample_task : task :=
  Eval vm_compute in
    match (getTask Sample.E "task-1" (Some "player-1") Sample.active_world).1 with
    | Ok t => t
    | Throw _ => task_of_row (Sample.pizza "active" None)
    end.

Lemma sample_getTask :
  (getTask Sample.E "task-1" (Some "player-1") Sample.active_world).1 = Ok sample_task.
Proof. vm_compute. reflexivity. Qed.

Lemma getTask_hides_correct_solution_witness :
  has_own_property "correct_solution" (puzzle_config sample_task) = false
  ∧ has_own_property "shuffled_order" (puzzle_config sample_task) = true.
Proof.
  split; [|reflexivity].
  apply (getTask_hides_correct_solution Sample.E "task-1" (Some "player-1")
           Sample.active_world sample_task
           (getTask Sample.E "task-1" (Some "player-1") Sample.active_world).2).
  rewrite <- sample_getTask. apply surjective_pairing.
Defined.

End GetTaskFacts.

(* ===================================================================== *)
(** ** Statements sent through the pool                                   *)
(* ===================================================================== *)

Module QueryFacts.
Import MonadFacts.

(** The world after a statement that the pool delivered. *)
Definition delivered (e : option error) (d : database) (w : world) : world :=
  let w1 := set_db d (set_db_faults (tail (db_faults w)) w) in
  set_log (log w1 ++ [ {| level := match e with Some _ => "error" | None => "debug" end;
                          message := match e with
                                     | Some _ => "Database query failed"
                                     | None => "Database query executed"
                                     end;
                          thrown := e |} ]) w1.

(** The world after a statement that the pool rejected. *)
Definition rejected (w : world) : world :=
  let w1 := set_db_faults (tail (db_faults w)) w in
  set_log (log w1 ++ [ {| level := "error"; message := "Database query failed";
                          thrown := Some (DatabaseError connection_failure) |} ]) w1.

Lemma db_delivered e d w : db (delivered e d w) = d.
Proof. reflexivity. Qed.

Lemma db_faults_delivered e d w : db_faults (delivered e d w) = tail (db_faults w).
Proof. reflexivity. Qed.

Lemma db_rejected w : db (rejected w) = db w.
Proof. reflexivity. Qed.

Lemma query_run {A} (s : statement A) w :
  query s w
  = match db_faults w with
    | true :: _ => (Throw (DatabaseError connection_failure), rejected w)
    | _ => match s (db w) with
           | (Ok a, d') => (Ok a, delivered None d' w)
           | (Throw e, d') => (Throw e, delivered (Some e) d' w)
           end
    end.
Proof.
  unfold query, rejected, delivered.
  destruct (db_faults w) as [|[|] rest]; simpl; try done;
    destruct (s (db w)) as [[a|e] d']; done.
Qed.

Lemma query_delivered {A} (s : statement A) w :
  head (db_faults w) <> Some true ->
  query s w
  = match s (db w) with
    | (Ok a, d') => (Ok a, delivered None d' w)
    | (Throw e, d') => (Throw e, delivered (Some e) d' w)
    end.
Proof. rewrite query_run. by destruct (db_faults w) as [|[|] rest]. Qed.

Lemma query_select {A} (f : database -> A) w :
  head (db_faults w) <> Some true ->
  query (select f) w = (Ok (f (db w)), delivered None (db w) w).
Proof. intros H. by rewrite query_delivered. Qed.

Lemma query_update f w :
  head (db_faults w) <> Some true ->
  query (update f) w = (Ok tt, delivered None (f (db w)) w).
Proof. intros H. by rewrite query_delivered. Qed.

(** The store changes only through statements. *)
Lemma logger_db lvl msg e w : db (logger lvl msg e w).2 = db w.
Proof. done. Qed.

Lemma cache_del_db key w : db (Cache.del key w).2 = db w.
Proof. unfold Cache.del. by destruct (redis_up w). Qed.

Lemma cache_del_ok key w : exists b, (Cache.del key w).1 = Ok b.
Proof. unfold Cache.del. destruct (redis_up w); simpl; eauto. Qed.

Lemma filter_nil_Forall {A} (P : A -> Prop) `{forall x, Decision (P x)} (l : list A) :
  filter P l = [] <-> Forall (fun x => ¬ P x) l.
Proof.
  induction l as [|x l IH]; [by rewrite Forall_nil|].
  rewrite filter_cons, Forall_cons. case_decide; [|tauto].
  split; [done|]. by intros [? _].
Qed.

Lemma filter_nil_iff {A} (P : A -> Prop) `{forall x, Decision (P x)} (l : list A) :
  filter P l = [] <-> ¬ Exists P l.
Proof. rewrite filter_nil_Forall. apply Forall_Exists_neg. Qed.

Lemma cache_del_run key w :
  exists b w', Cache.del key w = (Ok b, w') ∧ db w' = db w ∧ db_faults w' = db_faults w.
Proof. unfold Cache.del. destruct (redis_up w); by eexists _, _. Qed.

Lemma cache_set_run key t w :
  exists b w', Cache.set key t w = (Ok b, w') ∧ db w' = db w ∧ db_faults w' = db_faults w.
Proof.
  unfold Cache.set. destruct (redis_up w); eexists _, _; (split; [reflexivity|]);
    by autorewrite with memory_tier.
Qed.

(** Rows filtered by a key that is unique in the table. *)
Lemma filter_unique_key {A K} (key : A -> K) (k : K) (P : A -> Prop)
    `{forall x, Decision (key x = k ∧ P x)} (l : list A) (x : A) :
  NoDup (key <$> l) -> x ∈ l -> key x = k -> P x ->
  filter (fun y => key y = k ∧ P y) l = [x].
Proof.
  induction l as [|y l IH]; intros Hnd Hin Hk HP.
  - by apply elem_of_nil in Hin.
  - rewrite fmap_cons in Hnd. apply NoDup_cons in Hnd as [Hy Hnd].
    rewrite filter_cons. apply elem_of_cons in Hin as [->|Hin].
    + rewrite decide_True by done. f_equal.
      apply filter_nil_Forall, Forall_forall. intros z Hz [Hkey _]. apply Hy.
      rewrite Hk, <- Hkey. by apply list_elem_of_fmap_2.
    + rewrite decide_False; [by apply IH|].
      intros [Hkey _]. apply Hy. rewrite Hkey, <- Hk. by apply list_elem_of_fmap_2.
Qed.

Lemma NoDup_fmap_eq {A K} (key : A -> K) (l : list A) x y :
  NoDup (key <$> l) -> x ∈ l -> y ∈ l -> key x = key y -> x = y.
Proof.
  induction l as [|z l IH]; intros Hnd Hx Hy Hkey.
  - by apply elem_of_nil in Hx.
  - rewrite fmap_cons in Hnd. apply NoDup_cons in Hnd as [Hz Hnd].
    apply elem_of_cons in Hx as [->|Hx]; apply elem_of_cons in Hy as [->|Hy]; try done.
    + exfalso. apply Hz. rewrite Hkey. by apply list_elem_of_fmap_2.
    + exfalso. apply Hz. rewrite <- Hkey. by apply list_elem_of_fmap_2.
    + by apply IH.
Qed.

(** A date within the range of [TIMESTAMP] is stored as it is. *)
Lemma timestamp_param_Ok ms :
  -210866803200000 <= ms <= 8640000000000000 -> timestamp_param ms = Ok ms.
Proof.
  intros [Hlo Hhi]. unfold timestamp_param.
  rewrite (proj2 (Z.ltb_ge _ _)) by lia. by rewrite (proj2 (Z.ltb_ge _ _)) by lia.
Qed.

End QueryFacts.

(* ===================================================================== *)
(** ** AttemptLedger: [recordAttempt]                                     *)
(* ===================================================================== *)

Module AttemptFacts.
Import MonadFacts QueryFacts TaskService.

(** The parameters of the INSERT. *)
Definition attempt_row_of (now : timestamp) (new_id taskId userId : uuid)
    (attemptData : AttemptData) : attempt_row :=
  {| a_id := new_id; a_task_id := taskId; a_user_id := userId;
     a_started_at := now - time_taken_seconds attemptData * 1000;
     a_completed_at := now;
     a_time_taken_seconds := time_taken_seconds attemptData;
     a_is_successful := is_successful attemptData;
     a_difficulty_multiplier :=
       match difficulty_multiplier attemptData with
       | Some m => if Qeq_bool m 0 then 1%Q else m
       | None => 1%Q
       end |}.

Definition expired (now : timestamp) (t : task_row) : bool :=
  match t_expires_at t with Some expires => expires <? now | None => false end.

(** What [recordAttempt] returns and leaves in the store when every
    statement is delivered.  The INSERT and the UPDATE are two statements:
    when the UPDATE is refused, the inserted row stays. *)
Definition recordAttempt_delivered (now : timestamp) (new_id taskId userId : uuid)
    (attemptData : AttemptData) (d : database) : outcome attempt_row * database :=
  if negb (bool_decide (select_attempt_ids taskId userId d = []))
  then (Throw (ConflictError "You have already attempted this task"), d)
  else
    match select_task_with_status taskId "active" d with
    | [] => (Throw (NotFoundError "Task not found or not active"), d)
    | task :: _ =>
        if expired now task then (Throw (GoneError "Task has expired"), d)
        else
          match insert_task_attempt (attempt_row_of now new_id taskId userId attemptData) d with
          | (Ok attempt, d1) =>
              match update_task_statistics (is_successful attemptData) taskId d1 with
              | (Ok _, d2) => (Ok attempt, d2)
              | (Throw e, d2) => (Throw e, d2)
              end
          | (Throw e, d1) => (Throw e, d1)
          end
    end.

Lemma recordAttempt_no_faults now new_id taskId userId attemptData w :
  db_faults w = [] ->
  exists w',
    recordAttempt now new_id taskId userId attemptData w
    = ((recordAttempt_delivered now new_id taskId userId attemptData (db w)).1, w')
    ∧ db w' = (recordAttempt_delivered now new_id taskId userId attemptData (db w)).2
    ∧ db_faults w' = [].
Proof.
  intros Hf. unfold recordAttempt, recordAttempt_delivered.
  erewrite bind_run_ok; [|apply query_select; by rewrite Hf].
  destruct (bool_decide (select_attempt_ids taskId userId (db w) = [])); simpl negb;
    cbv iota.
  2: { eexists. split; [reflexivity|]. by rewrite ?db_faults_delivered, ?db_delivered, Hf. }
  erewrite bind_run_ok; [|reflexivity].
  erewrite bind_run_ok; [|apply query_select; by rewrite !db_faults_delivered, Hf].
  rewrite !db_delivered.
  destruct (select_task_with_status taskId "active" (db w)) as [|task rest].
  { eexists. split; [reflexivity|]. by rewrite ?db_faults_delivered, ?db_delivered, Hf. }
  fold (expired now task).
  destruct (expired now task).
  { eexists. split; [reflexivity|]. by rewrite ?db_faults_delivered, ?db_delivered, Hf. }
  erewrite bind_run_ok; [|reflexivity].
  fold (attempt_row_of now new_id taskId userId attemptData).
  set (w2 := delivered None (db w) (delivered None (db w) w)).
  assert (Hf2 : db_faults w2 = []) by (subst w2; by rewrite !db_faults_delivered, Hf).
  assert (Hd2 : db w2 = db w) by done.
  clearbody w2.
  unfold bind at 1. rewrite query_delivered by (by rewrite Hf2). rewrite Hd2.
  destruct (insert_task_attempt _ (db w)) as [[attempt|e] d1] eqn:Hins.
  - set (w3 := delivered None d1 w2).
    assert (Hf3 : db_faults w3 = []) by (subst w3; by rewrite db_faults_delivered, Hf2).
    assert (Hd3 : db w3 = d1) by done.
    clearbody w3.
    unfold bind at 1. rewrite query_delivered by (by rewrite Hf3). rewrite Hd3.
    destruct (update_task_statistics (is_successful attemptData) taskId d1)
      as [[[]|e] d2] eqn:Hupd.
    + destruct (cache_del_run (cache_key taskId) (delivered None d2 w3))
        as (b & w4 & Hdel & Hd4 & Hf4).
      erewrite bind_run_ok; [|exact Hdel].
      erewrite bind_run_ok; [|reflexivity].
      eexists. split; [reflexivity|]. simpl.
      rewrite Hd4, Hf4, !db_faults_delivered, !db_delivered, Hf3. done.
    + eexists. split; [reflexivity|]. by rewrite db_faults_delivered, db_delivered, Hf3.
  - eexists. split; [reflexivity|]. by rewrite db_faults_delivered, db_delivered, Hf2.
Qed.

Lemma select_attempt_ids_nil taskId userId d :
  select_attempt_ids taskId userId d = []
  <-> ¬ Exists (fun a => a_task_id a = taskId ∧ a_user_id a = userId) (task_attempts d).
Proof.
  unfold select_attempt_ids. rewrite <- filter_nil_iff. split.
  - apply fmap_nil_inv.
  - by intros ->.
Qed.

Lemma expired_true now task :
  expired now task = true <-> exists e, t_expires_at task = Some e ∧ e < now.
Proof.
  unfold expired. destruct (t_expires_at task) as [e|].
  - rewrite Z.ltb_lt. split; [eauto|]. by intros (? & [= <-] & ?).
  - split; [done|]. by intros (? & ? & _).
Qed.

(** *** The columns of [task_attempts] and the counters of [tasks] *)

Lemma int4_true n : -2147483648 <= n <= 2147483647 -> int4 n = true.
Proof. intros [Hlo Hhi]. unfold int4. apply andb_true_intro. split; by apply Z.leb_le. Qed.

Lemma int4_false n : ¬ (-2147483648 <= n <= 2147483647) -> int4 n = false.
Proof.
  intros H. unfold int4. apply andb_false_iff.
  destruct (decide (-2147483648 <= n)); [right|left]; apply Z.leb_gt; lia.
Qed.

(** With [id] the primary key of [tasks], the counters of one row decide. *)
Lemma update_counters_unique f taskId d task :
  NoDup (t_id <$> tasks d) -> task ∈ tasks d -> t_id task = taskId ->
  update_counters f taskId d
  = if task_counters_fit (f task)
    then Some (with_tasks
                 ((fun t => if bool_decide (t_id t = taskId) then f t else t) <$> tasks d) d)
    else None.
Proof.
  intros Hpk Hin Hid. unfold update_counters.
  assert (Hall : forallb (fun t => negb (bool_decide (t_id t = taskId))
                                   || task_counters_fit (f t)) (tasks d)
                 = task_counters_fit (f task)).
  { destruct (task_counters_fit (f task)) eqn:Hfit.
    - apply forallb_forall. intros t Ht%list_elem_of_In.
      case_bool_decide as Ht_id; [|done].
      assert (t = task) as ->
        by (apply (NoDup_fmap_eq t_id (tasks d)); congruence).
      by rewrite Hfit.
    - destruct (forallb _ (tasks d)) eqn:Hforall; [|done].
      rewrite forallb_forall in Hforall.
      specialize (Hforall task (proj1 (list_elem_of_In _ _) Hin)).
      rewrite bool_decide_eq_true_2, Hfit in Hforall by done. discriminate Hforall. }
  by rewrite Hall.
Qed.

Lemma update_counters_inv f taskId d d' :
  update_counters f taskId d = Some d' ->
  d' = with_tasks
         ((fun t => if bool_decide (t_id t = taskId) then f t else t) <$> tasks d) d.
Proof. unfold update_counters. case_match; [|done]. by intros [= <-]. Qed.

Lemma counted_ids (f : task_row -> task_row) taskId (l : list task_row) :
  (forall t, t_id (f t) = t_id t) ->
  t_id <$> ((fun t => if bool_decide (t_id t = taskId) then f t else t) <$> l) = t_id <$> l.
Proof.
  intros Hf. rewrite <- list_fmap_compose. apply list_fmap_ext. intros i t _. simpl.
  by case_bool_decide.
Qed.

Lemma counted_twice (f g : task_row -> task_row) taskId (l : list task_row) :
  (forall t, t_id (f t) = t_id t) ->
  (fun t => if bool_decide (t_id t = taskId) then g t else t)
  <$> ((fun t => if bool_decide (t_id t = taskId) then f t else t) <$> l)
  = (fun t => if bool_decide (t_id t = taskId) then g (f t) else t) <$> l.
Proof.
  intros Hf. rewrite <- list_fmap_compose. apply list_fmap_ext. intros i t _. simpl.
  destruct (bool_decide (t_id t = taskId)) eqn:Ht.
  - apply bool_decide_eq_true_1 in Ht. by rewrite bool_decide_eq_true_2 by (by rewrite Hf).
  - by rewrite Ht.
Qed.

(** The INSERT goes through when the values fit the columns, the row is
    new, both references exist and the trigger leaves counters that fit. *)
Lemma insert_task_attempt_ok a d task multiplier :
  -210866803200000 <= a_started_at a <= 8640000000000000 ->
  -210866803200000 <= a_completed_at a <= 8640000000000000 ->
  -2147483648 <= a_time_taken_seconds a <= 2147483647 ->
  decimal_3_2 (a_difficulty_multiplier a) = Some multiplier ->
  ¬ Exists (fun b => a_task_id b = a_task_id a ∧ a_user_id b = a_user_id a) (task_attempts d) ->
  a_id a ∉ (a_id <$> task_attempts d) ->
  NoDup (t_id <$> tasks d) -> task ∈ tasks d -> t_id task = a_task_id a ->
  user_exists (a_user_id a) d = true ->
  task_counters_fit (count_attempt (a_is_successful a) task) = true ->
  insert_task_attempt a d
  = (Ok (stored_attempt a multiplier),
     with_tasks
       ((fun t => if bool_decide (t_id t = a_task_id a)
                  then count_attempt (a_is_successful a) t else t) <$> tasks d)
       (with_task_attempts (task_attempts d ++ [stored_attempt a multiplier]) d)).
Proof.
  intros Hstart Hend Hint Hdec Hpair Hid Hpk Hin Htask Hu Hfit. unfold insert_task_attempt.
  rewrite !timestamp_param_Ok, int4_true, Hdec by done. cbn [negb].
  rewrite bool_decide_eq_false_2.
  2: { intros Hex. apply Exists_exists in Hex as (b & Hb & [Hbid|Hbpair]).
       - apply Hid. cbn [stored_attempt a_id] in Hbid. rewrite <- Hbid.
         by apply list_elem_of_fmap_2.
       - apply Hpair. apply Exists_exists. eauto. }
  cbn [stored_attempt a_task_id a_user_id].
  assert (Hexists : task_exists (a_task_id a) d = true).
  { unfold task_exists. apply bool_decide_eq_true_2, Exists_exists. eauto. }
  rewrite Hexists, Hu. cbn [andb negb].
  unfold update_task_attempt_counts. cbn [stored_attempt a_is_successful a_task_id].
  rewrite (update_counters_unique _ _ _ task); [|done..]. by rewrite Hfit.
Qed.

Lemma insert_task_attempt_inv a d attempt d1 :
  insert_task_attempt a d = (Ok attempt, d1) ->
  task_attempts d1 = task_attempts d ++ [attempt]
  ∧ a_task_id attempt = a_task_id a ∧ a_user_id attempt = a_user_id a
  ∧ a_is_successful attempt = a_is_successful a
  ∧ tasks d1 = (fun t => if bool_decide (t_id t = a_task_id a)
                         then count_attempt (a_is_successful a) t else t) <$> tasks d
  ∧ users d1 = users d ∧ user_rewards d1 = user_rewards d.
Proof.
  unfold insert_task_attempt, update_task_attempt_counts.
  repeat case_match; intros [= <- <-]; try done.
  match goal with H : update_counters _ _ _ = Some _ |- _ =>
    apply update_counters_inv in H as -> end.
  done.
Qed.

Lemma insert_task_attempt_failed a d e d1 :
  insert_task_attempt a d = (Throw e, d1) -> d1 = d.
Proof.
  unfold insert_task_attempt. repeat case_match; intros [= <- <-]; done.
Qed.

Lemma update_task_statistics_inv successful taskId d o d1 :
  update_task_statistics successful taskId d = (o, d1) ->
  task_attempts d1 = task_attempts d ∧ users d1 = users d
  ∧ user_rewards d1 = user_rewards d
  ∧ (is_ok o = false -> d1 = d).
Proof.
  unfold update_task_statistics.
  destruct (update_counters _ _ _) as [d'|] eqn:Hupd; intros [= <- <-]; [|done].
  apply update_counters_inv in Hupd as ->. done.
Qed.

(** C2.  With every statement delivered and [id] the primary key of
    [tasks], the checks of [recordAttempt] are made in this order and each
    failure leaves the store as it was: an attempt row for (taskId, userId)
    gives ConflictError; otherwise no task with this id and status
    'active' gives NotFoundError; otherwise an [expires_at] that is set
    and lies in the past gives GoneError.  Otherwise the INSERT is sent.
    When its values fit the columns of [task_attempts] (both timestamps
    dates from 0001-01-01 on, [time_taken_seconds] in the range of [INT],
    the multiplier rounded to two decimals below 10), the row id is fresh, the
    user exists and the counters stay within their columns, the row is
    appended as stored and returned, and the counters of the task are
    incremented twice: once by the trigger [update_task_counts] of the
    INSERT and once by the UPDATE of the service.  A
    [time_taken_seconds] outside [INT] makes the INSERT fail with
    SQLSTATE 22003 and nothing is stored.  A row is added to
    [task_attempts] only when none of the three failures applies. *)
Theorem recordAttempt_outcome now new_id taskId userId attemptData w :
  db_faults w = [] ->
  NoDup (t_id <$> tasks (db w)) ->
  let r := recordAttempt now new_id taskId userId attemptData w in
  let attempted :=
    Exists (fun a => a_task_id a = taskId ∧ a_user_id a = userId) (task_attempts (db w)) in
  let active := fun t => t_id t = taskId ∧ t_status t = "active" in
  let past := fun t => exists e, t_expires_at t = Some e ∧ e < now in
  let successful := is_successful attemptData in
  let seconds := time_taken_seconds attemptData in
  let in_timestamp := fun ms => -62135596800000 <= ms <= 8640000000000000 in
  (attempted ->
     r.1 = Throw (ConflictError "You have already attempted this task")
     ∧ db r.2 = db w)
  ∧ (¬ attempted -> ¬ Exists active (tasks (db w)) ->
     r.1 = Throw (NotFoundError "Task not found or not active") ∧ db r.2 = db w)
  ∧ (forall task, ¬ attempted -> task ∈ tasks (db w) -> active task -> past task ->
     r.1 = Throw (GoneError "Task has expired") ∧ db r.2 = db w)
  ∧ (forall task multiplier,
       ¬ attempted -> task ∈ tasks (db w) -> active task -> ¬ past task ->
       new_id ∉ (a_id <$> task_attempts (db w)) -> user_exists userId (db w) = true ->
       in_timestamp (now - seconds * 1000) -> in_timestamp now ->
       -2147483648 <= seconds <= 2147483647 ->
       decimal_3_2 match difficulty_multiplier attemptData with
                   | Some m => if Qeq_bool m 0 then 1%Q else m
                   | None => 1%Q
                   end
       = Some multiplier ->
       task_counters_fit (count_attempt successful task) = true ->
       task_counters_fit (bump_counters successful (count_attempt successful task)) = true ->
       let row :=
         {| a_id := new_id; a_task_id := taskId; a_user_id := userId;
            a_started_at := now - seconds * 1000; a_completed_at := now;
            a_time_taken_seconds := seconds; a_is_successful := successful;
            a_difficulty_multiplier := multiplier |} in
       r.1 = Ok row
       ∧ task_attempts (db r.2) = task_attempts (db w) ++ [row]
       ∧ tasks (db r.2)
         = (fun t => if bool_decide (t_id t = taskId)
                     then bump_counters successful (count_attempt successful t) else t)
           <$> tasks (db w)
       ∧ (forall t, t ∈ tasks (db r.2) -> t_id t = taskId ->
            t_attempt_count t = t_attempt_count task + 2
            ∧ t_conversion_count t
              = t_conversion_count task + (if successful then 2 else 0)))
  ∧ (forall task,
       ¬ attempted -> task ∈ tasks (db w) -> active task -> ¬ past task ->
       in_timestamp (now - seconds * 1000) -> in_timestamp now ->
       ¬ (-2147483648 <= seconds <= 2147483647) ->
       r.1 = Throw (DatabaseError numeric_value_out_of_range) ∧ db r.2 = db w)
  ∧ (task_attempts (db r.2) <> task_attempts (db w) ->
     ¬ attempted ∧ exists task, task ∈ tasks (db w) ∧ active task ∧ ¬ past task).
Proof.
  intros Hf Hpk r attempted active past successful seconds in_timestamp.
  destruct (recordAttempt_no_faults now new_id taskId userId attemptData w Hf)
    as (w' & Hrun & Hdb & _).
  assert (Hr1 : r.1 = (recordAttempt_delivered now new_id taskId userId attemptData (db w)).1)
    by (subst r; by rewrite Hrun).
  assert (Hr2 : db r.2
                = (recordAttempt_delivered now new_id taskId userId attemptData (db w)).2)
    by (subst r; by rewrite Hrun).
  rewrite Hr1, Hr2. clear Hrun Hdb Hr1 Hr2 w' r.
  unfold recordAttempt_delivered.
  assert (Hselect : forall task, task ∈ tasks (db w) -> active task ->
            select_task_with_status taskId "active" (db w) = [task]).
  { intros task Hin [Hid Hst]. unfold select_task_with_status.
    by apply (filter_unique_key t_id taskId (fun t => t_status t = "active")). }
  destruct (bool_decide (select_attempt_ids taskId userId (db w) = [])) eqn:Hsel.
  - apply bool_decide_eq_true_1, select_attempt_ids_nil in Hsel. fold attempted in Hsel.
    simpl negb. cbv iota.
    split; [done|]. split; [|split; [|split; [|split]]].
    + intros _ Hnone.
      assert (Hnil : select_task_with_status taskId "active" (db w) = [])
        by by apply filter_nil_iff.
      by rewrite Hnil.
    + intros task _ Hin Hact Hpast. rewrite (Hselect task Hin Hact).
      apply expired_true in Hpast. by rewrite Hpast.
    + intros task multiplier _ Hin Hact Hpast Hfresh Huser Hstart Hend Hint Hdec
             Hfit1 Hfit2.
      cbv zeta.
      rewrite (Hselect task Hin Hact).
      destruct (expired now task) eqn:Hexp; [by apply expired_true in Hexp|].
      destruct Hact as [Hid Hstatus].
      unfold in_timestamp in Hstart, Hend.
      rewrite (insert_task_attempt_ok _ _ task multiplier); try done;
        try (cbn [attempt_row_of a_started_at a_completed_at]; lia).
      cbn [attempt_row_of a_task_id a_is_successful].
      unfold update_task_statistics.
      rewrite (update_counters_unique _ _ _ (count_attempt successful task)).
      * fold successful. rewrite Hfit2. cbn [fst snd tasks task_attempts with_tasks
                                             with_task_attempts].
        rewrite counted_twice by done.
        split; [done|]. split; [done|]. split; [done|].
        intros t Ht Ht_id. apply list_elem_of_fmap in Ht as (t0 & -> & Ht0).
        case_bool_decide as Ht0_id; [|done].
        assert (t0 = task) as ->
          by (apply (NoDup_fmap_eq t_id (tasks (db w))); congruence).
        cbn [bump_counters count_attempt t_attempt_count t_conversion_count].
        split; [lia|]. destruct successful; lia.
      * cbn [tasks with_tasks]. by rewrite counted_ids.
      * cbn [tasks with_tasks]. apply list_elem_of_fmap. exists task.
        by rewrite bool_decide_eq_true_2.
      * done.
    + intros task _ Hin Hact Hpast Hstart Hend Hint.
      rewrite (Hselect task Hin Hact).
      destruct (expired now task) eqn:Hexp; [by apply expired_true in Hexp|].
      unfold insert_task_attempt. cbn [attempt_row_of a_started_at a_completed_at
                                       a_time_taken_seconds].
      unfold in_timestamp in Hstart, Hend.
      rewrite !timestamp_param_Ok, int4_false by (done || lia). done.
    + intros Hchanged. split; [done|].
      destruct (select_task_with_status taskId "active" (db w)) as [|task rest] eqn:Hsome;
        [done|].
      assert (Htask : task ∈ tasks (db w) ∧ active task).
      { assert (Hin : task ∈ select_task_with_status taskId "active" (db w))
          by (rewrite Hsome; apply list_elem_of_here).
        by apply list_elem_of_filter in Hin as [? ?]. }
      destruct (expired now task) eqn:Hexp; [done|].
      exists task. destruct Htask as [? ?]. split; [done|]. split; [done|].
      unfold past. intros Hpast. apply expired_true in Hpast. by rewrite Hpast in Hexp.
  - apply bool_decide_eq_false_1 in Hsel. rewrite select_attempt_ids_nil in Hsel.
    assert (Hatt : attempted).
    { destruct (decide attempted) as [?|Hno]; [done|]. by destruct Hsel. }
    simpl negb. cbv iota. repeat split; try done.
Qed.

(** An attempt whose duration does not fit the column [INT]. *)
Definition attempt_too_long : AttemptData :=
  {| is_successful := true; time_taken_seconds := 3000000000;
     difficulty_multiplier := None |}.

Lemma recordAttempt_outcome_witness :
  let r := recordAttempt 1700000000000 "attempt-1" "task-1" "player-1" Sample.attempt_ok
             Sample.active_world in
  let r' := recordAttempt 1700000000000 "attempt-1" "task-1" "player-1" attempt_too_long
              Sample.active_world in
  (r.1 = Ok {| a_id := "attempt-1"; a_task_id := "task-1"; a_user_id := "player-1";
               a_started_at := 1699999955000; a_completed_at := 1700000000000;
               a_time_taken_seconds := 45; a_is_successful := true;
               a_difficulty_multiplier := 1 |}
   ∧ length (task_attempts (db r.2)) = 1%nat
   ∧ (fun t => (t_attempt_count t, t_conversion_count t)) <$> tasks (db r.2) = [(2, 2)])
  ∧ r'.1 = Throw (DatabaseError numeric_value_out_of_range)
  ∧ task_attempts (db r'.2) = [].
Proof.
  cbv zeta. split.
  - destruct (recordAttempt_outcome 1700000000000 "attempt-1" "task-1" "player-1"
                Sample.attempt_ok Sample.active_world eq_refl)
      as (_ & _ & _ & H & _).
    + apply NoDup_singleton.
    + destruct (H (Sample.pizza "active" None) 1%Q) as (Hrow & Hattempts & Htasks & _).
      * intros Hex. by apply Exists_nil in Hex.
      * apply list_elem_of_here.
      * split; reflexivity.
      * intros (e & He & _). discriminate He.
      * apply not_elem_of_nil.
      * reflexivity.
      * vm_compute. split; discriminate.
      * vm_compute. split; discriminate.
      * vm_compute. split; discriminate.
      * reflexivity.
      * reflexivity.
      * reflexivity.
      * cbv zeta. split; [exact Hrow|]. split.
        -- by rewrite Hattempts.
        -- by rewrite Htasks.
  - destruct (recordAttempt_outcome 1700000000000 "attempt-1" "task-1" "player-1"
                attempt_too_long Sample.active_world eq_refl)
      as (_ & _ & _ & _ & H & _).
    + apply NoDup_singleton.
    + destruct (H (Sample.pizza "active" None)) as (Hthrow & Hdb).
      * intros Hex. by apply Exists_nil in Hex.
      * apply list_elem_of_here.
      * split; reflexivity.
      * intros (e & He & _). discriminate He.
      * vm_compute. split; discriminate.
      * vm_compute. split; discriminate.
      * intros [_ Hhi]. vm_compute in Hhi. by apply Hhi.
      * split; [exact Hthrow|]. by rewrite Hdb.
Defined.

(** The run in which the pool rejects the fourth statement of
    [recordAttempt], the UPDATE of the counters. *)
Definition update_rejected : world :=
  Sample.boot (Sample.store [Sample.pizza "active" None] [] []) [false; false; false; true].

(** C5, the run that breaks the invariant.  A first attempt on a task
    whose counters are 0, every statement delivered: the INSERT adds one
    attempt row and its trigger [update_task_counts] counts it; the UPDATE
    that the service sends next counts it again.  [recordAttempt] returns
    the row, and the task is left with [attempt_count = 2] and
    [conversion_count = 2] for one successful attempt row.  (In the run in
    which the pool rejects that UPDATE the call throws and the counters
    are 1 and 1: it is the increment of the service that is surplus.) *)
Theorem recordAttempt_counters_drift :
  let r := recordAttempt 1700000000000 "attempt-1" "task-1" "player-1"
             Sample.attempt_ok Sample.active_world in
  let r' := recordAttempt 1700000000000 "attempt-1" "task-1" "player-1"
              Sample.attempt_ok update_rejected in
  let counters := fun d => (fun t => (t_attempt_count t, t_conversion_count t)) <$> tasks d in
  Formula.counters_consistent (db Sample.active_world)
  ∧ is_ok r.1 = true
  ∧ length (task_attempts (db r.2)) = 1%nat
  ∧ a_is_successful <$> task_attempts (db r.2) = [true]
  ∧ counters (db r.2) = [(2, 2)]
  ∧ ¬ Formula.counters_consistent (db r.2)
  ∧ r'.1 = Throw (DatabaseError connection_failure)
  ∧ length (task_attempts (db r'.2)) = 1%nat
  ∧ counters (db r'.2) = [(1, 1)].
Proof.
  cbv zeta.
  split; [|split; [|split; [|split; [|split; [|split; [|split; [|split]]]]]]].
  - apply Forall_singleton. split; reflexivity.
  - vm_compute. reflexivity.
  - vm_compute. reflexivity.
  - vm_compute. reflexivity.
  - vm_compute. reflexivity.
  - intros Hc. unfold Formula.counters_consistent in Hc.
    assert (Htasks : tasks (db (recordAttempt 1700000000000 "attempt-1" "task-1" "player-1"
                                  Sample.attempt_ok Sample.active_world).2)
                     = [bump_counters true (count_attempt true (Sample.pizza "active" None))])
      by (vm_compute; reflexivity).
    rewrite Htasks in Hc. apply Forall_singleton in Hc as [Hc _].
    vm_compute in Hc. discriminate Hc.
  - vm_compute. reflexivity.
  - vm_compute. reflexivity.
  - vm_compute. reflexivity.
Qed.

End AttemptFacts.

(* ===================================================================== *)
(** ** RewardLedger: [redeemReward]                                       *)
(* ===================================================================== *)

Module RedeemFacts.
Import MonadFacts QueryFacts UserService.

Definition redemption_of (E : environment) (now : timestamp) (found : reward_details)
    : redemption :=
  {| red_id := r_id (reward found);
     red_reward_code := r_reward_code (reward found);
     red_reward_type := r_reward_type (reward found);
     red_reward_value := r_reward_value (reward found);
     red_redeemed_at := toISOString E now;
     red_company_name := rd_company_name found;
     red_contact_person := rd_contact_person found;
     red_website_url := rd_website_url found;
     red_registered_address := rd_registered_address found;
     how_to_redeem := getRedemptionInstructions (r_reward_type (reward found)) |}.

(** What [redeemReward] returns and leaves in the store when every
    statement is delivered. *)
Definition redeemReward_delivered (E : environment) (now : timestamp)
    (userId : uuid) (rewardCode : string) (d : database) : outcome redemption * database :=
  match select_reward_details rewardCode userId d with
  | [] => (Throw (NotFoundError "Reward not found"), d)
  | found :: _ =>
      if r_is_redeemed (reward found)
      then (Throw (ConflictError "Reward has already been redeemed"), d)
      else if r_expires_at (reward found) <? now
      then (Throw (GoneError "Reward has expired"), d)
      else (Ok (redemption_of E now found), update_redeemed now (r_id (reward found)) d)
  end.

Lemma redeemReward_no_faults E now userId rewardCode w :
  db_faults w = [] ->
  exists w',
    redeemReward E now userId rewardCode w
    = ((redeemReward_delivered E now userId rewardCode (db w)).1, w')
    ∧ db w' = (redeemReward_delivered E now userId rewardCode (db w)).2
    ∧ db_faults w' = [].
Proof.
  intros Hf. unfold redeemReward, redeemReward_delivered.
  erewrite bind_run_ok; [|apply query_select; by rewrite Hf].
  destruct (select_reward_details rewardCode userId (db w)) as [|found rest].
  { eexists. split; [reflexivity|]. by rewrite db_faults_delivered, db_delivered, Hf. }
  destruct (r_is_redeemed (reward found)).
  { eexists. split; [reflexivity|]. by rewrite db_faults_delivered, db_delivered, Hf. }
  erewrite bind_run_ok; [|reflexivity].
  destruct (r_expires_at (reward found) <? now).
  { eexists. split; [reflexivity|]. by rewrite db_faults_delivered, db_delivered, Hf. }
  erewrite bind_run_ok; [|reflexivity].
  erewrite bind_run_ok; [|apply query_update; by rewrite db_faults_delivered, Hf].
  erewrite bind_run_ok; [|reflexivity].
  eexists. split; [reflexivity|]. split; [reflexivity|].
  simpl. by rewrite Hf.
Qed.

(** Referential integrity of the rows that [redeemReward] joins. *)
Definition rewards_joinable (d : database) : Prop :=
  Forall (fun r => Exists (fun t => t_id t = r_task_id r) (tasks d)) (user_rewards d)
  ∧ Forall (fun t => Exists (fun u => u_id u = t_company_id t) (users d)) (tasks d).

Lemma filter_Exists_cons {A} (P : A -> Prop) `{forall x, Decision (P x)} (l : list A) :
  Exists P l -> exists x rest, filter P l = x :: rest ∧ x ∈ l ∧ P x.
Proof.
  intros Hex. destruct (filter P l) as [|x rest] eqn:Hfilter.
  - by apply filter_nil_iff in Hfilter.
  - exists x, rest. split; [done|].
    assert (Hin : x ∈ filter P l) by (rewrite Hfilter; apply list_elem_of_here).
    by apply list_elem_of_filter in Hin as [? ?].
Qed.

Lemma select_reward_details_none rewardCode userId d :
  ¬ Exists (fun r => r_reward_code r = rewardCode ∧ r_user_id r = userId) (user_rewards d) ->
  select_reward_details rewardCode userId d = [].
Proof.
  intros Hnone. unfold select_reward_details.
  apply (filter_nil_iff (fun r => r_reward_code r = rewardCode ∧ r_user_id r = userId))
    in Hnone.
  by rewrite Hnone.
Qed.

Lemma select_reward_details_found rewardCode userId d x :
  rewards_joinable d -> NoDup (r_reward_code <$> user_rewards d) ->
  x ∈ user_rewards d -> r_reward_code x = rewardCode -> r_user_id x = userId ->
  exists found rest,
    select_reward_details rewardCode userId d = found :: rest ∧ reward found = x.
Proof.
  intros [Hfk1 Hfk2] Hcodes Hin Hcode Huser. unfold select_reward_details.
  rewrite (filter_unique_key r_reward_code rewardCode (fun r => r_user_id r = userId)
             (user_rewards d) x) by done.
  rewrite bind_singleton.
  rewrite Forall_forall in Hfk1. specialize (Hfk1 x Hin).
  destruct (filter_Exists_cons (fun t => t_id t = r_task_id x) (tasks d) Hfk1)
    as (t & ts & -> & Ht & _).
  rewrite bind_cons.
  rewrite Forall_forall in Hfk2. specialize (Hfk2 t Ht).
  destruct (filter_Exists_cons (fun u => u_id u = t_company_id t) (users d) Hfk2)
    as (u & us & -> & _ & _).
  rewrite bind_cons.
  destruct (filter (fun cp => cp_user_id cp = u_id u) (company_profiles d)) as [|cp cps].
  - rewrite bind_singleton. cbn [app]. eauto.
  - rewrite fmap_cons, bind_cons. cbn [app]. eauto.
Qed.

(** The result of [redeemReward] for a reward found by (code, user). *)
Lemma redeemReward_found E now userId rewardCode w x :
  db_faults w = [] -> rewards_joinable (db w) ->
  NoDup (r_reward_code <$> user_rewards (db w)) ->
  x ∈ user_rewards (db w) -> r_reward_code x = rewardCode -> r_user_id x = userId ->
  exists found w',
    reward found = x
    ∧ db_faults w' = []
    ∧ redeemReward E now userId rewardCode w
      = (if r_is_redeemed x
         then (Throw (ConflictError "Reward has already been redeemed"), w')
         else if r_expires_at x <? now
         then (Throw (GoneError "Reward has expired"), w')
         else (Ok (redemption_of E now found), w'))
    ∧ db w' = if r_is_redeemed x then db w
              else if r_expires_at x <? now then db w
              else update_redeemed now (r_id x) (db w).
Proof.
  intros Hf Hfk Hcodes Hin Hcode Huser.
  destruct (redeemReward_no_faults E now userId rewardCode w Hf) as (w' & Hrun & Hdb & Hf').
  destruct (select_reward_details_found rewardCode userId (db w) x Hfk Hcodes Hin Hcode Huser)
    as (found & rest & Hsel & Hfound).
  unfold redeemReward_delivered in Hrun, Hdb. rewrite Hsel, Hfound in Hrun, Hdb.
  exists found, w'. split; [done|]. split; [done|].
  rewrite Hrun, Hdb.
  destruct (r_is_redeemed x); [done|]. destruct (r_expires_at x <? now); done.
Qed.

Lemma update_redeemed_codes now rewardId d :
  r_reward_code <$> user_rewards (update_redeemed now rewardId d)
  = r_reward_code <$> user_rewards d.
Proof.
  unfold update_redeemed. simpl. rewrite <- list_fmap_compose.
  apply list_fmap_ext. intros i y _. simpl. by case_bool_decide.
Qed.

Lemma update_redeemed_joinable now rewardId d :
  rewards_joinable d -> rewards_joinable (update_redeemed now rewardId d).
Proof.
  intros [Hfk1 Hfk2]. split; [|done].
  unfold update_redeemed. simpl. apply Forall_fmap.
  eapply Forall_impl; [exact Hfk1|]. intros y Hy. simpl. by case_bool_decide.
Qed.

(** C4.  With every statement delivered, the foreign keys of [user_rewards]
    and [tasks] in place and [reward_code] unique: [redeemReward] throws
    NotFoundError when no reward has the pair (code, user) - so also when
    the code belongs to another user -; for the reward found it throws
    ConflictError if it is already redeemed, otherwise GoneError if the
    current time is past [expires_at].  Otherwise it returns the id,
    code, type and value of the reward, and the row with that id now has
    [is_redeemed = true] and [redeemed_at] = the time of the call, every
    other column and every other row as before.  After that, any further
    redemption of the code, at any time, throws ConflictError and changes
    nothing, so that [redeemed_at] is written once.  Every failure leaves
    the store as it was. *)
Theorem redeemReward_outcome E now userId rewardCode w :
  db_faults w = [] -> rewards_joinable (db w) ->
  NoDup (r_reward_code <$> user_rewards (db w)) ->
  let r := redeemReward E now userId rewardCode w in
  (¬ Exists (fun x => r_reward_code x = rewardCode ∧ r_user_id x = userId)
            (user_rewards (db w)) ->
     r.1 = Throw (NotFoundError "Reward not found") ∧ db r.2 = db w)
  ∧ (forall x, x ∈ user_rewards (db w) -> r_reward_code x = rewardCode ->
       (r_user_id x <> userId ->
          r.1 = Throw (NotFoundError "Reward not found") ∧ db r.2 = db w)
       ∧ (r_user_id x = userId -> r_is_redeemed x = true ->
          r.1 = Throw (ConflictError "Reward has already been redeemed") ∧ db r.2 = db w)
       ∧ (r_user_id x = userId -> r_is_redeemed x = false -> r_expires_at x < now ->
          r.1 = Throw (GoneError "Reward has expired") ∧ db r.2 = db w)
       ∧ (r_user_id x = userId -> r_is_redeemed x = false -> now <= r_expires_at x ->
          let redeemed := fun y =>
            {| r_id := r_id y; r_user_id := r_user_id y; r_task_id := r_task_id y;
               r_reward_code := r_reward_code y; r_reward_type := r_reward_type y;
               r_reward_value := r_reward_value y;
               r_is_redeemed := true; r_redeemed_at := Some now;
               r_expires_at := r_expires_at y |} in
          (exists result,
             r.1 = Ok result
             ∧ red_id result = r_id x ∧ red_reward_code result = rewardCode
             ∧ red_reward_type result = r_reward_type x
             ∧ red_reward_value result = r_reward_value x
             ∧ red_redeemed_at result = toISOString E now)
          ∧ user_rewards (db r.2)
            = (fun y => if bool_decide (r_id y = r_id x) then redeemed y else y)
              <$> user_rewards (db w)
          ∧ redeemed x ∈ user_rewards (db r.2)
          ∧ tasks (db r.2) = tasks (db w)
          ∧ task_attempts (db r.2) = task_attempts (db w)
          ∧ forall later,
              (redeemReward E later userId rewardCode r.2).1
              = Throw (ConflictError "Reward has already been redeemed")
              ∧ db (redeemReward E later userId rewardCode r.2).2 = db r.2))
  ∧ (forall e, r.1 = Throw e -> db r.2 = db w).
Proof.
  intros Hf Hfk Hcodes r.
  assert (Hnone : ¬ Exists (fun x => r_reward_code x = rewardCode ∧ r_user_id x = userId)
                          (user_rewards (db w)) ->
                  r.1 = Throw (NotFoundError "Reward not found") ∧ db r.2 = db w).
  { intros Hno. subst r.
    destruct (redeemReward_no_faults E now userId rewardCode w Hf) as (w' & Hrun & Hdb & _).
    unfold redeemReward_delivered in Hrun, Hdb.
    rewrite (select_reward_details_none _ _ _ Hno) in Hrun, Hdb. by rewrite Hrun. }
  split; [done|]. split.
  - intros x Hin Hcode. split; [|split; [|split]].
    + intros Hother. apply Hnone. intros Hex.
      apply Exists_exists in Hex as (y & Hy & Hycode & Hyuser).
      assert (y = x) by (apply (NoDup_fmap_eq r_reward_code (user_rewards (db w)));
                         congruence).
      congruence.
    + intros Huser Hred.
      destruct (redeemReward_found E now userId rewardCode w x Hf Hfk Hcodes Hin Hcode Huser)
        as (found & w' & _ & _ & Hrun & Hdb).
      subst r. rewrite Hred in Hrun, Hdb. by rewrite Hrun.
    + intros Huser Hred Hexp.
      destruct (redeemReward_found E now userId rewardCode w x Hf Hfk Hcodes Hin Hcode Huser)
        as (found & w' & _ & _ & Hrun & Hdb).
      apply Z.ltb_lt in Hexp.
      subst r. rewrite Hred, Hexp in Hrun, Hdb. by rewrite Hrun.
    + intros Huser Hred Hexp.
      destruct (redeemReward_found E now userId rewardCode w x Hf Hfk Hcodes Hin Hcode Huser)
        as (found & w' & Hfound & Hf' & Hrun & Hdb).
      apply Z.ltb_ge in Hexp.
      subst r. rewrite Hred, Hexp in Hrun, Hdb. rewrite Hrun. cbn [fst snd].
      rewrite Hdb.
      assert (Hin' : mark_redeemed now x ∈ user_rewards (db w')).
      { rewrite Hdb. unfold update_redeemed. simpl.
        apply list_elem_of_fmap. exists x. by rewrite bool_decide_eq_true_2. }
      cbv zeta. split; [|split; [done|split; [|split; [done|split; [done|]]]]].
      { eexists. split; [reflexivity|].
        cbn [redemption_of red_id red_reward_code red_reward_type
             red_reward_value red_redeemed_at].
        by rewrite Hfound, Hcode. }
      { by rewrite <- Hdb. }
      intros later.
      destruct (redeemReward_found E later userId rewardCode w' (mark_redeemed now x))
        as (found' & w'' & _ & _ & Hrun' & Hdb'); try done.
      * rewrite Hdb. by apply update_redeemed_joinable.
      * by rewrite Hdb, update_redeemed_codes.
      * cbn [mark_redeemed r_is_redeemed] in Hrun', Hdb'.
        rewrite Hrun'. cbn [fst snd]. by rewrite Hdb'.
  - intros e He. subst r.
    destruct (redeemReward_no_faults E now userId rewardCode w Hf) as (w' & Hrun & Hdb & _).
    rewrite Hrun in He |- *. cbn [fst snd] in *. rewrite Hdb.
    unfold redeemReward_delivered in *.
    repeat case_match; simpl in *; try done.
Qed.

Definition redeemable_world : world :=
  Sample.boot
    (Sample.store [Sample.pizza "active" None] []
       [Sample.reward_of "player-1" "TLLOYW3V28ABCDEF" false 1702592000000]) [].

Lemma redeemReward_outcome_witness :
  (r_is_redeemed <$> user_rewards (db redeemable_world) = [false]
   ∧ r_redeemed_at <$> user_rewards (db redeemable_world) = [None])
  ∧ {| r_id := "reward-1"; r_user_id := "player-1"; r_task_id := "task-1";
       r_reward_code := "TLLOYW3V28ABCDEF"; r_reward_type := "discount";
       r_reward_value := 20%Q; r_is_redeemed := true;
       r_redeemed_at := Some 1700000000000; r_expires_at := 1702592000000 |}
    ∈ user_rewards (db (redeemReward Sample.E 1700000000000 "player-1" "TLLOYW3V28ABCDEF"
                          redeemable_world).2)
  ∧ (redeemReward Sample.E 1700000000001 "player-1" "TLLOYW3V28ABCDEF"
       (redeemReward Sample.E 1700000000000 "player-1" "TLLOYW3V28ABCDEF"
          redeemable_world).2).1
    = Throw (ConflictError "Reward has already been redeemed").
Proof.
  destruct (redeemReward_outcome Sample.E 1700000000000 "player-1" "TLLOYW3V28ABCDEF"
              redeemable_world eq_refl) as (_ & H & _).
  - split.
    + apply Forall_singleton. apply Exists_cons_hd. reflexivity.
    + apply Forall_singleton. apply Exists_cons_hd. reflexivity.
  - apply NoDup_singleton.
  - destruct (H (Sample.reward_of "player-1" "TLLOYW3V28ABCDEF" false 1702592000000))
      as (_ & _ & _ & Hok).
    + apply list_elem_of_here.
    + reflexivity.
    + destruct Hok as (_ & _ & Hrow & _ & _ & Hlater); [reflexivity|reflexivity|simpl; lia|].
      split; [split; reflexivity|].
      exact (conj Hrow (proj1 (Hlater 1700000000001))).
Defined.

End RedeemFacts.

(* ===================================================================== *)
(** ** RewardLedger: [createReward]                                       *)
(* ===================================================================== *)

Module IssueFacts.
Import MonadFacts QueryFacts UserService.

(** The code that [generateRewardCode] builds from the clock and from the
    [k]-th random number. *)
Definition reward_code_of (E : environment) (now : timestamp) (k : nat) : string :=
  "TL" +:+ toString36 now +:+ toUpperCase (Js.substring 2 8 (Math_random_toString36 E k)).

Definition reward_row_of (E : environment) (now : timestamp) (new_id userId taskId : uuid)
    (k : nat) (task : task_row) : reward_row :=
  {| r_id := new_id; r_user_id := userId; r_task_id := taskId;
     r_reward_code := reward_code_of E now k;
     r_reward_type := t_reward_type task;
     r_reward_value := t_reward_value task;
     r_is_redeemed := false;
     r_redeemed_at := None;
     r_expires_at := now + expiryDays E * 24 * 60 * 60 * 1000 |}.

(** What [createReward] returns and leaves in the store when every
    statement is delivered; [k] random numbers were drawn before. *)
Definition createReward_delivered (E : environment) (now : timestamp)
    (new_id userId taskId : uuid) (k : nat) (d : database) : outcome reward_row * database :=
  if negb (bool_decide (select_reward_ids userId taskId d = []))
  then (Throw (ConflictError "Reward already exists for this task"), d)
  else
    match select_task taskId d with
    | [] => (Throw (NotFoundError "Task not found"), d)
    | task :: _ => insert_user_reward (reward_row_of E now new_id userId taskId k task) d
    end.

Lemma randoms_drawn_delivered e d w : randoms_drawn (delivered e d w) = randoms_drawn w.
Proof. reflexivity. Qed.

Lemma createReward_no_faults E now new_id userId taskId w :
  db_faults w = [] ->
  exists w',
    createReward E now new_id userId taskId w
    = ((createReward_delivered E now new_id userId taskId (randoms_drawn w) (db w)).1, w')
    ∧ db w' = (createReward_delivered E now new_id userId taskId (randoms_drawn w) (db w)).2
    ∧ db_faults w' = []
    ∧ (randoms_drawn w' <= S (randoms_drawn w))%nat.
Proof.
  intros Hf. unfold createReward, createReward_delivered.
  erewrite bind_run_ok; [|apply query_select; by rewrite Hf].
  destruct (bool_decide (select_reward_ids userId taskId (db w) = [])); simpl negb;
    cbv iota.
  2: { eexists. split; [reflexivity|].
       rewrite db_faults_delivered, db_delivered, randoms_drawn_delivered, Hf.
       repeat split; lia. }
  erewrite bind_run_ok; [|reflexivity].
  erewrite bind_run_ok; [|apply query_select; by rewrite !db_faults_delivered, Hf].
  rewrite !db_delivered.
  destruct (select_task taskId (db w)) as [|task rest].
  { eexists. split; [reflexivity|].
    rewrite !db_faults_delivered, !db_delivered, !randoms_drawn_delivered, Hf.
    repeat split; lia. }
  erewrite bind_run_ok; [|reflexivity].
  rewrite !randoms_drawn_delivered.
  fold (reward_code_of E now (randoms_drawn w)).
  fold (reward_row_of E now new_id userId taskId (randoms_drawn w) task).
  unfold bind at 1. rewrite query_delivered by (simpl; by rewrite Hf).
  change (db (set_drawn _ _ _)) with (db w).
  destruct (insert_user_reward _ (db w)) as [[reward|e] d1].
  - erewrite bind_run_ok; [|reflexivity].
    eexists. split; [reflexivity|]. split; [reflexivity|]. simpl. rewrite Hf.
    split; [done|lia].
  - eexists. split; [reflexivity|]. split; [reflexivity|]. simpl. rewrite Hf.
    split; [done|lia].
Qed.

Lemma insert_user_reward_inv r d reward d1 :
  insert_user_reward r d = (Ok reward, d1) ->
  reward = r ∧ d1 = with_user_rewards (user_rewards d ++ [r]) d
  ∧ r_reward_code r ∉ (r_reward_code <$> user_rewards d).
Proof.
  unfold insert_user_reward. case_bool_decide as Hdup; [done|].
  destruct (negb _); [done|]. intros [= <- <-]. repeat split.
  intros Hin. apply Hdup. apply list_elem_of_fmap in Hin as (b & Hb & Hin).
  apply Exists_exists. exists b. auto.
Qed.







End IssueFacts.

(* ===================================================================== *)
(** ** PuzzleGenerator: [shuffleArray] and the order handed to the player *)
(* ===================================================================== *)

Module ShuffleFacts.
Import MonadFacts PuzzleGenerator PuzzleFacts.

Ltac in_list := repeat first [apply list_elem_of_here | apply list_elem_of_further].

Lemma insert_head_perm (t : list Z) j x y :
  t !! j = Some y -> y :: <[j := x]> t ≡ₚ x :: t.
Proof.
  revert j. induction t as [|h t IH]; intros [|j] H; simplify_eq/=.
  - apply Permutation_swap.
  - rewrite Permutation_swap, (IH j H). apply Permutation_swap.
Qed.

Lemma insert_insert_perm (a : list Z) i j x y :
  a !! i = Some x -> a !! j = Some y -> <[j := x]> (<[i := y]> a) ≡ₚ a.
Proof.
  revert i j. induction a as [|h a IH]; intros [|i] [|j] Hi Hj; simplify_eq/=.
  - done.
  - by apply insert_head_perm.
  - by apply insert_head_perm.
  - by rewrite (IH i j).
Qed.

Lemma swap_perm a i j : swap a i j ≡ₚ a.
Proof.
  unfold swap. destruct (a !! i) as [x|] eqn:Hi; [|done].
  destruct (a !! j) as [y|] eqn:Hj; [|done].
  by apply insert_insert_perm.
Qed.

Lemma shuffle_from_perm E n k l : shuffle_from E n k l ≡ₚ l.
Proof.
  revert k l. induction n as [|n IH]; intros k l; [done|].
  cbn [shuffle_from]. rewrite IH. apply swap_perm.
Qed.

(** X1.  The Fisher-Yates loop only exchanges items: whatever numbers the random
    source returns, [shuffleArray] returns a rearrangement of its argument
    (every item as often as before, so the same length), never throws, and
    draws one random number for each position but the first. *)
Theorem shuffleArray_permutation E (array : list Z) w :
  exists shuffled,
    (shuffleArray E array w).1 = Ok shuffled
    ∧ shuffled ≡ₚ array
    ∧ length shuffled = length array
    ∧ randoms_drawn (shuffleArray E array w).2
      = (randoms_drawn w + (length array - 1))%nat
    ∧ db (shuffleArray E array w).2 = db w.
Proof.
  eexists. split; [reflexivity|].
  pose proof (shuffle_from_perm E (length array - 1) (randoms_drawn w) array) as Hp.
  split; [done|]. split; [by rewrite Hp|]. done.
Qed.

End ShuffleFacts.

(* ===================================================================== *)
(** ** Parts of the world that an operation leaves alone                  *)
(* ===================================================================== *)

Module FrameFacts.
Import MonadFacts QueryFacts PuzzleGenerator.

(** [keeps f m]: running [m] does not change the component [f] of the
    world, whether [m] returns or throws. *)
Definition keeps {X} (f : world -> X) {A} (m : M A) : Prop :=
  forall w, f (m w).2 = f w.

Section keeps.
Context {X : Type} (f : world -> X).
Hypothesis f_log : forall l w, f (set_log l w) = f w.
Hypothesis f_calls : forall c w, f (set_calls c w) = f w.
Hypothesis f_drawn : forall u r w, f (set_drawn u r w) = f w.
Hypothesis f_caches : forall m r w, f (set_caches m r w) = f w.
Hypothesis f_order : forall o w, f (set_memoryOrder o w) = f w.
Hypothesis f_faults : forall l w, f (set_db_faults l w) = f w.
Hypothesis f_same_db : forall w, f (set_db (db w) w) = f w.

Lemma keeps_ret {A} (a : A) : keeps f (ret a).
Proof. done. Qed.

Lemma keeps_throw {A} e : keeps f (@throw A e).
Proof. done. Qed.

Lemma keeps_lift_outcome {A} (o : outcome A) : keeps f (lift_outcome o).
Proof. done. Qed.

Lemma keeps_bind {A B} (m : M A) (k : A -> M B) :
  keeps f m -> (forall a, keeps f (k a)) -> keeps f (bind m k).
Proof.
  intros Hm Hk w. unfold bind. specialize (Hm w).
  destruct (m w) as [[a|e] w1]; simpl in *; [|done]. by rewrite Hk.
Qed.

Lemma keeps_try_catch {A} (m : M A) (h : error -> M A) :
  keeps f m -> (forall e, keeps f (h e)) -> keeps f (try_catch m h).
Proof.
  intros Hm Hh w. unfold try_catch. specialize (Hm w).
  destruct (m w) as [[a|e] w1]; simpl in *; [done|]. by rewrite Hh.
Qed.

Lemma keeps_if {A} (b : bool) (m1 m2 : M A) :
  keeps f m1 -> keeps f m2 -> keeps f (if b then m1 else m2).
Proof. by destruct b. Qed.

Lemma keeps_for_each {A B} (l : list A) (body : A -> M B) :
  (forall x, keeps f (body x)) -> keeps f (for_each l body).
Proof.
  intros Hbody. induction l as [|x l IH]; simpl; [done|].
  apply keeps_bind; [done|]. intros y. apply keeps_bind; [done|]. done.
Qed.

Lemma keeps_logger lvl msg e : keeps f (logger lvl msg e).
Proof. intros w. apply f_log. Qed.

Lemma keeps_call c : keeps f (call c).
Proof. intros w. apply f_calls. Qed.

Lemma keeps_draw_uuid E : keeps f (draw_uuid E).
Proof. intros w. apply f_drawn. Qed.

Lemma keeps_shuffleArray E array : keeps f (shuffleArray E array).
Proof. intros w. apply f_drawn. Qed.

Lemma keeps_calculateDifficulty E pieceBuffers : keeps f (calculateDifficulty E pieceBuffers).
Proof.
  unfold calculateDifficulty. repeat case_match; try apply keeps_ret.
  apply keeps_bind; [apply keeps_logger|]. intros _. apply keeps_ret.
Qed.

Lemma f_evict w : f (Cache.evict w) = f w.
Proof. unfold Cache.evict. repeat case_match; rewrite ?f_order, ?f_caches; done. Qed.

Lemma f_setMemory key t w : f (Cache.setMemory key t w) = f w.
Proof. unfold Cache.setMemory. cbv zeta. rewrite f_order, f_caches. apply f_evict. Qed.

Lemma f_deleteMemory key w : f (Cache.deleteMemory key w) = f w.
Proof. unfold Cache.deleteMemory. by rewrite f_order, f_caches. Qed.

Lemma keeps_cache_get key : keeps f (Cache.get key).
Proof.
  intros w. unfold Cache.get.
  repeat case_match; cbn [snd]; first [done | apply f_log | apply f_setMemory].
Qed.

Lemma keeps_cache_set key t : keeps f (Cache.set key t).
Proof.
  intros w. unfold Cache.set. case_match; cbn [snd]; [|apply f_log].
  by rewrite f_setMemory, f_caches.
Qed.

Lemma keeps_cache_del key : keeps f (Cache.del key).
Proof.
  intros w. unfold Cache.del. case_match; cbn [snd]; [|apply f_log].
  by rewrite f_deleteMemory, f_caches.
Qed.

Lemma keeps_mutate_in_memory key g : keeps f (Cache.mutate_in_memory key g).
Proof. intros w. apply f_caches. Qed.

(** A read-only statement, delivered or not. *)
Lemma keeps_query_select {A} (g : database -> A) : keeps f (query (select g)).
Proof.
  intros w. rewrite query_run. unfold rejected, delivered, select.
  destruct (db_faults w) as [|[|] rest]; cbn [snd]; rewrite f_log;
    try apply f_faults;
    (etrans; [apply (f_same_db (set_db_faults _ w))|apply f_faults]).
Qed.

Lemma keeps_uploadToS3 key body contentType : keeps f (uploadToS3 key body contentType).
Proof.
  unfold uploadToS3. apply keeps_bind; [apply keeps_call|]. intros _ w.
  destruct (s3_up w); [apply keeps_logger|].
  apply (keeps_bind (logger _ _ _) (fun _ => throw _)); [apply keeps_logger|done].
Qed.

Lemma keeps_deletePuzzleAssets E imageUrl : keeps f (deletePuzzleAssets E imageUrl).
Proof.
  unfold deletePuzzleAssets. case_match; [apply keeps_ret|].
  apply keeps_bind; [apply keeps_call|]. intros _ w.
  destruct (s3_up w); apply keeps_logger.
Qed.

Lemma keeps_extract_pieces E resized side pieceSize :
  keeps f (extract_pieces E resized side pieceSize).
Proof.
  unfold extract_pieces. apply keeps_bind; [|intros ?; apply keeps_ret].
  apply keeps_for_each. intros row. apply keeps_for_each. intros col.
  unfold extract_piece. apply keeps_bind; [apply keeps_call|]. intros _.
  apply keeps_bind; [apply keeps_lift_outcome|]. intros ?. apply keeps_ret.
Qed.

Lemma keeps_generateImagePuzzle E now imageBuffer gridSize :
  keeps f (generateImagePuzzle E now imageBuffer gridSize).
Proof.
  unfold generateImagePuzzle. apply keeps_try_catch.
  2: { intros e. apply keeps_bind; [apply keeps_logger|]. intros _. apply keeps_throw. }
  apply keeps_bind; [apply keeps_if; [apply keeps_throw|apply keeps_ret]|]. intros _.
  apply keeps_bind; [apply keeps_if; [apply keeps_throw|apply keeps_ret]|]. intros _.
  apply keeps_bind; [apply keeps_logger|]. intros _.
  apply keeps_bind; [apply keeps_call|]. intros _.
  apply keeps_bind; [apply keeps_lift_outcome|]. intros resized.
  apply keeps_bind; [apply keeps_draw_uuid|]. intros id.
  apply keeps_bind; [apply keeps_uploadToS3|]. intros _.
  apply keeps_bind; [apply keeps_extract_pieces|]. intros extracted.
  apply keeps_bind.
  { apply keeps_for_each. intros i.
    apply keeps_bind; [apply keeps_draw_uuid|]. intros ?. apply keeps_ret. }
  intros pieceKeys.
  apply keeps_bind; [apply keeps_shuffleArray|]. intros shuffled.
  apply keeps_bind; [apply keeps_calculateDifficulty|]. intros difficulty.
  apply keeps_bind; [apply keeps_logger|]. intros _. apply keeps_ret.
Qed.

Lemma keeps_assign key shared g t : keeps f (TaskService.assign key shared g t).
Proof.
  unfold TaskService.assign. apply keeps_bind; [|intros _; apply keeps_ret].
  apply keeps_if; [apply keeps_mutate_in_memory|apply keeps_ret].
Qed.

Lemma keeps_getTask E taskId userId : keeps f (TaskService.getTask E taskId userId).
Proof.
  unfold TaskService.getTask.
  apply keeps_bind; [apply keeps_cache_get|]. intros cached.
  apply keeps_bind.
  { destruct cached as [task|]; [apply keeps_ret|].
    apply keeps_bind; [apply keeps_query_select|]. intros [|task rest];
      [apply keeps_throw|].
    apply keeps_bind; [apply keeps_cache_set|]. intros ?. apply keeps_ret. }
  intros [task shared].
  apply keeps_bind.
  { destruct userId as [user|]; [|apply keeps_ret].
    apply keeps_if; [apply keeps_ret|].
    apply keeps_bind; [apply keeps_query_select|]. intros ?. apply keeps_assign. }
  intros task'.
  apply keeps_if; [|apply keeps_ret].
  apply keeps_bind; [apply keeps_lift_outcome|]. intros ?.
  apply keeps_bind; [apply keeps_lift_outcome|]. intros ?. apply keeps_assign.
Qed.

End keeps.

End FrameFacts.

(* ===================================================================== *)
(** ** [getTask] and the object it shares with the cache                  *)
(* ===================================================================== *)

Module CachedTaskFacts.
Import MonadFacts QueryFacts FrameFacts TaskService GetTaskFacts.

Lemma cache_get_ok_inv key w cached w1 :
  redis_up w = true ->
  Cache.get key w = (Ok cached, w1) ->
  redis_up w1 = true ∧ db w1 = db w ∧ db_faults w1 = db_faults w
  ∧ match cached with
    | Some t => memoryCache w1 !! key = Some t
    | None => memoryCache w !! key = None ∧ redis w !! key = None ∧ w1 = w
    end.
Proof.
  intros Hup. unfold Cache.get. rewrite Hup.
  destruct (memoryCache w !! key) as [t|] eqn:Hmem.
  - intros [= <- <-]. done.
  - destruct (redis w !! key) as [t|] eqn:Hredis; intros [= <- <-].
    + autorewrite with memory_tier. repeat split; try done. apply lookup_setMemory.
    + done.
Qed.

Lemma assign_shared_ok_inv key f t w t' w' :
  memoryCache w !! key = Some t ->
  assign key true f t w = (Ok t', w') ->
  t' = f t ∧ memoryCache w' !! key = Some t' ∧ redis_up w' = redis_up w.
Proof.
  intros Hmem. unfold assign, bind, Cache.mutate_in_memory, ret. intros [= <- <-].
  split; [done|]. split; [|done]. simpl. by rewrite lookup_alter_eq, Hmem.
Qed.

(** The aliasing between [getTask] and the memory tier.  When Redis
    accepts writes, the task object that a successful [getTask] returns is
    the object the memory tier holds under the key of the task: the
    assignments of [user_attempt] and of the parsed configuration are made
    to the cached object. *)
Lemma getTask_returns_cached_object E taskId userId w task w' :
  redis_up w = true ->
  getTask E taskId userId w = (Ok task, w') ->
  memoryCache w' !! cache_key taskId = Some task ∧ redis_up w' = true.
Proof.
  intros Hup. unfold getTask. intros H.
  apply bind_ok_inv in H as (cached & w1 & Hget & H).
  apply cache_get_ok_inv in Hget as (Hup1 & _ & _ & Hcached); [|done].
  apply bind_ok_inv in H as ([task0 shared] & w2 & Hfound & H).
  assert (Hinv : memoryCache w2 !! cache_key taskId = Some task0
                 ∧ shared = true ∧ redis_up w2 = true).
  { destruct cached as [t|].
    - by injection Hfound as <- <- <-.
    - destruct Hcached as (_ & _ & ->).
      apply bind_ok_inv in Hfound as (result & w3 & Hq & Hfound).
      assert (Hup3 : redis_up w3 = true).
      { pose proof (keeps_query_select redis_up (fun _ _ => eq_refl) (fun _ _ => eq_refl)
                      (fun _ => eq_refl) (select_task_details taskId) w) as Hk.
        rewrite Hq in Hk. simpl in Hk. by rewrite Hk. }
      destruct result as [|t rest]; [discriminate Hfound|].
      apply bind_ok_inv in Hfound as (stored & w4 & Hset & Hfound).
      injection Hfound as <- <- <-.
      unfold Cache.set in Hset. rewrite Hup3 in Hset. injection Hset as <- <-.
      autorewrite with memory_tier. split; [apply lookup_setMemory|done]. }
  destruct Hinv as (Hmem2 & -> & Hup2).
  apply bind_ok_inv in H as (task1 & w3 & Hattempt & H).
  assert (Hinv : memoryCache w3 !! cache_key taskId = Some task1 ∧ redis_up w3 = true).
  { destruct userId as [user|]; [|by injection Hattempt as <- <-].
    destruct (String.eqb user ""); [by injection Hattempt as <- <-|].
    apply bind_ok_inv in Hattempt as (attemptResult & w4 & Hq & Hattempt).
    pose proof (keeps_query_select redis_up (fun _ _ => eq_refl) (fun _ _ => eq_refl)
                  (fun _ => eq_refl) (select_user_attempt taskId user) w2) as Hk.
    pose proof (keeps_query_select memoryCache (fun _ _ => eq_refl) (fun _ _ => eq_refl)
                  (fun _ => eq_refl) (select_user_attempt taskId user) w2) as Hm.
    rewrite Hq in Hk, Hm. simpl in Hk, Hm.
    apply assign_shared_ok_inv in Hattempt as (_ & ? & Hup4); [|by rewrite Hm].
    split; [done|]. by rewrite Hup4, Hk. }
  destruct Hinv as (Hmem3 & Hup3).
  destruct (truthy (puzzle_config task1)).
  - apply bind_ok_inv in H as (parsed & w4 & Hparse & H).
    apply bind_ok_inv in H as (stripped & w5 & Hdelete & H).
    injection Hparse as _ <-. injection Hdelete as _ <-.
    apply assign_shared_ok_inv in H as (_ & ? & Hup4); [|done].
    split; [done|]. by rewrite Hup4.
  - by injection H as <- <-.
Qed.

Lemma query_select_ok_inv {A} (g : database -> A) w a w' :
  query (select g) w = (Ok a, w') -> a = g (db w) ∧ db w' = db w.
Proof.
  rewrite query_run. unfold select.
  destruct (db_faults w) as [|[|] rest]; intros [= <- <-]; done.
Qed.

Lemma cache_get_hit key t w :
  memoryCache w !! key = Some t -> Cache.get key w = (Ok (Some t), w).
Proof. intros H. unfold Cache.get. by rewrite H. Qed.

(** X10.  Reading a task twice.  [getTask] leaves the parsed configuration in
    the object held by the memory tier, and the next [getTask] that finds
    this object passes the configuration to [JSON.parse] again.  So, with
    Redis accepting writes and a [JSON.parse] that rejects the parsed
    configuration (as it rejects every object), a successful [getTask]
    that returned a configuration is followed, for any reader, by a
    [getTask] that throws the SyntaxError of [JSON.parse] (as long as the
    entry is in the memory tier and the reader's attempt can be read). *)
Theorem getTask_second_read_throws E taskId userId reader w task w' :
  redis_up w = true ->
  getTask E taskId userId w = (Ok task, w') ->
  truthy (puzzle_config task) = true ->
  JSON_parse E (puzzle_config task) = None ->
  head (db_faults w') <> Some true ->
  (getTask E taskId reader w').1 = Throw (SyntaxError "Unexpected token in JSON").
Proof.
  intros Hup Hrun Htruthy Hparse Hfaults.
  destruct (getTask_returns_cached_object _ _ _ _ _ _ Hup Hrun) as (Hmem & _).
  unfold getTask.
  erewrite bind_run_ok; [|by apply cache_get_hit].
  erewrite bind_run_ok; [|reflexivity]. cbv beta iota.
  assert (Hfail : forall t w1, puzzle_config t = puzzle_config task ->
            ((if truthy (puzzle_config t)
              then puzzleConfig <- lift_outcome (parse_JSON E (puzzle_config t)) ;;
                   puzzleConfig <- lift_outcome (delete_property "correct_solution" puzzleConfig) ;;
                   assign (cache_key taskId) true (set_puzzle_config puzzleConfig) t
              else ret t) w1).1 = Throw (SyntaxError "Unexpected token in JSON")).
  { intros t w1 ->. rewrite Htruthy. unfold bind, lift_outcome, parse_JSON.
    by rewrite Hparse. }
  destruct reader as [user|]; [|by erewrite bind_run_ok; [apply Hfail|reflexivity] ].
  destruct (String.eqb user ""); [by erewrite bind_run_ok; [apply Hfail|reflexivity] |].
  erewrite bind_run_ok; [apply Hfail|]; [|
    erewrite bind_run_ok; [|by apply query_select]; reflexivity ].
  done.
Qed.

Lemma getTask_second_read_throws_witness :
  (getTask Sample.E "task-1" None
     (getTask Sample.E "task-1" (Some "player-1") Sample.active_world).2).1
  = Throw (SyntaxError "Unexpected token in JSON").
Proof.
  apply (getTask_second_read_throws Sample.E "task-1" (Some "player-1") None
           Sample.active_world sample_task).
  - reflexivity.
  - rewrite <- sample_getTask. apply surjective_pairing.
  - reflexivity.
  - reflexivity.
  - vm_compute. discriminate.
Defined.

(** X11.  The member [user_attempt] outlives the request.  It is assigned to the
    object held by the memory tier, so when the task has no configuration
    (nothing is parsed), a reader without a user id who comes next is
    handed the very object returned to the previous reader, with that
    reader's [user_attempt]. *)
Theorem getTask_keeps_previous_user_attempt E taskId user w task w' :
  redis_up w = true ->
  getTask E taskId (Some user) w = (Ok task, w') ->
  truthy (puzzle_config task) = false ->
  getTask E taskId None w' = (Ok task, w')
  ∧ (user <> "" ->
     user_attempt task = Some (head (select_user_attempt taskId user (db w)))).
Proof.
  intros Hup Hrun Hfalsy.
  destruct (getTask_returns_cached_object _ _ _ _ _ _ Hup Hrun) as (Hmem & _).
  split.
  - unfold getTask.
    erewrite bind_run_ok; [|by apply cache_get_hit].
    erewrite bind_run_ok; [|reflexivity]. cbv beta iota.
    erewrite bind_run_ok; [|reflexivity]. by rewrite Hfalsy.
  - intros Huser. unfold getTask in Hrun.
    apply bind_ok_inv in Hrun as (cached & w1 & Hget & H).
    apply bind_ok_inv in H as ([task0 shared] & w2 & Hfound & H).
    apply bind_ok_inv in H as (task1 & w3 & Hattempt & H).
    assert (Hdb : db w2 = db w).
    { pose proof (keeps_cache_get db (fun _ _ => eq_refl) (fun _ _ _ => eq_refl)
                    (fun _ _ => eq_refl)
                    (cache_key taskId) w) as Hk1.
      rewrite Hget in Hk1. simpl in Hk1. rewrite <- Hk1.
      destruct cached as [t|]; [by injection Hfound as _ _ <-|].
      apply bind_ok_inv in Hfound as (result & w5 & Hq & Hfound).
      apply query_select_ok_inv in Hq as [_ <-].
      destruct result as [|t rest]; [discriminate Hfound|].
      apply bind_ok_inv in Hfound as (stored & w6 & Hset & Hfound).
      injection Hfound as _ _ <-.
      pose proof (keeps_cache_set db (fun _ _ => eq_refl) (fun _ _ _ => eq_refl)
                    (fun _ _ => eq_refl)
                    (cache_key taskId) t w5) as Hk2.
      rewrite Hset in Hk2. done. }
    apply String.eqb_neq in Huser. rewrite Huser in Hattempt.
    apply bind_ok_inv in Hattempt as (rows & w4 & Hq & Hattempt).
    apply query_select_ok_inv in Hq as [-> _]. rewrite Hdb in *.
    apply assign_ok_inv in Hattempt as ->.
    set (rows := select_user_attempt taskId user (db w)) in *.
    destruct (truthy (puzzle_config (set_user_attempt (head rows) task0))).
    + apply bind_ok_inv in H as (parsed & w5 & _ & H).
      apply bind_ok_inv in H as (stripped & w6 & _ & H).
      by apply assign_ok_inv in H as ->.
    + by injection H as <- _.
Qed.

(** A store whose task has no configuration and one attempt by player-1. *)
Definition plain_task_world : world :=
  Sample.boot
    (Sample.store [set_row_puzzle_config VNull (Sample.pizza "active" None)]
       [ {| a_id := "attempt-1"; a_task_id := "task-1"; a_user_id := "player-1";
            a_started_at := 1699999955000; a_completed_at := 1700000000000;
            a_time_taken_seconds := 45; a_is_successful := true;
            a_difficulty_multiplier := 1 |} ] [])
    [].

Definition plain_task : task :=
  Eval vm_compute in
    match (getTask Sample.E "task-1" (Some "player-1") plain_task_world).1 with
    | Ok t => t
    | Throw _ => task_of_row (Sample.pizza "active" None)
    end.

Lemma plain_getTask :
  (getTask Sample.E "task-1" (Some "player-1") plain_task_world).1 = Ok plain_task.
Proof. vm_compute. reflexivity. Qed.

Lemma getTask_keeps_previous_user_attempt_witness :
  (getTask Sample.E "task-1" None
     (getTask Sample.E "task-1" (Some "player-1") plain_task_world).2).1 = Ok plain_task
  ∧ user_attempt plain_task
    = Some (Some {| av_id := "attempt-1"; av_is_successful := true;
                    av_time_taken_seconds := 45 |}).
Proof.
  split; [|reflexivity].
  destruct (getTask_keeps_previous_user_attempt Sample.E "task-1" "player-1"
              plain_task_world plain_task
              (getTask Sample.E "task-1" (Some "player-1") plain_task_world).2)
    as [H _].
  - reflexivity.
  - rewrite <- plain_getTask. apply surjective_pairing.
  - reflexivity.
  - by rewrite H.
Defined.

(** X12.  [getTask] only reads: whatever the caches hold and whether or not the
    statements are delivered, it leaves the store as it was and calls
    neither sharp nor S3. *)
Theorem getTask_read_only E taskId userId w :
  db (getTask E taskId userId w).2 = db w
  ∧ calls (getTask E taskId userId w).2 = calls w.
Proof.
  split.
  - by apply (keeps_getTask db).
  - by apply (keeps_getTask calls).
Qed.

(** X13.  A task that is in neither tier of the cache and has no row in [tasks]
    is reported with NotFoundError, and nothing is put in the cache. *)
Theorem getTask_not_found E taskId userId w :
  memoryCache w !! cache_key taskId = None ->
  (redis_up w = true -> redis w !! cache_key taskId = None) ->
  head (db_faults w) <> Some true ->
  ¬ Exists (fun t => t_id t = taskId) (tasks (db w)) ->
  (getTask E taskId userId w).1 = Throw (NotFoundError "Task not found")
  ∧ memoryCache (getTask E taskId userId w).2 = memoryCache w
  ∧ redis (getTask E taskId userId w).2 = redis w.
Proof.
  intros Hmem Hredis Hfaults Hnone.
  assert (Hsel : select_task_details taskId (db w) = []).
  { unfold select_task_details.
    assert (Hnil : filter (fun t => t_id t = taskId) (tasks (db w)) = [])
      by by apply filter_nil_iff.
    by rewrite Hnil. }
  unfold getTask, bind, Cache.get. rewrite Hmem.
  destruct (redis_up w) eqn:Hup.
  - rewrite Hredis by done. rewrite query_select by done. by rewrite Hsel.
  - simpl. rewrite query_select by done. simpl. by rewrite Hsel.
Qed.

Lemma getTask_not_found_witness :
  (getTask Sample.E "task-9" None Sample.active_world).1
  = Throw (NotFoundError "Task not found").
Proof.
  apply (getTask_not_found Sample.E "task-9" None Sample.active_world).
  - reflexivity.
  - reflexivity.
  - vm_compute. discriminate.
  - intros H. apply Exists_cons in H as [H|H]; [discriminate H|by apply Exists_nil in H].
Defined.

End CachedTaskFacts.

(* ===================================================================== *)
(** ** The two-tier cache                                                 *)
(* ===================================================================== *)

Module CacheFacts.
Import MonadFacts.

(** [get] with Redis answering: the memory tier first, then Redis. *)
Lemma get_result key w :
  redis_up w = true ->
  (Cache.get key w).1
  = Ok match memoryCache w !! key with Some t => Some t | None => redis w !! key end.
Proof.
  intros Hup. unfold Cache.get. rewrite Hup.
  destruct (memoryCache w !! key); [done|]. by destruct (redis w !! key).
Qed.

(** What [evict] leaves in the memory tier. *)
Lemma memoryCache_evict w :
  memoryCache (Cache.evict w)
  = if memoryCacheMaxSize w <=? Z.of_nat (size (memoryCache w))
    then match memoryOrder w with
         | [] => memoryCache w
         | firstKey :: _ => delete firstKey (memoryCache w)
         end
    else memoryCache w.
Proof. unfold Cache.evict. by repeat case_match. Qed.

Lemma set_result key t w :
  redis_up w = true ->
  redis_up (Cache.set key t w).2 = true
  ∧ redis (Cache.set key t w).2 = <[key := t]> (redis w)
  ∧ memoryCache (Cache.set key t w).2 = <[key := t]> (memoryCache (Cache.evict w)).
Proof.
  intros Hup. unfold Cache.set. rewrite Hup. cbn [snd].
  autorewrite with memory_tier. split; [done|]. split; [done|].
  unfold Cache.setMemory. cbn. by rewrite !memoryCache_evict.
Qed.

Lemma del_result key w :
  redis_up w = true ->
  redis_up (Cache.del key w).2 = true
  ∧ redis (Cache.del key w).2 = delete key (redis w)
  ∧ memoryCache (Cache.del key w).2 = delete key (memoryCache w).
Proof. intros Hup. unfold Cache.del. by rewrite Hup. Qed.

(** X14.  With Redis answering, an entry that was set is read back; after
    [del] it is read from neither tier; deleting one key does not change
    what is read under another key, and neither does setting one while
    the memory tier holds fewer than [memoryCacheMaxSize] entries or the
    other key is not the oldest key of the memory tier.  When the memory
    tier is full, [set] removes its oldest key from it, and that key is
    then read from Redis. *)
Theorem cache_set_get_del key t w :
  redis_up w = true ->
  (Cache.get key (Cache.set key t w).2).1 = Ok (Some t)
  ∧ (Cache.get key (Cache.del key w).2).1 = Ok None
  ∧ (Cache.get key (Cache.del key (Cache.set key t w).2).2).1 = Ok None
  ∧ (forall other, other <> key ->
       (Cache.get other (Cache.del key w).2).1 = (Cache.get other w).1
       ∧ (Z.of_nat (size (memoryCache w)) < memoryCacheMaxSize w
          ∨ head (memoryOrder w) <> Some other ->
          (Cache.get other (Cache.set key t w).2).1 = (Cache.get other w).1)
       ∧ (memoryCacheMaxSize w <= Z.of_nat (size (memoryCache w)) ->
          head (memoryOrder w) = Some other ->
          memoryCache (Cache.set key t w).2 !! other = None
          ∧ (Cache.get other (Cache.set key t w).2).1 = Ok (redis w !! other))).
Proof.
  intros Hup.
  destruct (set_result key t w Hup) as (Hup1 & Hredis1 & Hmem1).
  destruct (del_result key w Hup) as (Hup2 & Hredis2 & Hmem2).
  destruct (del_result key (Cache.set key t w).2 Hup1) as (Hup3 & Hredis3 & Hmem3).
  rewrite !get_result by done.
  rewrite Hmem1, Hmem2, Hmem3, Hredis1, Hredis2, Hredis3.
  rewrite !lookup_insert_eq, !lookup_delete_eq.
  split; [done|]. split; [done|]. split; [done|].
  intros other Hother. rewrite !get_result by done.
  rewrite Hmem1, Hmem2, Hredis1, Hredis2. split; [|split].
  - by rewrite !lookup_delete_ne by done.
  - intros Hroom. rewrite !lookup_insert_ne by done.
    rewrite memoryCache_evict.
    destruct (memoryCacheMaxSize w <=? Z.of_nat (size (memoryCache w))) eqn:Hfull; [|done].
    destruct (memoryOrder w) as [|firstKey rest]; [done|].
    rewrite lookup_delete_ne; [done|].
    intros ->. apply Z.leb_le in Hfull. destruct Hroom as [Hroom|Hroom]; [lia|].
    by apply Hroom.
  - intros Hfull Hfirst. rewrite !lookup_insert_ne by done.
    rewrite memoryCache_evict. rewrite (proj2 (Z.leb_le _ _) Hfull).
    destruct (memoryOrder w) as [|firstKey rest]; [discriminate Hfirst|].
    injection Hfirst as ->. by rewrite lookup_delete_eq.
Qed.

(** A memory tier of two entries that is full. *)
Definition full_world : world :=
  {| db := Sample.store [Sample.pizza "active" None] [] []; db_faults := [];
     memoryCache := {[ "task:task-1" := task_of_row (Sample.pizza "active" None);
                       "task:task-2" := task_of_row (Sample.pizza "draft" None) ]};
     memoryOrder := ["task:task-1"; "task:task-2"]; memoryCacheMaxSize := 2;
     redis := ∅; redis_up := true; s3_up := true; calls := []; log := [];
     uuids_drawn := 0; randoms_drawn := 0 |}.

Lemma cache_set_get_del_witness :
  (Cache.get "task:task-3"
     (Cache.set "task:task-3" (task_of_row (Sample.pizza "active" None)) full_world).2).1
  = Ok (Some (task_of_row (Sample.pizza "active" None)))
  ∧ (Cache.get "task:task-1" full_world).1
    = Ok (Some (task_of_row (Sample.pizza "active" None)))
  ∧ (Cache.get "task:task-1"
       (Cache.set "task:task-3" (task_of_row (Sample.pizza "active" None)) full_world).2).1
    = Ok None.
Proof.
  destruct (cache_set_get_del "task:task-3" (task_of_row (Sample.pizza "active" None))
              full_world eq_refl) as (Hget & _ & _ & Hother).
  split; [exact Hget|]. split; [reflexivity|].
  destruct (Hother "task:task-1") as (_ & _ & Hevicted); [discriminate|].
  destruct Hevicted as [_ Hread]; [vm_compute; discriminate|reflexivity|].
  exact Hread.
Defined.

(** X15.  With Redis down nothing is written or removed: [set] and [del] report
    [false] without throwing, and [del] does not reach the memory tier, so
    an entry held there is still read afterwards. *)
Theorem cache_del_redis_down key t w :
  redis_up w = false ->
  memoryCache w !! key = Some t ->
  (Cache.del key w).1 = Ok false
  ∧ memoryCache (Cache.del key w).2 = memoryCache w
  ∧ (Cache.get key (Cache.del key w).2).1 = Ok (Some t)
  ∧ forall t', (Cache.set key t' w).1 = Ok false
               ∧ (Cache.get key (Cache.set key t' w).2).1 = Ok (Some t).
Proof.
  intros Hdown Hmem. destruct w as [d f mem order max red up s3 c l u r].
  simpl in Hdown, Hmem.
  subst up. unfold Cache.get, Cache.set, Cache.del. cbn. by rewrite Hmem.
Qed.

(** A world in which Redis is down and the memory tier holds the task. *)
Definition redis_down_world : world :=
  {| db := Sample.store [Sample.pizza "active" None] [] []; db_faults := [];
     memoryCache := {[ "task:task-1" := task_of_row (Sample.pizza "active" None) ]};
     memoryOrder := ["task:task-1"]; memoryCacheMaxSize := 1000;
     redis := ∅; redis_up := false; s3_up := true; calls := []; log := [];
     uuids_drawn := 0; randoms_drawn := 0 |}.

Lemma cache_del_redis_down_witness :
  (Cache.get "task:task-1" (Cache.del "task:task-1" redis_down_world).2).1
  = Ok (Some (task_of_row (Sample.pizza "active" None))).
Proof.
  refine (proj1 (proj2 (proj2 (cache_del_redis_down "task:task-1"
            (task_of_row (Sample.pizza "active" None)) redis_down_world eq_refl _)))).
  apply lookup_singleton_eq.
Defined.

End CacheFacts.

(* ===================================================================== *)
(** ** [recordAttempt]: the counters and the one attempt per player       *)
(* ===================================================================== *)

Module LedgerFacts.
Import MonadFacts QueryFacts TaskService AttemptFacts.

(** How far the counters of a task are ahead of its attempt rows. *)
Definition surplus (d : database) (t : task_row) : Z * Z :=
  (t_attempt_count t - Z.of_nat (length (attempts_of (t_id t) d)),
   t_conversion_count t - Z.of_nat (length (successful_attempts_of (t_id t) d))).

Lemma surplus_same_rows d d' t t' :
  task_attempts d' = task_attempts d -> t_id t' = t_id t ->
  t_attempt_count t' = t_attempt_count t -> t_conversion_count t' = t_conversion_count t ->
  surplus d' t' = surplus d t.
Proof.
  intros Hrows Hid Ha Hc. unfold surplus, successful_attempts_of, attempts_of.
  by rewrite Hrows, Hid, Ha, Hc.
Qed.

Lemma fmap_pair_ext {A B C} (f g : A -> B) (h k : A -> C) (l1 l2 : list A) :
  f <$> l1 = g <$> l2 -> h <$> l1 = k <$> l2 ->
  (fun x => (f x, h x)) <$> l1 = (fun x => (g x, k x)) <$> l2.
Proof.
  revert l2. induction l1 as [|x l1 IH]; intros [|y l2]; try done.
  rewrite !fmap_cons. intros [= Hf Hfs] [= Hh Hhs]. by rewrite Hf, Hh, (IH l2).
Qed.

(** The INSERT with its trigger keeps the counters as far ahead as they
    were. *)
Lemma surplus_after_insert a d attempt d1 :
  insert_task_attempt a d = (Ok attempt, d1) ->
  surplus d1 <$> tasks d1 = surplus d <$> tasks d.
Proof.
  intros Hins. apply insert_task_attempt_inv in Hins
    as (Hrows & Htask & _ & Hok & Htasks & _).
  rewrite Htasks, <- list_fmap_compose. apply list_fmap_ext. intros i t _. simpl.
  unfold surplus, successful_attempts_of, attempts_of. rewrite Hrows, !filter_app.
  rewrite (filter_cons _ attempt), filter_nil.
  case_bool_decide as Hid.
  - cbn [count_attempt t_id t_attempt_count t_conversion_count].
    rewrite decide_True by congruence. rewrite filter_cons, filter_nil.
    rewrite <- Hok. destruct (a_is_successful attempt).
    + rewrite decide_True by done. rewrite !length_app. simpl length. f_equal; lia.
    + rewrite decide_False by done. rewrite !length_app. simpl length. f_equal; lia.
  - rewrite decide_False by congruence. by rewrite !app_nil_r.
Qed.

(** The UPDATE of the service puts the counters of the task one further
    ahead. *)
Lemma surplus_after_update successful taskId d d2 :
  update_task_statistics successful taskId d = (Ok tt, d2) ->
  surplus d2 <$> tasks d2
  = (fun t => if bool_decide (t_id t = taskId)
              then ((surplus d t).1 + 1, (surplus d t).2 + (if successful then 1 else 0))
              else surplus d t) <$> tasks d.
Proof.
  unfold update_task_statistics.
  destruct (update_counters _ _ _) as [d'|] eqn:Hupd; [|discriminate]. intros [= <-].
  apply update_counters_inv in Hupd as ->. cbn [tasks with_tasks].
  rewrite <- list_fmap_compose. apply list_fmap_ext. intros i t _. simpl.
  case_bool_decide as Hid; [|done].
  unfold surplus, successful_attempts_of, attempts_of.
  cbn [bump_counters t_id t_attempt_count t_conversion_count task_attempts with_tasks
       fst snd].
  f_equal; [lia|]. destruct successful; lia.
Qed.

(** X16.  The counters run ahead of the attempt rows.  With every statement
    delivered, a [recordAttempt] that returns has counted the new attempt
    twice, in the trigger of the INSERT and in the UPDATE of the service:
    the difference between [attempt_count] and the number of attempt rows
    of the task has grown by exactly 1, and so has the difference between
    [conversion_count] and the number of successful rows when the attempt
    is successful; the differences of the other tasks are as before.  A
    [recordAttempt] that throws leaves all these differences as they
    were.  So counters that equal the aggregates before a call that
    returns do not equal them after it. *)
Theorem recordAttempt_counts_twice now new_id taskId userId attemptData w :
  db_faults w = [] ->
  let r := recordAttempt now new_id taskId userId attemptData w in
  surplus (db r.2) <$> tasks (db r.2)
  = (fun t => if is_ok r.1 && bool_decide (t_id t = taskId)
              then ((surplus (db w) t).1 + 1,
                    (surplus (db w) t).2 + (if is_successful attemptData then 1 else 0))
              else surplus (db w) t) <$> tasks (db w)
  ∧ (Formula.counters_consistent (db w) -> is_ok r.1 = true ->
     ¬ Formula.counters_consistent (db r.2)).
Proof.
  intros Hf r.
  assert (Hsurplus :
    surplus (db r.2) <$> tasks (db r.2)
    = (fun t => if is_ok r.1 && bool_decide (t_id t = taskId)
                then ((surplus (db w) t).1 + 1,
                      (surplus (db w) t).2 + (if is_successful attemptData then 1 else 0))
                else surplus (db w) t) <$> tasks (db w)
    ∧ (is_ok r.1 = true -> Exists (fun t => t_id t = taskId) (tasks (db w)))).
  { subst r.
    destruct (recordAttempt_no_faults now new_id taskId userId attemptData w Hf)
      as (w' & Hrun & Hdb & _).
    rewrite Hrun. cbn [fst snd]. rewrite Hdb. clear Hrun Hdb w'.
    unfold recordAttempt_delivered.
    destruct (negb _); [done|].
    destruct (select_task_with_status _ _ _) as [|task rest] eqn:Hsel; [done|].
    assert (Hexists : Exists (fun t => t_id t = taskId) (tasks (db w))).
    { assert (Hin : task ∈ select_task_with_status taskId "active" (db w))
        by (rewrite Hsel; apply list_elem_of_here).
      apply list_elem_of_filter in Hin as [[Hid _] Hin]. apply Exists_exists. eauto. }
    destruct (expired now task); [done|].
    destruct (insert_task_attempt _ (db w)) as [[attempt|e] d1] eqn:Hins.
    - pose proof (surplus_after_insert _ _ _ _ Hins) as H1.
      destruct (update_task_statistics _ _ d1) as [[[]|e] d2] eqn:Hupd; cbn [fst snd is_ok].
      + split; [|done]. rewrite (surplus_after_update _ _ _ _ Hupd).
        cbn [andb].
        apply insert_task_attempt_inv in Hins as (_ & _ & _ & _ & Htasks & _).
        assert (Hids : t_id <$> tasks d1 = t_id <$> tasks (db w))
          by (rewrite Htasks; by apply counted_ids).
        set (G := fun p : uuid * (Z * Z) =>
                    if bool_decide (p.1 = taskId)
                    then (p.2.1 + 1, p.2.2 + (if is_successful attemptData then 1 else 0))
                    else p.2).
        trans (G <$> ((fun t => (t_id t, surplus d1 t)) <$> tasks d1)).
        { rewrite <- list_fmap_compose. by apply list_fmap_ext. }
        trans (G <$> ((fun t => (t_id t, surplus (db w) t)) <$> tasks (db w))).
        { f_equal. by apply fmap_pair_ext. }
        rewrite <- list_fmap_compose. by apply list_fmap_ext.
      + split; [|done].
        apply update_task_statistics_inv in Hupd as (_ & _ & _ & Hsame).
        rewrite (Hsame eq_refl), H1. done.
    - apply insert_task_attempt_failed in Hins as ->. done. }
  destruct Hsurplus as [Hsurplus Hexists]. split; [done|].
  intros Hc Hok Hc'. specialize (Hexists Hok). rewrite Hok in Hsurplus. cbn [andb] in Hsurplus.
  assert (Hzero : forall d, Formula.counters_consistent d ->
            Forall (fun s => s = (0, 0)) (surplus d <$> tasks d)).
  { intros d Hd. apply Forall_fmap. eapply Forall_impl; [exact Hd|].
    intros t [Ha Hs]. simpl. unfold surplus. f_equal; lia. }
  pose proof (Hzero _ Hc') as Hafter. rewrite Hsurplus in Hafter.
  apply Exists_exists in Hexists as (t & Ht & Hid).
  rewrite Forall_fmap, Forall_forall in Hafter. specialize (Hafter t Ht).
  unfold compose in Hafter. cbv beta in Hafter.
  rewrite bool_decide_eq_true_2 in Hafter by done.
  pose proof (Hzero _ Hc) as Hbefore.
  rewrite Forall_fmap, Forall_forall in Hbefore. specialize (Hbefore t Ht).
  unfold compose in Hbefore. cbv beta in Hbefore.
  rewrite Hbefore in Hafter. cbn [fst snd] in Hafter. injection Hafter as Hafter _.
  discriminate Hafter.
Qed.

Lemma recordAttempt_counts_twice_witness :
  let r := recordAttempt 1700000000000 "attempt-1" "task-1" "player-1" Sample.attempt_ok
             Sample.active_world in
  surplus (db Sample.active_world) <$> tasks (db Sample.active_world) = [(0, 0)]
  ∧ surplus (db r.2) <$> tasks (db r.2) = [(1, 1)].
Proof.
  cbv zeta. split; [reflexivity|].
  destruct (recordAttempt_counts_twice 1700000000000 "attempt-1" "task-1" "player-1"
              Sample.attempt_ok Sample.active_world eq_refl) as [H _].
  rewrite H. vm_compute. reflexivity.
Defined.

Lemma query_ok_inv {A} (s : statement A) w a w' :
  query s w = (Ok a, w') ->
  exists d', s (db w) = (Ok a, d') ∧ db w' = d'.
Proof.
  rewrite query_run.
  destruct (db_faults w) as [|[|] rest]; try discriminate;
    destruct (s (db w)) as [[a'|e] d']; intros [= <- <-]; eauto.
Qed.

(** What a successful [recordAttempt] has left in the store, whatever
    happened to the statements of other requests. *)
Lemma recordAttempt_ok_inv now new_id taskId userId attemptData w attempt w' :
  recordAttempt now new_id taskId userId attemptData w = (Ok attempt, w') ->
  a_task_id attempt = taskId ∧ a_user_id attempt = userId
  ∧ task_attempts (db w') = task_attempts (db w) ++ [attempt].
Proof.
  unfold recordAttempt. intros H.
  apply bind_ok_inv in H as (existing & w1 & Hq1 & H).
  apply query_ok_inv in Hq1 as (d1 & [= _ <-] & Hd1).
  apply bind_ok_inv in H as (u1 & w2 & Hc & H).
  assert (w2 = w1) as -> by (destruct (negb _); [discriminate Hc|by injection Hc]).
  apply bind_ok_inv in H as (found & w3 & Hq2 & H).
  apply query_ok_inv in Hq2 as (d2 & [= _ <-] & Hd2).
  destruct found as [|task rest]; [discriminate H|].
  apply bind_ok_inv in H as (u2 & w4 & Hc2 & H).
  fold (expired now task) in Hc2.
  assert (w4 = w3) as -> by (destruct (expired now task); [discriminate Hc2|by injection Hc2]).
  apply bind_ok_inv in H as (inserted & w5 & Hq3 & H).
  apply query_ok_inv in Hq3 as (d3 & Hins & Hd3).
  apply insert_task_attempt_inv in Hins as (Hrows & Htask & Huser & _).
  apply bind_ok_inv in H as (u3 & w6 & Hq4 & H).
  apply query_ok_inv in Hq4 as (d4 & Hupd & Hd4).
  apply update_task_statistics_inv in Hupd as (Hsame & _).
  apply bind_ok_inv in H as (b & w7 & Hdel & H).
  apply bind_ok_inv in H as (u4 & w8 & Hlog & H).
  injection H as <- <-. injection Hlog as <-.
  pose proof (cache_del_db (cache_key taskId) w6) as Hd7. rewrite Hdel in Hd7.
  split; [done|]. split; [done|]. cbn [snd] in Hd7. subst w8. cbn [db set_log].
  rewrite Hd7, Hd4, Hsame, Hd3, Hrows. by rewrite Hd2, Hd1.
Qed.

(** X17.  A player attempts a task at most once: after a [recordAttempt] that
    returned, every later [recordAttempt] for the same task and player
    whose first statement is delivered fails with ConflictError and leaves
    the store as it is. *)
Theorem recordAttempt_second_attempt_conflicts
    now new_id taskId userId attemptData w attempt w' now' new_id' attemptData' :
  recordAttempt now new_id taskId userId attemptData w = (Ok attempt, w') ->
  head (db_faults w') <> Some true ->
  (recordAttempt now' new_id' taskId userId attemptData' w').1
  = Throw (ConflictError "You have already attempted this task")
  ∧ db (recordAttempt now' new_id' taskId userId attemptData' w').2 = db w'.
Proof.
  intros Hrun Hf.
  apply recordAttempt_ok_inv in Hrun as (Htask & Huser & Hrows).
  unfold recordAttempt.
  erewrite bind_run_ok; [|by apply query_select].
  assert (Hsome : select_attempt_ids taskId userId (db w') <> []).
  { unfold select_attempt_ids. rewrite Hrows, filter_app, fmap_app.
    rewrite filter_cons, decide_True by done. simpl. by destruct (a_id <$> _). }
  rewrite bool_decide_eq_false_2 by done. done.
Qed.

Lemma recordAttempt_second_attempt_conflicts_witness :
  (recordAttempt 1700000060000 "attempt-2" "task-1" "player-1" Sample.attempt_ok
     (recordAttempt 1700000000000 "attempt-1" "task-1" "player-1" Sample.attempt_ok
        Sample.active_world).2).1
  = Throw (ConflictError "You have already attempted this task").
Proof.
  refine (proj1 (recordAttempt_second_attempt_conflicts 1700000000000 "attempt-1" "task-1"
                   "player-1" Sample.attempt_ok Sample.active_world
                   (stored_attempt
                      (attempt_row_of 1700000000000 "attempt-1" "task-1" "player-1"
                         Sample.attempt_ok) 1)
                   _ 1700000060000 "attempt-2" Sample.attempt_ok _ _)).
  - vm_compute. reflexivity.
  - vm_compute. discriminate.
Defined.

End LedgerFacts.

(* ===================================================================== *)
(** ** [deleteTask]: the transaction                                      *)
(* ===================================================================== *)

Module DeleteFacts.
Import MonadFacts QueryFacts FrameFacts TaskService.

Lemma client_query_update_run f w :
  client_query (update f) w
  = match db_faults w with
    | true :: rest => (Throw (DatabaseError connection_failure), set_db_faults rest w)
    | _ => (Ok tt, set_db (f (db w)) (set_db_faults (tail (db_faults w)) w))
    end.
Proof. unfold client_query, update. by destruct (db_faults w) as [|[|] rest]. Qed.

Lemma client_query_update_ok_inv f w u w' :
  client_query (update f) w = (Ok u, w') -> db w' = f (db w).
Proof.
  rewrite client_query_update_run.
  destruct (db_faults w) as [|[|] rest]; intros [= ? <-]; done.
Qed.

(** ROLLBACK: whatever is thrown inside [withTransaction], the store is
    put back to its state at BEGIN; a result is returned only after the
    callback and COMMIT went through. *)
Lemma withTransaction_run {A} (callback : M A) (F : database -> database) w :
  (forall w1 a w2, callback w1 = (Ok a, w2) -> db w2 = F (db w1)) ->
  (exists a, (withTransaction callback w).1 = Ok a
             ∧ db (withTransaction callback w).2 = F (db w))
  ∨ (exists e, (withTransaction callback w).1 = Throw e
               ∧ db (withTransaction callback w).2 = db w).
Proof.
  intros Hcb. unfold withTransaction, try_catch.
  destruct (bind (client_query (update id)) _ w) as [[a|e] w1] eqn:Hrun.
  - left. exists a. split; [done|].
    apply bind_ok_inv in Hrun as (u & w2 & Hbegin & Hrun).
    apply bind_ok_inv in Hrun as (a' & w3 & Hbody & Hrun).
    apply bind_ok_inv in Hrun as (u' & w4 & Hcommit & Hrun).
    injection Hrun as <- <-.
    apply client_query_update_ok_inv in Hbegin, Hcommit.
    apply Hcb in Hbody. simpl. by rewrite Hcommit, Hbody, Hbegin.
  - right. rewrite client_query_update_run.
    destruct (db_faults w1) as [|[|] rest]; eauto.
Qed.

Lemma withTransaction_no_faults {A} (callback : M A) w a w1 :
  db_faults w = [] ->
  callback (set_db (db w) w) = (Ok a, w1) -> db_faults w1 = [] ->
  withTransaction callback w = (Ok a, set_db (db w1) (set_db_faults [] w1)).
Proof.
  intros Hf Hbody Hf1. unfold withTransaction, try_catch.
  erewrite bind_run_ok; [|by rewrite client_query_update_run, Hf].
  assert (Hw : set_db (id (db w)) (set_db_faults (tail []) w) = set_db (db w) w).
  { unfold set_db, set_db_faults. simpl. by rewrite Hf. }
  rewrite Hw. erewrite bind_run_ok; [|exact Hbody].
  erewrite bind_run_ok; [|by rewrite client_query_update_run, Hf1]. done.
Qed.

(** The three DELETE statements of [deleteTask]. *)
Definition deletes (taskId : uuid) : M unit :=
  client_query (delete_from_task_attempts taskId) ;;;
  client_query (delete_from_user_rewards taskId) ;;;
  client_query (delete_from_tasks taskId).

Definition deleted (taskId : uuid) (d : database) : database :=
  delete_task_row taskId (delete_rewards_of_task taskId (delete_attempts_of_task taskId d)).

Lemma client_query_ok_inv {A} (s : statement A) w a w' :
  client_query s w = (Ok a, w') -> exists d', s (db w) = (Ok a, d') ∧ db w' = d'.
Proof.
  unfold client_query.
  destruct (db_faults w) as [|[|] rest]; try discriminate;
    cbn [db set_db_faults]; destruct (s (db w)) as [o d']; intros [= -> <-]; eauto.
Qed.

Lemma database_eq d1 d2 :
  users d1 = users d2 -> company_profiles d1 = company_profiles d2 ->
  tasks d1 = tasks d2 -> task_attempts d1 = task_attempts d2 ->
  user_rewards d1 = user_rewards d2 -> transactions d1 = transactions d2 ->
  analytics_events d1 = analytics_events d2 -> d1 = d2.
Proof. destruct d1, d2. simpl. by intros -> -> -> -> -> -> ->. Qed.

Lemma filter_filter_same {A} (P : A -> Prop) `{forall x, Decision (P x)} (l : list A) :
  filter P (filter P l) = filter P l.
Proof.
  induction l as [|x l IH]; [done|]. rewrite filter_cons.
  destruct (decide (P x)) as [HP|HP]; [|done].
  by rewrite filter_cons, decide_True, IH by done.
Qed.

Lemma filter_all {A} (P : A -> Prop) `{forall x, Decision (P x)} (l : list A) :
  Forall P l -> filter P l = l.
Proof.
  induction 1 as [|x l HP _ IH]; [done|]. by rewrite filter_cons, decide_True, IH by done.
Qed.

(** [DELETE FROM tasks WHERE id = $1], when it is not refused, leaves what
    removing the row of the task and the rows that refer to it leaves. *)
Lemma delete_from_tasks_ok_inv taskId d u d' :
  delete_from_tasks taskId d = (Ok u, d') ->
  tasks d' = filter (fun t => t_id t <> taskId) (tasks d)
  ∧ (task_exists taskId d = false
     ∧ d' = d
     ∨ d' = delete_task_row taskId
              (delete_rewards_of_task taskId (delete_attempts_of_task taskId d))).
Proof.
  unfold delete_from_tasks.
  destruct (task_exists taskId d) eqn:Hexists; cbn [negb].
  - destruct (_ || _); intros [= <- <-]. by split; [|right].
  - intros [= <- <-]. split; [|by left].
    symmetry. apply filter_all. apply Forall_forall. intros t Ht Hid.
    unfold task_exists in Hexists. apply bool_decide_eq_false_1 in Hexists.
    apply Hexists, Exists_exists. eauto.
Qed.

Lemma deletes_ok_inv taskId w u w' :
  deletes taskId w = (Ok u, w') -> db w' = deleted taskId (db w).
Proof.
  unfold deletes. intros H.
  apply bind_ok_inv in H as (u1 & w1 & H1 & H).
  apply bind_ok_inv in H as (u2 & w2 & H2 & H).
  apply client_query_ok_inv in H1 as (d1 & H1 & Hd1). injection H1 as H1.
  apply client_query_ok_inv in H2 as (d2 & H2 & Hd2).
  apply client_query_ok_inv in H as (d3 & H3 & Hd3).
  unfold delete_from_user_rewards in H2.
  destruct (reward_of_task_referenced taskId (db w1)); [discriminate H2|].
  injection H2 as H2. subst d1 d2.
  apply delete_from_tasks_ok_inv in H3 as [Htasks [[_ ->]| ->]];
    rewrite Hd3, Hd2, Hd1; unfold deleted.
  - apply database_eq; try done.
    unfold delete_task_row, delete_rewards_of_task, delete_attempts_of_task.
    cbn [tasks with_tasks with_user_rewards with_task_attempts].
    rewrite Hd2, Hd1 in Htasks. exact Htasks.
  - unfold delete_task_row, delete_rewards_of_task, delete_attempts_of_task.
    apply database_eq; try done;
      cbn [tasks task_attempts user_rewards with_tasks with_user_rewards
           with_task_attempts];
      apply filter_filter_same.
Qed.

Lemma deletePuzzleAssets_ok E url w :
  (PuzzleGenerator.deletePuzzleAssets E url w).1 = Ok tt.
Proof.
  unfold PuzzleGenerator.deletePuzzleAssets. case_match; [done|].
  unfold bind, call. cbn. by case_match.
Qed.

(** What follows the transaction in [deleteTask]: removing the assets and
    the cache entry.  Failures there are logged, not thrown. *)
Definition cleanup (E : environment) (taskId : uuid) (task : task_row) : M bool :=
  (match t_image_url task with
   | Some url =>
       if negb (String.eqb url "") && truthy (t_puzzle_config task) then
         try_catch
           (lift_outcome (parse_JSON E (t_puzzle_config task)) ;;;
            PuzzleGenerator.deletePuzzleAssets E url)
           (fun error => logger "error" "Failed to cleanup puzzle assets:" (Some error))
       else ret tt
   | None => ret tt
   end) ;;;
  Cache.del (cache_key taskId) ;;;
  logger "business" "Task deleted" None ;;;
  ret true.

Lemma cleanup_ok E taskId task w :
  (cleanup E taskId task w).1 = Ok true ∧ db (cleanup E taskId task w).2 = db w.
Proof.
  split.
  - unfold cleanup.
    assert (Hfirst : forall (m : M unit) w0, (forall w1, (m w1).1 = Ok tt) ->
              (bind m (fun _ => Cache.del (cache_key taskId) ;;;
                                logger "business" "Task deleted" None ;;; ret true) w0).1
              = Ok true).
    { intros m w0 Hm. unfold bind at 1. specialize (Hm w0).
      destruct (m w0) as [[[]|e] w1]; [|discriminate Hm].
      destruct (cache_del_run (cache_key taskId) w1) as (b & w2 & Hdel & _).
      erewrite bind_run_ok; [|exact Hdel]. done. }
    apply Hfirst. intros w1.
    destruct (t_image_url task) as [url|]; [|done].
    destruct (negb (String.eqb url "") && truthy (t_puzzle_config task)); [|done].
    unfold try_catch, bind, lift_outcome.
    destruct (parse_JSON E (t_puzzle_config task)) as [parsed|e]; [|done].
    pose proof (deletePuzzleAssets_ok E url w1) as Hok.
    destruct (PuzzleGenerator.deletePuzzleAssets E url w1) as [[[]|e] w2];
      [done|discriminate Hok].
  - unfold cleanup.
    apply (keeps_bind db).
    { destruct (t_image_url task) as [url|]; [|done].
      destruct (negb (String.eqb url "") && truthy (t_puzzle_config task)); [|done].
      apply (keeps_try_catch db).
      - apply (keeps_bind db); [done|]. intros _.
        by apply (keeps_deletePuzzleAssets db).
      - intros e. done. }
    intros _. apply (keeps_bind db); [by apply (keeps_cache_del db)|]. intros _.
    apply (keeps_bind db); done.
Qed.

Lemma select_owned_task_cons taskId companyId d task others :
  select_owned_task taskId companyId d = task :: others ->
  Exists (fun t => t_id t = taskId ∧ t_company_id t = companyId) (tasks d).
Proof.
  intros H.
  assert (Hin : task ∈ select_owned_task taskId companyId d)
    by (rewrite H; apply list_elem_of_here).
  apply list_elem_of_filter in Hin as [HP Hin]. apply Exists_exists. eauto.
Qed.

Lemma deleteTask_unfold E taskId companyId w :
  deleteTask E taskId companyId w
  = bind (query (select (select_owned_task taskId companyId)))
      (fun taskResult =>
         match taskResult with
         | [] => throw (NotFoundError "Task not found or access denied")
         | task :: _ => withTransaction (deletes taskId) ;;; cleanup E taskId task
         end) w.
Proof. reflexivity. Qed.

Lemma deleteTask_after_select E taskId companyId w0 :
  let r := match select_owned_task taskId companyId (db w0) with
           | [] => throw (NotFoundError "Task not found or access denied")
           | task :: _ => withTransaction (deletes taskId) ;;; cleanup E taskId task
           end w0 in
  (r.1 = Ok true
   ∧ db r.2 = deleted taskId (db w0)
   ∧ Exists (fun t => t_id t = taskId ∧ t_company_id t = companyId) (tasks (db w0)))
  ∨ ((exists e, r.1 = Throw e) ∧ db r.2 = db w0).
Proof.
  destruct (select_owned_task taskId companyId (db w0)) as [|task others] eqn:Hsel.
  { right. split; [by eexists|done]. }
  pose proof (select_owned_task_cons _ _ _ _ _ Hsel) as Hown.
  unfold bind.
  destruct (withTransaction_run (deletes taskId) (deleted taskId) w0 (deletes_ok_inv taskId))
    as [(u & Hok & Hdb)|(e & Hthrow & Hdb)];
    destruct (withTransaction (deletes taskId) w0) as [[u'|e'] w1];
    simpl in Hdb; try discriminate.
  - left. destruct (cleanup_ok E taskId task w1) as [Hc1 Hc2].
    cbv zeta. by rewrite Hc1, Hc2, Hdb.
  - right. split; [by eexists|done].
Qed.

Lemma deleted_rows taskId d :
  ¬ Exists (fun t => t_id t = taskId) (tasks (deleted taskId d))
  ∧ ¬ Exists (fun a => a_task_id a = taskId) (task_attempts (deleted taskId d))
  ∧ ¬ Exists (fun x => r_task_id x = taskId) (user_rewards (deleted taskId d)).
Proof.
  unfold deleted, delete_task_row, delete_rewards_of_task, delete_attempts_of_task.
  cbn [tasks task_attempts user_rewards with_tasks with_task_attempts with_user_rewards].
  repeat split; rewrite <- Forall_Exists_neg; apply Forall_forall; intros x Hx;
    by apply list_elem_of_filter in Hx as [? _].
Qed.

(** X18.  [deleteTask] is all or nothing.  Whatever statements the pool rejects,
    whatever S3, Redis and [JSON.parse] do: either it returns [true] and
    the row of the task, all its attempts and all its rewards are gone
    (the rows of other tasks stay), or it throws and the store is as it
    was.  It returns only for a task owned by the company. *)
Theorem deleteTask_all_or_nothing E taskId companyId w :
  let r := deleteTask E taskId companyId w in
  (r.1 = Ok true
   ∧ tasks (db r.2) = filter (fun t => t_id t <> taskId) (tasks (db w))
   ∧ task_attempts (db r.2) = filter (fun a => a_task_id a <> taskId) (task_attempts (db w))
   ∧ user_rewards (db r.2) = filter (fun x => r_task_id x <> taskId) (user_rewards (db w))
   ∧ users (db r.2) = users (db w)
   ∧ ¬ Exists (fun t => t_id t = taskId) (tasks (db r.2))
   ∧ ¬ Exists (fun a => a_task_id a = taskId) (task_attempts (db r.2))
   ∧ ¬ Exists (fun x => r_task_id x = taskId) (user_rewards (db r.2))
   ∧ Exists (fun t => t_id t = taskId ∧ t_company_id t = companyId) (tasks (db w)))
  ∨ ((exists e, r.1 = Throw e) ∧ db r.2 = db w).
Proof.
  intros r. subst r. rewrite deleteTask_unfold.
  assert (Hdelivered :
    let r := match select_owned_task taskId companyId (db w) with
             | [] => throw (NotFoundError "Task not found or access denied")
             | task :: _ => withTransaction (deletes taskId) ;;; cleanup E taskId task
             end (delivered None (db w) w) in
    (r.1 = Ok true
     ∧ db r.2 = deleted taskId (db w)
     ∧ Exists (fun t => t_id t = taskId ∧ t_company_id t = companyId) (tasks (db w)))
    ∨ ((exists e, r.1 = Throw e) ∧ db r.2 = db w))
    by apply (deleteTask_after_select E taskId companyId (delivered None (db w) w)).
  cbv zeta in Hdelivered.
  assert (Hgoal : forall r : outcome bool * world,
    (r.1 = Ok true ∧ db r.2 = deleted taskId (db w)
     ∧ Exists (fun t => t_id t = taskId ∧ t_company_id t = companyId) (tasks (db w)))
    ∨ ((exists e, r.1 = Throw e) ∧ db r.2 = db w) ->
    (r.1 = Ok true
     ∧ tasks (db r.2) = filter (fun t => t_id t <> taskId) (tasks (db w))
     ∧ task_attempts (db r.2)
       = filter (fun a => a_task_id a <> taskId) (task_attempts (db w))
     ∧ user_rewards (db r.2)
       = filter (fun x => r_task_id x <> taskId) (user_rewards (db w))
     ∧ users (db r.2) = users (db w)
     ∧ ¬ Exists (fun t => t_id t = taskId) (tasks (db r.2))
     ∧ ¬ Exists (fun a => a_task_id a = taskId) (task_attempts (db r.2))
     ∧ ¬ Exists (fun x => r_task_id x = taskId) (user_rewards (db r.2))
     ∧ Exists (fun t => t_id t = taskId ∧ t_company_id t = companyId) (tasks (db w)))
    ∨ ((exists e, r.1 = Throw e) ∧ db r.2 = db w)).
  { intros r [(Hok & Hdb & Hown)|Hthrow]; [left|by right].
    destruct (deleted_rows taskId (db w)) as (H1 & H2 & H3).
    rewrite Hdb. done. }
  destruct (decide (head (db_faults w) = Some true)) as [Hf|Hf].
  - right. unfold bind. rewrite query_run.
    destruct (db_faults w) as [|[|] rest]; try discriminate Hf.
    split; [by eexists|done].
  - erewrite bind_run_ok; [|by apply query_select]. by apply Hgoal.
Qed.

(** X19.  A task that the company does not own (or that does not exist) is
    reported with NotFoundError and nothing is deleted. *)
Theorem deleteTask_not_owner E taskId companyId w :
  head (db_faults w) <> Some true ->
  ¬ Exists (fun t => t_id t = taskId ∧ t_company_id t = companyId) (tasks (db w)) ->
  (deleteTask E taskId companyId w).1
  = Throw (NotFoundError "Task not found or access denied")
  ∧ db (deleteTask E taskId companyId w).2 = db w
  ∧ calls (deleteTask E taskId companyId w).2 = calls w.
Proof.
  intros Hf Hno. rewrite deleteTask_unfold.
  erewrite bind_run_ok; [|by apply query_select].
  apply (filter_nil_iff (fun t => t_id t = taskId ∧ t_company_id t = companyId)) in Hno.
  unfold select_owned_task. by rewrite Hno.
Qed.

Lemma deleteTask_not_owner_witness :
  (deleteTask Sample.E "task-1" "company-2" Sample.active_world).1
  = Throw (NotFoundError "Task not found or access denied").
Proof.
  apply (deleteTask_not_owner Sample.E "task-1" "company-2" Sample.active_world).
  - vm_compute. discriminate.
  - intros H. apply Exists_cons in H as [[_ H]|H]; [discriminate H|by apply Exists_nil in H].
Defined.

(** *** The references that make PostgreSQL refuse a DELETE *)

Definition task_is_referenced (taskId : uuid) (d : database) : Prop :=
  Exists (fun x => tx_related_task_id x = Some taskId) (transactions d)
  ∨ Exists (fun e => ae_task_id e = Some taskId) (analytics_events d).

Definition reward_is_referenced (taskId : uuid) (d : database) : Prop :=
  Exists (fun x => exists r, r ∈ user_rewards d ∧ r_task_id r = taskId
                             ∧ tx_related_reward_id x = Some (r_id r))
         (transactions d).

Lemma existsb_Exists {A} (p : A -> bool) (l : list A) :
  existsb p l = true <-> Exists (fun x => p x = true) l.
Proof.
  rewrite existsb_exists, Exists_exists.
  split; intros (x & Hx & Hp); exists x; (split; [|done]); by apply list_elem_of_In.
Qed.

Lemma task_referenced_iff taskId d :
  task_referenced taskId d = true <-> task_is_referenced taskId d.
Proof.
  unfold task_referenced, task_is_referenced.
  rewrite orb_true_iff, !existsb_Exists.
  assert (Hiff : forall {A} (P Q : A -> Prop) l,
            (forall x, P x <-> Q x) -> Exists P l <-> Exists Q l).
  { intros A P Q l HPQ. rewrite !Exists_exists. by setoid_rewrite HPQ. }
  rewrite (Hiff _ _ (fun x => tx_related_task_id x = Some taskId));
    [|intros x; apply bool_decide_eq_true].
  rewrite (Hiff _ _ (fun e => ae_task_id e = Some taskId));
    [|intros x; apply bool_decide_eq_true].
  done.
Qed.

Lemma reward_of_task_referenced_iff taskId d :
  reward_of_task_referenced taskId d = true <-> reward_is_referenced taskId d.
Proof.
  unfold reward_of_task_referenced, reward_is_referenced.
  rewrite existsb_Exists, !Exists_exists. split.
  - intros (x & Hx & Href). exists x. split; [done|].
    destruct (tx_related_reward_id x) as [rewardId|]; [|discriminate Href].
    apply bool_decide_eq_true_1, list_elem_of_fmap in Href as (r & -> & Hr).
    apply list_elem_of_filter in Hr as [? ?]. eauto.
  - intros (x & Hx & r & Hr & Htask & Href). exists x. split; [done|].
    rewrite Href. apply bool_decide_eq_true_2, list_elem_of_fmap.
    exists r. split; [done|]. by apply list_elem_of_filter.
Qed.

Lemma reward_of_task_referenced_deleted taskId d :
  reward_of_task_referenced taskId
    (delete_rewards_of_task taskId (delete_attempts_of_task taskId d)) = false.
Proof.
  apply not_true_is_false. rewrite reward_of_task_referenced_iff.
  unfold reward_is_referenced. rewrite Exists_exists.
  intros (x & _ & r & Hr & Htask & _).
  unfold delete_rewards_of_task in Hr. cbn [user_rewards with_user_rewards] in Hr.
  by apply list_elem_of_filter in Hr as [? _].
Qed.

Lemma client_query_no_faults {A} (s : statement A) w :
  db_faults w = [] ->
  client_query s w = ((s (db w)).1, set_db (s (db w)).2 (set_db_faults [] w)).
Proof.
  intros Hf. unfold client_query. rewrite Hf. cbn [db set_db_faults tail].
  by destruct (s (db w)).
Qed.

(** The three DELETE statements with every statement delivered. *)
Lemma deletes_no_faults taskId w :
  db_faults w = [] -> task_exists taskId (db w) = true ->
  exists w1,
    db_faults w1 = []
    ∧ deletes taskId w
      = (if reward_of_task_referenced taskId (db w) || task_referenced taskId (db w)
         then Throw (DatabaseError foreign_key_violation)
         else Ok tt, w1).
Proof.
  intros Hf Hexists. unfold deletes.
  unfold bind at 1. rewrite client_query_no_faults by done.
  unfold delete_from_task_attempts, update. cbn [fst snd].
  set (w1 := set_db _ _).
  assert (Hf1 : db_faults w1 = []) by done.
  assert (Hd1 : db w1 = delete_attempts_of_task taskId (db w)) by done.
  clearbody w1.
  unfold bind at 1. rewrite client_query_no_faults by done.
  unfold delete_from_user_rewards at 1 2. rewrite Hd1.
  assert (Hsame : reward_of_task_referenced taskId (delete_attempts_of_task taskId (db w))
                  = reward_of_task_referenced taskId (db w)) by done.
  rewrite Hsame.
  destruct (reward_of_task_referenced taskId (db w)); cbn [fst snd orb].
  { eexists. split; [|reflexivity]. done. }
  rewrite client_query_no_faults by done. cbn [db set_db].
  unfold delete_from_tasks.
  assert (Hexists2 : task_exists taskId
                       (delete_rewards_of_task taskId
                          (delete_attempts_of_task taskId (db w))) = true) by done.
  rewrite Hexists2, reward_of_task_referenced_deleted. cbn [negb].
  assert (Href : task_referenced taskId
                   (delete_rewards_of_task taskId (delete_attempts_of_task taskId (db w)))
                 = task_referenced taskId (db w)) by done.
  rewrite Href, orb_false_r.
  destruct (task_referenced taskId (db w)); cbn [fst snd];
    (eexists; split; [|reflexivity]; done).
Qed.

Lemma withTransaction_no_faults_throw {A} (callback : M A) w e w1 :
  db_faults w = [] ->
  callback (set_db (db w) w) = (Throw e, w1) -> db_faults w1 = [] ->
  (withTransaction callback w).1 = Throw e ∧ db (withTransaction callback w).2 = db w.
Proof.
  intros Hf Hbody Hf1. unfold withTransaction, try_catch.
  erewrite bind_run_ok; [|by rewrite client_query_update_run, Hf].
  assert (Hw : set_db (id (db w)) (set_db_faults (tail []) w) = set_db (db w) w).
  { unfold set_db, set_db_faults. simpl. by rewrite Hf. }
  rewrite Hw. erewrite bind_run_throw; [|exact Hbody].
  by rewrite client_query_update_run, Hf1.
Qed.

(** X20.  With every statement delivered and a task that the company owns,
    [deleteTask] returns [true] exactly when no row of [transactions] or
    [analytics_events] refers to the task and no row of [transactions]
    refers to one of its rewards - whether or not S3 and Redis answer and
    whether or not the stored configuration parses: the cleanup is not
    critical.  When there is such a reference the DELETE is refused, the
    transaction is rolled back, and [deleteTask] throws the error of the
    store (SQLSTATE 23503) and leaves the store as it was. *)
Theorem deleteTask_succeeds E taskId companyId w :
  db_faults w = [] ->
  Exists (fun t => t_id t = taskId ∧ t_company_id t = companyId) (tasks (db w)) ->
  let r := deleteTask E taskId companyId w in
  let referenced :=
    Exists (fun x => tx_related_task_id x = Some taskId) (transactions (db w))
    ∨ Exists (fun e => ae_task_id e = Some taskId) (analytics_events (db w))
    ∨ Exists (fun x => exists reward, reward ∈ user_rewards (db w)
                                      ∧ r_task_id reward = taskId
                                      ∧ tx_related_reward_id x = Some (r_id reward))
             (transactions (db w)) in
  (¬ referenced -> r.1 = Ok true)
  ∧ (referenced ->
     r.1 = Throw (DatabaseError foreign_key_violation) ∧ db r.2 = db w).
Proof.
  intros Hf Hown r referenced. subst r. rewrite deleteTask_unfold.
  erewrite bind_run_ok; [|apply query_select; by rewrite Hf].
  destruct (select_owned_task taskId companyId (db w)) as [|task others] eqn:Hsel.
  { apply (filter_nil_iff (fun t => t_id t = taskId ∧ t_company_id t = companyId)) in Hsel.
    by destruct Hsel. }
  set (w0 := delivered None (db w) w).
  assert (Hf0 : db_faults w0 = []) by (subst w0; by rewrite db_faults_delivered, Hf).
  assert (Hd0 : db w0 = db w) by done.
  clearbody w0.
  assert (Hexists : task_exists taskId (db w0) = true).
  { rewrite Hd0. unfold task_exists. apply bool_decide_eq_true_2.
    apply Exists_exists in Hown as (t & Ht & Hid & _). apply Exists_exists. eauto. }
  destruct (deletes_no_faults taskId (set_db (db w0) w0)) as (w1 & Hf1 & Hrun);
    [done|done|].
  cbn [db set_db] in Hrun.
  assert (Hiff : reward_of_task_referenced taskId (db w0) || task_referenced taskId (db w0)
                 = true <-> referenced).
  { rewrite Hd0, orb_true_iff, reward_of_task_referenced_iff, task_referenced_iff.
    unfold referenced, reward_is_referenced, task_is_referenced. tauto. }
  destruct (reward_of_task_referenced taskId (db w0) || task_referenced taskId (db w0)).
  - split; [intros Hno; destruct Hno; by apply Hiff|]. intros _.
    destruct (withTransaction_no_faults_throw _ _ _ _ Hf0 Hrun Hf1) as [Hthrow Hdb].
    unfold bind.
    destruct (withTransaction (deletes taskId) w0) as [o w2].
    cbn [fst snd] in Hthrow, Hdb. subst o. cbv beta iota. cbn [fst snd].
    split; [done|]. by rewrite Hdb, Hd0.
  - split; [intros _|intros Hyes; apply Hiff in Hyes; discriminate Hyes].
    erewrite bind_run_ok; [|by apply (withTransaction_no_faults _ _ _ w1)].
    apply cleanup_ok.
Qed.

(** A store in which an analytics event refers to the task. *)
Definition viewed_world : world :=
  Sample.boot
    {| users := [Sample.company; Sample.player; Sample.other_player];
       company_profiles := [];
       tasks := [Sample.pizza "active" None]; task_attempts := []; user_rewards := [];
       transactions := [];
       analytics_events :=
         [ {| ae_event_type := "task_viewed"; ae_user_id := Some "player-1";
              ae_task_id := Some "task-1"; ae_company_id := None |} ] |}
    [].

Lemma deleteTask_succeeds_witness :
  (deleteTask Sample.E "task-1" "company-1" Sample.active_world).1 = Ok true
  ∧ (deleteTask Sample.E "task-1" "company-1" viewed_world).1
    = Throw (DatabaseError foreign_key_violation)
  ∧ tasks (db (deleteTask Sample.E "task-1" "company-1" viewed_world).2)
    = [Sample.pizza "active" None].
Proof.
  split; [|split].
  - apply (deleteTask_succeeds Sample.E "task-1" "company-1" Sample.active_world eq_refl).
    + apply Exists_cons_hd. split; reflexivity.
    + intros [H|[H|H]]; by apply Exists_nil in H.
  - apply (deleteTask_succeeds Sample.E "task-1" "company-1" viewed_world eq_refl).
    + apply Exists_cons_hd. split; reflexivity.
    + right. left. by apply Exists_cons_hd.
  - destruct (deleteTask_succeeds Sample.E "task-1" "company-1" viewed_world eq_refl)
      as [_ H].
    + apply Exists_cons_hd. split; reflexivity.
    + destruct H as [_ Hdb]; [right; left; by apply Exists_cons_hd|]. by rewrite Hdb.
Defined.

End DeleteFacts.

(* ===================================================================== *)
(** ** [createTask]: what is stored                                       *)
(* ===================================================================== *)

Module CreateFacts.
Import MonadFacts QueryFacts FrameFacts PuzzleGenerator TaskService.

(** [quiet m]: when [m] throws it has left the store as it was. *)
Definition quiet {A} (m : M A) : Prop :=
  forall w e, (m w).1 = Throw e -> db (m w).2 = db w.

Lemma quiet_of_keeps {A} (m : M A) : keeps db m -> quiet m.
Proof. intros Hm w e _. apply Hm. Qed.

Lemma quiet_bind {A B} (m : M A) (k : A -> M B) :
  keeps db m -> (forall a, quiet (k a)) -> quiet (bind m k).
Proof.
  intros Hm Hk w e. unfold bind. specialize (Hm w).
  destruct (m w) as [[a|e'] w1]; simpl in *; [|done].
  intros He. by rewrite (Hk a w1 e He).
Qed.

Lemma insert_task_inv t d inserted d1 :
  insert_task t d = (Ok inserted, d1) ->
  inserted = t ∧ d1 = with_tasks (tasks d ++ [t]) d
  ∧ ¬ Exists (fun x => t_id x = t_id t) (tasks d)
  ∧ user_exists (t_company_id t) d = true.
Proof.
  unfold insert_task, task_exists. case_bool_decide as Hid; [discriminate|].
  destruct (user_exists (t_company_id t) d); [|discriminate].
  intros [= <- <-]. done.
Qed.

Lemma insert_task_failed t d e d1 : insert_task t d = (Throw e, d1) -> d1 = d.
Proof. unfold insert_task. repeat case_match; intros [= <- <-]; done. Qed.

(** The image stage of [createTask]. *)
Definition process_image (E : environment) (now : timestamp) (taskData : TaskData)
    : M (option PuzzleConfig) :=
  match image_file taskData with
  | Some image =>
      if String.eqb image "" then ret None
      else
        try_catch
          (let gridSize := getGridSizeFromDifficulty (difficulty taskData) in
           config <- PuzzleGenerator.generateImagePuzzle E now
                       (Buffer_from_base64 E image) gridSize ;;
           ret (Some config))
          (fun error =>
             logger "error" "Failed to process task image:" (Some error) ;;;
             throw (ValidationError
               "Failed to process image. Please ensure it's a valid JPEG/PNG file under 5MB"))
  | None => ret None
  end.

Lemma keeps_process_image E now taskData : keeps db (process_image E now taskData).
Proof.
  unfold process_image. destruct (image_file taskData) as [image|]; [|done].
  destruct (String.eqb image ""); [done|].
  apply (keeps_try_catch db).
  - apply (keeps_bind db); [by apply (keeps_generateImagePuzzle db)|done].
  - intros e. by apply (keeps_bind db).
Qed.

(** The row that [createTask] inserts. *)
Definition new_task_row (new_id companyId : uuid) (taskData : TaskData)
    (generated : option PuzzleConfig) : task_row :=
  {| t_id := new_id;
     t_company_id := companyId;
     t_title := trim (default "" (title taskData));
     t_description :=
       match description taskData with
       | Some d => if String.eqb (trim d) "" then None else Some (trim d)
       | None => None
       end;
     t_task_type := task_type taskData;
     t_difficulty := difficulty taskData;
     t_reward_type := reward_type taskData;
     t_reward_value := default 0%Q (reward_value taskData);
     t_reward_description := trim (default "" (reward_description taskData));
     t_image_url := PuzzleGenerator.image_url <$> generated;
     t_puzzle_config :=
       match generated with
       | Some config => default VNull (jsonb (PuzzleGenerator.PuzzleConfig_value config))
       | None => VNull
       end;
     t_status := "draft";
     t_is_featured := false;
     t_featured_until := None;
     t_attempt_count := 0;
     t_conversion_count := 0;
     t_expires_at := None |}.

Definition store_task (new_row : task_row) : M task :=
  inserted <- query (insert_task new_row) ;;
  let task := task_of_row inserted in
  Cache.set (cache_key (t_id inserted)) task ;;;
  logger "business" "Task created" None ;;;
  ret task.

Lemma createTask_unfold E now new_id companyId taskData :
  createTask E now new_id companyId taskData
  = (lift_outcome (validateTaskData E taskData) ;;;
     existingTask <- query (select (select_same_title companyId
                                      (trim (default "" (title taskData))))) ;;
     (if negb (bool_decide (existingTask = []))
      then throw (ConflictError "Task with this title already exists for your company")
      else ret tt) ;;;
     generated <- process_image E now taskData ;;
     store_task (new_task_row new_id companyId taskData generated)).
Proof. reflexivity. Qed.

Lemma store_task_run new_row w :
  (forall e, (store_task new_row w).1 = Throw e -> db (store_task new_row w).2 = db w)
  ∧ (forall task, (store_task new_row w).1 = Ok task ->
       task = task_of_row new_row
       ∧ db (store_task new_row w).2 = with_tasks (tasks (db w) ++ [new_row]) (db w)
       ∧ ¬ Exists (fun x => t_id x = t_id new_row) (tasks (db w))
       ∧ user_exists (t_company_id new_row) (db w) = true).
Proof.
  unfold store_task, bind. rewrite query_run.
  destruct (db_faults w) as [|[|] rest]; [|by split|].
  all: destruct (insert_task new_row (db w)) as [[inserted|e] d1] eqn:Hins;
    [apply insert_task_inv in Hins as (-> & -> & Hfresh & Huser)
    |apply insert_task_failed in Hins as ->; by split].
  all: match goal with |- context [Cache.set ?k ?t ?w0] =>
         destruct (cache_set_run k t w0) as (b & w1 & Hset & Hdb1 & _) end;
    rewrite Hset; cbn [logger ret fst snd db set_log]; rewrite Hdb1;
    split; [done|]; by intros task [= <-].
Qed.

Lemma validateTaskData_ok_inv E taskData :
  validateTaskData E taskData = Ok tt ->
  (exists t, title taskData = Some t
             ∧ (3 <= String.length (trim t) <= 100)%nat)
  ∧ (exists v, reward_value taskData = Some v ∧ (0 < v)%Q)
  ∧ (exists rd, reward_description taskData = Some rd
                ∧ (10 <= String.length (trim rd) <= 255)%nat)
  ∧ task_type taskData ∈ ["image-puzzle"; "spot-diff"; "speed-challenge"; "meme"; "logic"]
  ∧ difficulty taskData ∈ ["easy"; "medium"; "hard"; "expert"]
  ∧ reward_type taskData ∈ ["discount"; "coupon"; "points"; "cashback"].
Proof.
  unfold validateTaskData.
  destruct (title taskData) as [t|]; [|discriminate].
  destruct (String.eqb t ""); [discriminate|]. cbn [orb].
  destruct (Nat.ltb_spec (String.length (trim t)) 3); [discriminate|].
  destruct (Nat.ltb_spec 100 (String.length (trim t))); [discriminate|]. cbn [orb].
  destruct (match description taskData with Some _ => _ | None => _ end); [discriminate|].
  case_bool_decide as Htype; [|discriminate]. cbn [negb].
  case_bool_decide as Hdiff; [|discriminate]. cbn [negb].
  case_bool_decide as Hreward; [|discriminate]. cbn [negb].
  destruct (reward_value taskData) as [v|]; [|discriminate].
  destruct (Qle_bool v 0) eqn:Hpos; [discriminate|].
  destruct (negb (Qle_bool v _)); [discriminate|].
  destruct (reward_description taskData) as [rd|]; [|discriminate].
  destruct (String.eqb rd ""); [discriminate|]. cbn [orb].
  destruct (Nat.ltb_spec (String.length (trim rd)) 10); [discriminate|].
  destruct (Nat.ltb_spec 255 (String.length (trim rd))); [discriminate|]. cbn [orb].
  intros _. repeat split; eauto.
  exists v. split; [done|].
  apply Qnot_le_lt. intros Hle. apply Qle_bool_iff in Hle. by rewrite Hle in Hpos.
Qed.

(** X8.  What [createTask] stores.  Whatever the collaborators do and whichever
    statements the pool rejects: if it throws, the store is as it was (no
    row without a processed image, no partial task); if it returns, exactly
    one row has been appended to [tasks] and is the one returned: a
    'draft' with the given id and owner, both counters 0, not featured,
    the trimmed title of 3 to 100 characters, a positive reward value, a
    difficulty of the table, and a title that no other task of the company
    carries, compared without regard to case. *)
Theorem createTask_outcome E now new_id companyId taskData w :
  let r := createTask E now new_id companyId taskData w in
  (forall e, r.1 = Throw e -> db r.2 = db w)
  ∧ (forall task, r.1 = Ok task ->
       db r.2 = with_tasks (tasks (db w) ++ [row task]) (db w)
       ∧ t_id (row task) = new_id ∧ t_company_id (row task) = companyId
       ∧ t_status (row task) = "draft"
       ∧ t_attempt_count (row task) = 0 ∧ t_conversion_count (row task) = 0
       ∧ t_is_featured (row task) = false
       ∧ (3 <= String.length (t_title (row task)) <= 100)%nat
       ∧ (0 < t_reward_value (row task))%Q
       ∧ t_difficulty (row task) ∈ ["easy"; "medium"; "hard"; "expert"]
       ∧ ¬ Exists (fun t => t_id t = new_id) (tasks (db w))
       ∧ ¬ Exists (fun t => t_company_id t = companyId
                          ∧ toLowerCase (t_title t) = toLowerCase (t_title (row task)))
             (tasks (db w))).
Proof.
  intros r. subst r. split.
  - rewrite createTask_unfold. intros e. revert w e. fold (quiet
      (lift_outcome (validateTaskData E taskData) ;;;
       existingTask <- query (select (select_same_title companyId
                                        (trim (default "" (title taskData))))) ;;
       (if negb (bool_decide (existingTask = []))
        then throw (ConflictError "Task with this title already exists for your company")
        else ret tt) ;;;
       generated <- process_image E now taskData ;;
       store_task (new_task_row new_id companyId taskData generated))).
    apply quiet_bind; [done|]. intros _.
    apply quiet_bind; [by apply (keeps_query_select db)|]. intros existing.
    apply quiet_bind; [by destruct (negb _)|]. intros _.
    apply quiet_bind; [apply keeps_process_image|]. intros generated.
    intros w e. apply store_task_run.
  - intros task H.
    destruct (createTask E now new_id companyId taskData w) as [o w'] eqn:Hrun.
    simpl in H. subst o. cbn [snd]. rewrite createTask_unfold in Hrun.
    apply bind_ok_inv in Hrun as (u & w1 & Hval & Hrun).
    injection Hval as Hval <-.
    assert (Hvalid : validateTaskData E taskData = Ok tt) by by destruct u.
    apply bind_ok_inv in Hrun as (existing & w2 & Hq & Hrun).
    apply CachedTaskFacts.query_select_ok_inv in Hq as [-> Hd2].
    apply bind_ok_inv in Hrun as (u2 & w3 & Hc & Hrun).
    case_bool_decide as Hnone; [|discriminate Hc]. injection Hc as _ <-.
    apply bind_ok_inv in Hrun as (generated & w4 & Hgen & Hrun).
    pose proof (keeps_process_image E now taskData w2) as Hd4.
    rewrite Hgen in Hd4. cbn [snd] in Hd4.
    destruct (store_task_run (new_task_row new_id companyId taskData generated) w4)
      as [_ Hstore].
    rewrite Hrun in Hstore. destruct (Hstore task eq_refl) as (-> & Hdb & Hfresh & _).
    cbn [snd] in Hdb. rewrite Hdb, Hd4, Hd2 in *.
    destruct (validateTaskData_ok_inv E taskData Hvalid)
      as ((t & Ht & Hlen) & (v & Hv & Hpos) & _ & _ & Hdiff & _).
    cbn [row task_of_row new_task_row t_id t_company_id t_status t_attempt_count
         t_conversion_count t_is_featured t_title t_reward_value t_difficulty] in *.
    rewrite Ht, Hv in *. unfold default in *. cbn [from_option id] in *.
    destruct Hlen as [Hlo Hhi].
    repeat split; try done.
    intros Hex. unfold select_same_title in Hnone. apply fmap_nil_inv in Hnone.
    by apply (filter_nil_iff
                (fun t0 => t_company_id t0 = companyId
                         ∧ toLowerCase (t_title t0) = toLowerCase (trim t))) in Hnone.
Qed.

Definition empty_world : world := Sample.boot (Sample.store [] [] []) [].

(** The data of a task that comes without an image. *)
Definition quiz_data : TaskData :=
  {| title := Some "  Pizza Quiz ";
     description := None;
     task_type := "logic";
     difficulty := "easy";
     reward_type := "discount";
     reward_value := Some 20%Q;
     reward_description := Some "20% off your next order";
     image_file := None |}.

Definition created_task : task :=
  Eval vm_compute in
    match (createTask Sample.E 1700000000000 "task-1" "company-1" quiz_data
             empty_world).1 with
    | Ok t => t
    | Throw _ => task_of_row (Sample.pizza "draft" None)
    end.

Lemma sample_createTask :
  (createTask Sample.E 1700000000000 "task-1" "company-1" quiz_data empty_world).1
  = Ok created_task.
Proof. vm_compute. reflexivity. Qed.

Lemma createTask_outcome_witness :
  t_status (row created_task) = "draft"
  ∧ tasks (db (createTask Sample.E 1700000000000 "task-1" "company-1" quiz_data
                 empty_world).2) = [row created_task].
Proof.
  destruct (createTask_outcome Sample.E 1700000000000 "task-1" "company-1"
              quiz_data empty_world) as [_ H].
  destruct (H created_task sample_createTask) as (Hdb & _ & _ & Hstatus & _).
  split; [exact Hstatus|]. by rewrite Hdb.
Defined.

(** X9.  A second task with the same title.  After validation and before any
    image is processed, a task of the same company whose title equals the
    trimmed new title up to case makes [createTask] throw ConflictError:
    nothing is stored, nothing is sent to sharp or S3, no uuid is drawn. *)
Theorem createTask_duplicate_title E now new_id companyId taskData w :
  validateTaskData E taskData = Ok tt ->
  head (db_faults w) <> Some true ->
  Exists (fun t => t_company_id t = companyId
                 ∧ toLowerCase (t_title t)
                   = toLowerCase (trim (default "" (title taskData))))
         (tasks (db w)) ->
  let r := createTask E now new_id companyId taskData w in
  r.1 = Throw (ConflictError "Task with this title already exists for your company")
  ∧ db r.2 = db w ∧ calls r.2 = calls w ∧ uuids_drawn r.2 = uuids_drawn w.
Proof.
  intros Hvalid Hf Hdup r. subst r. rewrite createTask_unfold.
  rewrite Hvalid. erewrite bind_run_ok; [|reflexivity].
  erewrite bind_run_ok; [|by apply query_select].
  assert (Hsome : select_same_title companyId (trim (default "" (title taskData))) (db w)
                  <> []).
  { unfold select_same_title. intros Hnil%fmap_nil_inv.
    by apply (filter_nil_iff
                (fun t0 => t_company_id t0 = companyId
                         ∧ toLowerCase (t_title t0)
                           = toLowerCase (trim (default "" (title taskData))))) in Hnil. }
  rewrite bool_decide_eq_false_2 by done. done.
Qed.

Lemma createTask_duplicate_title_witness :
  (createTask Sample.E 1700000000000 "task-2" "company-1" Sample.pizza_data
     Sample.active_world).1
  = Throw (ConflictError "Task with this title already exists for your company").
Proof.
  refine (proj1 (createTask_duplicate_title Sample.E 1700000000000 "task-2" "company-1"
                   Sample.pizza_data Sample.active_world _ _ _)).
  - vm_compute. reflexivity.
  - vm_compute. discriminate.
  - apply Exists_cons_hd. split; vm_compute; reflexivity.
Defined.

End CreateFacts.

(* ===================================================================== *)
(** ** TaskLifecycle: [publishTask] and [featureTask]                     *)
(* ===================================================================== *)

Module LifecycleFacts.
Import MonadFacts QueryFacts FrameFacts TaskService.

Definition has_image (t : task_row) : bool :=
  match t_image_url t with
  | Some url => negb (String.eqb url "")
  | None => false
  end.

Lemma select_owned_task_unique taskId companyId d task :
  NoDup (t_id <$> tasks d) -> task ∈ tasks d ->
  t_id task = taskId -> t_company_id task = companyId ->
  select_owned_task taskId companyId d = [task].
Proof.
  intros Hpk Hin Hid Hco. unfold select_owned_task.
  by apply (filter_unique_key t_id taskId (fun t => t_company_id t = companyId)).
Qed.

Lemma select_owned_task_none taskId companyId d :
  ¬ Exists (fun t => t_id t = taskId ∧ t_company_id t = companyId) (tasks d) ->
  select_owned_task taskId companyId d = [].
Proof.
  intros Hno. unfold select_owned_task.
  by apply (filter_nil_iff (fun t => t_id t = taskId ∧ t_company_id t = companyId)).
Qed.

(** The rows returned by an UPDATE ... RETURNING * that rewrites the one
    row of the task. *)
Lemma updated_rows (g : task_row -> task_row) taskId companyId (ts : list task_row) task :
  (forall t, t_id (g t) = t_id t ∧ t_company_id (g t) = t_company_id t) ->
  NoDup (t_id <$> ts) -> task ∈ ts ->
  t_id task = taskId -> t_company_id task = companyId ->
  filter (fun t => t_id t = taskId ∧ t_company_id t = companyId)
    ((fun t => if bool_decide (t_id t = taskId ∧ t_company_id t = companyId)
               then g t else t) <$> ts)
  = [g task].
Proof.
  intros Hg Hpk Hin Hid Hco.
  set (h := fun t => if bool_decide (t_id t = taskId ∧ t_company_id t = companyId)
                     then g t else t).
  assert (Hh : forall t, t_id (h t) = t_id t).
  { intros t. unfold h. case_bool_decide; [apply Hg|done]. }
  apply (filter_unique_key t_id taskId (fun t => t_company_id t = companyId)).
  - rewrite <- list_fmap_compose.
    erewrite (list_fmap_ext (t_id ∘ h) t_id); [done|]. intros ? t _. apply Hh.
  - apply list_elem_of_fmap. exists task. split; [|done].
    unfold h. by rewrite bool_decide_eq_true_2.
  - by destruct (Hg task) as [-> _].
  - by destruct (Hg task) as [_ ->].
Qed.

(** X21.  The gates of [publishTask], in the order in which they are checked,
    when every statement is delivered and [id] is the primary key of
    [tasks]: a task that the company does not own gives NotFoundError; a
    status other than 'draft' gives ForbiddenError; a missing or empty
    image reference gives ValidationError; a reward value that is not
    positive gives ValidationError; each of these leaves the store as it
    was.  Otherwise the status of this one row becomes 'active', every
    other column and row stays, and the updated row is returned. *)
Theorem publishTask_outcome taskId companyId w :
  db_faults w = [] ->
  NoDup (t_id <$> tasks (db w)) ->
  let r := publishTask taskId companyId w in
  (¬ Exists (fun t => t_id t = taskId ∧ t_company_id t = companyId) (tasks (db w)) ->
   r.1 = Throw (NotFoundError "Task not found or access denied") ∧ db r.2 = db w)
  ∧ (forall task, task ∈ tasks (db w) -> t_id task = taskId -> t_company_id task = companyId ->
     (t_status task <> "draft" ->
      r.1 = Throw (ForbiddenError "Only draft tasks can be published") ∧ db r.2 = db w)
     ∧ (t_status task = "draft" -> has_image task = false ->
        r.1 = Throw (ValidationError "Task must have an image to be published")
        ∧ db r.2 = db w)
     ∧ (t_status task = "draft" -> has_image task = true ->
        (t_reward_value task <= 0)%Q ->
        r.1 = Throw (ValidationError "Task must have a valid reward value")
        ∧ db r.2 = db w)
     ∧ (t_status task = "draft" -> has_image task = true ->
        (0 < t_reward_value task)%Q ->
        r.1 = Ok (Some (set_status "active" task))
        ∧ tasks (db r.2)
          = (fun t => if bool_decide (t_id t = taskId)
                      then set_status "active" t else t) <$> tasks (db w)
        ∧ task_attempts (db r.2) = task_attempts (db w)
        ∧ user_rewards (db r.2) = user_rewards (db w))).
Proof.
  intros Hf Hpk r. subst r. unfold publishTask. split.
  { intros Hno. erewrite bind_run_ok; [|apply query_select; by rewrite Hf].
    by rewrite select_owned_task_none. }
  intros task Hin Hid Hco.
  erewrite bind_run_ok; [|apply query_select; by rewrite Hf].
  rewrite (select_owned_task_unique _ _ _ task) by done.
  set (w1 := delivered None (db w) w).
  assert (Hf1 : db_faults w1 = []) by (subst w1; by rewrite db_faults_delivered, Hf).
  assert (Hd1 : db w1 = db w) by done.
  clearbody w1.
  split; [|split; [|split] ].
  - intros Hst. apply String.eqb_neq in Hst. by rewrite Hst.
  - intros Hst Himg. rewrite Hst. cbn [String.eqb negb]. unfold has_image in Himg.
    erewrite bind_run_ok; [|reflexivity].
    destruct (t_image_url task) as [url|]; [|done].
    apply negb_false_iff in Himg. by rewrite Himg.
  - intros Hst Himg Hval. rewrite Hst. unfold has_image in Himg.
    erewrite bind_run_ok; [|reflexivity].
    destruct (t_image_url task) as [url|]; [|discriminate Himg].
    apply negb_true_iff in Himg. rewrite Himg.
    erewrite bind_run_ok; [|reflexivity].
    apply Qle_bool_iff in Hval. by rewrite Hval.
  - intros Hst Himg Hval. rewrite Hst. unfold has_image in Himg.
    erewrite bind_run_ok; [|reflexivity].
    destruct (t_image_url task) as [url|]; [|discriminate Himg].
    apply negb_true_iff in Himg. rewrite Himg.
    erewrite bind_run_ok; [|reflexivity].
    assert (Hpos : Qle_bool (t_reward_value task) 0 = false).
    { destruct (Qle_bool (t_reward_value task) 0) eqn:Hle; [|done].
      apply Qle_bool_iff in Hle. by apply Qle_not_lt in Hle. }
    rewrite Hpos. erewrite bind_run_ok; [|reflexivity].
    erewrite bind_run_ok; [|rewrite query_delivered by (by rewrite Hf1); reflexivity].
    destruct (cache_del_run (cache_key taskId)
                (delivered None
                   (with_tasks
                      ((fun t => if bool_decide (t_id t = taskId ∧ t_company_id t = companyId)
                                 then set_status "active" t else t) <$> tasks (db w1))
                      (db w1)) w1)) as (b & w2 & Hdel & Hd2 & _).
    erewrite bind_run_ok; [|exact Hdel].
    erewrite bind_run_ok; [|reflexivity].
    cbn [fst snd ret db set_log logger]. rewrite Hd2, db_delivered, Hd1.
    cbn [tasks task_attempts user_rewards with_tasks].
    split; [|split; [|done] ].
    + by rewrite (updated_rows (set_status "active") taskId companyId (tasks (db w)) task).
    + apply list_fmap_ext. intros i t Ht.
      assert (Htin : t ∈ tasks (db w)) by by eapply list_elem_of_lookup_2.
      destruct (decide (t_id t = taskId)) as [Heq|Hne].
      * rewrite !bool_decide_eq_true_2; [done|done|]. split; [done|].
        assert (t = task) as -> by (apply (NoDup_fmap_eq t_id (tasks (db w)));
                                   [done|done|done|congruence]).
        done.
      * rewrite !bool_decide_eq_false_2; [done|done|]. by intros [? _].
Qed.

Definition draft_world : world :=
  Sample.boot (Sample.store [Sample.pizza "draft" None] [] []) [].

Lemma publishTask_outcome_witness :
  (publishTask "task-1" "company-1" draft_world).1
  = Ok (Some (Sample.pizza "active" None))
  ∧ tasks (db (publishTask "task-1" "company-1" draft_world).2)
    = [Sample.pizza "active" None].
Proof.
  destruct (publishTask_outcome "task-1" "company-1" draft_world eq_refl) as [_ H].
  - apply NoDup_singleton.
  - destruct (H (Sample.pizza "draft" None)) as (_ & _ & _ & Hok).
    + apply list_elem_of_here.
    + reflexivity.
    + reflexivity.
    + destruct Hok as (Hr & Ht & _); [reflexivity|reflexivity|reflexivity|].
      split; [exact Hr|exact Ht].
Defined.

Definition costPerDay (FEATURED_TASK_COST_PER_DAY : option Z) : Z :=
  match FEATURED_TASK_COST_PER_DAY with
  | Some c => if c =? 0 then 99 else c
  | None => 99
  end.

(** X22.  [featureTask], when every statement is delivered, [id] is the
    primary key of [tasks] and the clock reads a time since 1970: a task
    that the company does not own gives NotFoundError and a task whose
    status is not 'active' gives ForbiddenError, the store staying as it
    was.  For an active task the deadline is [durationDays] days from
    now.  When the deadline is a date from 0001-01-01 on, the row of the
    task gets [is_featured = true] and [featured_until] = the deadline,
    every other column and every other row staying as they were, and the
    call returns that row, the deadline and the cost: the cost per day
    (99 when the variable is unset or 0) times the number of days,
    whatever its sign.  When the deadline is beyond the last date of
    JavaScript (8.64e15 ms), the UPDATE is refused (SQLSTATE 22007), the
    call throws that error and the store stays as it was. *)
Theorem featureTask_outcome cost_per_day now taskId companyId durationDays w :
  db_faults w = [] ->
  NoDup (t_id <$> tasks (db w)) ->
  0 <= now <= 8640000000000000 ->
  let r := featureTask cost_per_day now taskId companyId durationDays w in
  let deadline := now + durationDays * 86400000 in
  (¬ Exists (fun t => t_id t = taskId ∧ t_company_id t = companyId) (tasks (db w)) ->
   r.1 = Throw (NotFoundError "Task not found or access denied") ∧ db r.2 = db w)
  ∧ (forall task, task ∈ tasks (db w) -> t_id task = taskId -> t_company_id task = companyId ->
     (t_status task <> "active" ->
      r.1 = Throw (ForbiddenError "Only active tasks can be featured") ∧ db r.2 = db w)
     ∧ (t_status task = "active" ->
        -62135596800000 <= deadline <= 8640000000000000 ->
        Z.abs (costPerDay cost_per_day * durationDays) <= 9007199254740991 ->
        let featured :=
          {| t_id := taskId; t_company_id := companyId; t_title := t_title task;
             t_description := t_description task; t_task_type := t_task_type task;
             t_difficulty := t_difficulty task; t_reward_type := t_reward_type task;
             t_reward_value := t_reward_value task;
             t_reward_description := t_reward_description task;
             t_image_url := t_image_url task; t_puzzle_config := t_puzzle_config task;
             t_status := "active"; t_is_featured := true;
             t_featured_until := Some deadline;
             t_attempt_count := t_attempt_count task;
             t_conversion_count := t_conversion_count task;
             t_expires_at := t_expires_at task |} in
        r.1 = Ok {| featured_task := Some featured;
                    cost := costPerDay cost_per_day * durationDays;
                    featured_until := deadline |}
        ∧ (cost_per_day = None ∨ cost_per_day = Some 0 ->
           cost <$> (match r.1 with Ok f => Some f | Throw _ => None end)
           = Some (99 * durationDays))
        ∧ tasks (db r.2)
          = (fun t => if bool_decide (t_id t = taskId) then featured else t)
            <$> tasks (db w)
        ∧ featured ∈ tasks (db r.2)
        ∧ task_attempts (db r.2) = task_attempts (db w)
        ∧ user_rewards (db r.2) = user_rewards (db w))
     ∧ (t_status task = "active" -> 8640000000000000 < deadline ->
        r.1 = Throw (DatabaseError invalid_datetime_format) ∧ db r.2 = db w)).
Proof.
  intros Hf Hpk Hnow r deadline. subst r. unfold featureTask. split.
  { intros Hno. erewrite bind_run_ok; [|apply query_select; by rewrite Hf].
    by rewrite select_owned_task_none. }
  intros task Hin Hid Hco.
  erewrite bind_run_ok; [|apply query_select; by rewrite Hf].
  rewrite (select_owned_task_unique _ _ _ task) by done.
  set (w1 := delivered None (db w) w).
  assert (Hf1 : db_faults w1 = []) by (subst w1; by rewrite db_faults_delivered, Hf).
  assert (Hd1 : db w1 = db w) by done.
  clearbody w1.
  assert (Huntil : now + durationDays * 24 * 60 * 60 * 1000 = deadline)
    by (subst deadline; lia).
  assert (Hrefused : forall code,
            t_status task = "active" ->
            timestamp_param deadline = Throw (DatabaseError code) ->
            ((if negb (t_status task =? "active")%string
              then throw (ForbiddenError "Only active tasks can be featured")
              else ret tt) ;;;
             result <- query (update_featured (now + durationDays * 24 * 60 * 60 * 1000)
                                taskId companyId) ;;
             Cache.del (cache_key taskId) ;;;
             logger "business" "Task featured" None ;;;
             ret {| featured_task := head result;
                    cost := match cost_per_day with
                            | Some c => if c =? 0 then 99 else c
                            | None => 99
                            end * durationDays;
                    featured_until := now + durationDays * 24 * 60 * 60 * 1000 |}) w1
            = (Throw (DatabaseError code), delivered (Some (DatabaseError code)) (db w1) w1)).
  { intros code Hst Hparam. rewrite Hst, Huntil. cbn [String.eqb negb].
    erewrite bind_run_ok; [|reflexivity].
    unfold bind. rewrite query_delivered by (by rewrite Hf1).
    unfold update_featured. by rewrite Hparam. }
  split; [|split].
  - intros Hst. apply String.eqb_neq in Hst. by rewrite Hst.
  - intros Hst Hvalid Hsafe. cbv zeta.
    rewrite Hst. cbn [String.eqb negb].
    erewrite bind_run_ok; [|reflexivity]. fold (costPerDay cost_per_day).
    rewrite Huntil.
    erewrite bind_run_ok.
    2: { rewrite query_delivered by (by rewrite Hf1). unfold update_featured.
         rewrite (timestamp_param_Ok deadline) by lia. reflexivity. }
    destruct (cache_del_run (cache_key taskId)
                (delivered None
                   (with_tasks
                      ((fun t => if bool_decide (t_id t = taskId ∧ t_company_id t = companyId)
                                 then set_featured deadline t else t) <$> tasks (db w1))
                      (db w1)) w1)) as (b & w2 & Hdel & Hd2 & _).
    erewrite bind_run_ok; [|exact Hdel].
    erewrite bind_run_ok; [|reflexivity].
    cbn [fst snd ret db set_log logger]. rewrite Hd2, db_delivered, Hd1.
    cbn [tasks task_attempts user_rewards with_tasks].
    rewrite (updated_rows (set_featured deadline) taskId companyId (tasks (db w)) task)
      by done.
    assert (Hrow : set_featured deadline task
                   = {| t_id := taskId; t_company_id := companyId; t_title := t_title task;
                        t_description := t_description task;
                        t_task_type := t_task_type task;
                        t_difficulty := t_difficulty task;
                        t_reward_type := t_reward_type task;
                        t_reward_value := t_reward_value task;
                        t_reward_description := t_reward_description task;
                        t_image_url := t_image_url task;
                        t_puzzle_config := t_puzzle_config task;
                        t_status := "active"; t_is_featured := true;
                        t_featured_until := Some deadline;
                        t_attempt_count := t_attempt_count task;
                        t_conversion_count := t_conversion_count task;
                        t_expires_at := t_expires_at task |}).
    { unfold set_featured. by rewrite Hid, Hco, Hst. }
    rewrite <- Hrow.
    assert (Hrows : (fun t => if bool_decide (t_id t = taskId ∧ t_company_id t = companyId)
                              then set_featured deadline t else t) <$> tasks (db w)
                    = (fun t => if bool_decide (t_id t = taskId)
                                then set_featured deadline task else t) <$> tasks (db w)).
    { apply list_fmap_ext. intros i t Ht.
      assert (Htin : t ∈ tasks (db w)) by by eapply list_elem_of_lookup_2.
      destruct (decide (t_id t = taskId)) as [Heq|Hne].
      - assert (t = task) as -> by (apply (NoDup_fmap_eq t_id (tasks (db w)));
                                   [done|done|done|congruence]).
        by rewrite !bool_decide_eq_true_2.
      - rewrite !bool_decide_eq_false_2; [done|done|]. by intros [? _]. }
    rewrite Hrows.
    split; [done|]. split; [by intros [->| ->]|]. split; [done|]. split; [|done].
    apply list_elem_of_fmap. exists task. by rewrite bool_decide_eq_true_2.
  - intros Hst Hlate. rewrite (Hrefused invalid_datetime_format); [done|done|].
    unfold timestamp_param. by rewrite (proj2 (Z.ltb_lt _ _)) by lia.
Qed.

Lemma featureTask_outcome_witness :
  let r := featureTask None 1700000000000 "task-1" "company-1" 7 Sample.active_world in
  let r' := featureTask None 1700000000000 "task-1" "company-1" 100000000
              Sample.active_world in
  (cost <$> (match r.1 with Ok f => Some f | Throw _ => None end) = Some 693
   ∧ (fun t => (t_is_featured t, t_featured_until t)) <$> tasks (db r.2)
     = [(true, Some 1700604800000)])
  ∧ r'.1 = Throw (DatabaseError invalid_datetime_format)
  ∧ (fun t => (t_is_featured t, t_featured_until t)) <$> tasks (db r'.2) = [(false, None)].
Proof.
  cbv zeta. split.
  - destruct (featureTask_outcome None 1700000000000 "task-1" "company-1" 7
                Sample.active_world eq_refl) as [_ H].
    + apply NoDup_singleton.
    + lia.
    + destruct (H (Sample.pizza "active" None)) as (_ & Hok & _).
      * apply list_elem_of_here.
      * reflexivity.
      * reflexivity.
      * destruct Hok as (_ & Hcost & Htasks & _); [reflexivity|vm_compute; split; discriminate
                                                  |vm_compute; discriminate|].
        split; [apply Hcost; by left|]. by rewrite Htasks.
  - destruct (featureTask_outcome None 1700000000000 "task-1" "company-1" 100000000
                Sample.active_world eq_refl) as [_ H].
    + apply NoDup_singleton.
    + lia.
    + destruct (H (Sample.pizza "active" None)) as (_ & _ & Hlate).
      * apply list_elem_of_here.
      * reflexivity.
      * reflexivity.
      * destruct Hlate as [Hthrow Hdb]; [reflexivity|reflexivity|].
        split; [exact Hthrow|]. by rewrite Hdb.
Defined.

End LifecycleFacts.

(* ===================================================================== *)
(** ** RewardLedger: from issue to redemption                             *)
(* ===================================================================== *)

Module RewardLifecycleFacts.
Import MonadFacts QueryFacts UserService RedeemFacts IssueFacts.

Lemma insert_user_reward_fresh_id r d reward d1 :
  insert_user_reward r d = (Ok reward, d1) ->
  ¬ Exists (fun b => r_id b = r_id r) (user_rewards d).
Proof.
  unfold insert_user_reward. case_bool_decide as Hdup; [done|].
  intros _ Hex. apply Hdup. eapply Exists_impl; [exact Hex|]. intros b Hb. by left.
Qed.

(** What a [createReward] that returned has left in the store. *)
Lemma createReward_ok_inv E now new_id userId taskId w reward w' :
  db_faults w = [] ->
  createReward E now new_id userId taskId w = (Ok reward, w') ->
  db_faults w' = []
  ∧ db w' = with_user_rewards (user_rewards (db w) ++ [reward]) (db w)
  ∧ r_id reward = new_id ∧ r_user_id reward = userId ∧ r_task_id reward = taskId
  ∧ r_is_redeemed reward = false
  ∧ r_expires_at reward = now + expiryDays E * 24 * 60 * 60 * 1000
  ∧ (r_reward_code reward ∉ (r_reward_code <$> user_rewards (db w)))
  ∧ ¬ Exists (fun b => r_id b = new_id) (user_rewards (db w))
  ∧ exists task, task ∈ tasks (db w) ∧ t_id task = taskId
                 ∧ r_reward_type reward = t_reward_type task
                 ∧ r_reward_value reward = t_reward_value task.
Proof.
  intros Hf Hrun.
  destruct (createReward_no_faults E now new_id userId taskId w Hf)
    as (w1 & Hrun1 & Hdb & Hf1 & _).
  rewrite Hrun in Hrun1. injection Hrun1 as Hok <-.
  unfold createReward_delivered in Hok, Hdb.
  destruct (negb _); [discriminate Hok|].
  destruct (select_task taskId (db w)) as [|task rest] eqn:Hsel; [discriminate Hok|].
  destruct (insert_user_reward _ (db w)) as [o d1] eqn:Hins. cbn [fst snd] in Hok, Hdb.
  subst o. pose proof (insert_user_reward_fresh_id _ _ _ _ Hins) as Hnewid.
  apply insert_user_reward_inv in Hins as (Hr & -> & Hfresh).
  subst reward. repeat split; try done.
  exists task.
    assert (Hin : task ∈ select_task taskId (db w))
      by (rewrite Hsel; apply list_elem_of_here).
    by apply list_elem_of_filter in Hin as [? ?].
Qed.

(** X23.  One reward per player and task: after a [createReward] that returned,
    a further [createReward] for the same player and task fails with
    ConflictError and stores nothing. *)
Theorem createReward_second_conflicts E now new_id userId taskId w reward w'
    now' new_id' :
  db_faults w = [] ->
  createReward E now new_id userId taskId w = (Ok reward, w') ->
  (createReward E now' new_id' userId taskId w').1
  = Throw (ConflictError "Reward already exists for this task")
  ∧ db (createReward E now' new_id' userId taskId w').2 = db w'.
Proof.
  intros Hf Hrun.
  apply createReward_ok_inv in Hrun as (Hf' & Hdb & _ & Huser & Htask & _); [|done].
  destruct (createReward_no_faults E now' new_id' userId taskId w' Hf')
    as (w2 & Hrun2 & Hdb2 & _).
  rewrite Hrun2. cbn [fst snd]. rewrite Hdb2. unfold createReward_delivered.
  assert (Hsome : select_reward_ids userId taskId (db w') <> []).
  { unfold select_reward_ids. rewrite Hdb. cbn [user_rewards with_user_rewards].
    rewrite filter_app, fmap_app, filter_cons, decide_True by done.
    by destruct (r_id <$> _). }
  by rewrite bool_decide_eq_false_2.
Qed.

Lemma createReward_second_conflicts_witness :
  (createReward Sample.E 1700000060000 "reward-2" "player-1" "task-1"
     (createReward Sample.E 1700000000000 "reward-1" "player-1" "task-1"
        Sample.active_world).2).1
  = Throw (ConflictError "Reward already exists for this task").
Proof.
  refine (proj1 (createReward_second_conflicts Sample.E 1700000000000 "reward-1" "player-1"
                   "task-1" Sample.active_world
                   (reward_row_of Sample.E 1700000000000 "reward-1" "player-1" "task-1" 0
                      (Sample.pizza "active" None))
                   _ 1700000060000 "reward-2" eq_refl _)).
  vm_compute. reflexivity.
Defined.

(** X24.  From issue to redemption.  In a store with its foreign keys in place
    and unique reward codes, with every statement delivered: the reward
    issued by [createReward] is redeemed by its owner, with the code, type
    and value it was issued with, at any time up to its expiry; after the
    expiry - with the default of 30 days, from the 31st day on - the
    redemption fails with GoneError; and with any other user id it fails
    with NotFoundError.  The failures leave the reward unredeemed. *)
Theorem createReward_then_redeemReward E now new_id userId taskId w reward w' later :
  db_faults w = [] -> rewards_joinable (db w) ->
  NoDup (r_reward_code <$> user_rewards (db w)) ->
  createReward E now new_id userId taskId w = (Ok reward, w') ->
  let r := redeemReward E later userId (r_reward_code reward) w' in
  (later <= r_expires_at reward ->
   exists result,
     r.1 = Ok result
     ∧ red_id result = new_id
     ∧ red_reward_code result = r_reward_code reward
     ∧ red_reward_type result = r_reward_type reward
     ∧ red_reward_value result = r_reward_value reward
     ∧ user_rewards (db r.2) = user_rewards (db w) ++ [mark_redeemed later reward])
  ∧ (r_expires_at reward < later ->
     r.1 = Throw (GoneError "Reward has expired") ∧ db r.2 = db w')
  ∧ (REWARD_EXPIRY_DAYS E = None -> now + 31 * 86400000 <= later ->
     r.1 = Throw (GoneError "Reward has expired"))
  ∧ (forall other, other <> userId ->
       (redeemReward E later other (r_reward_code reward) w').1
       = Throw (NotFoundError "Reward not found")
       ∧ db (redeemReward E later other (r_reward_code reward) w').2 = db w').
Proof.
  intros Hf [Hfk1 Hfk2] Hcodes Hrun r.
  apply createReward_ok_inv in Hrun
    as (Hf' & Hdb & Hid & Huser & Htask & Hnew & Hexp & Hfresh & Hnewid & task & Hin
        & Htid & _);
    [|done].
  assert (Hjoin : rewards_joinable (db w')).
  { rewrite Hdb. split; [|done]. cbn [user_rewards tasks with_user_rewards].
    apply Forall_app. split; [done|]. apply Forall_singleton.
    apply Exists_exists. exists task. split; [done|]. congruence. }
  assert (Hcodes' : NoDup (r_reward_code <$> user_rewards (db w'))).
  { rewrite Hdb. cbn [user_rewards with_user_rewards]. rewrite fmap_app.
    apply NoDup_app. repeat split; [done| |apply NoDup_singleton].
    intros c Hc Hc'. apply list_elem_of_singleton in Hc'. by subst c. }
  assert (Hmem : reward ∈ user_rewards (db w')).
  { rewrite Hdb. cbn [user_rewards with_user_rewards].
    apply elem_of_app. right. apply list_elem_of_here. }
  destruct (redeemReward_found E later userId (r_reward_code reward) w' reward
              Hf' Hjoin Hcodes' Hmem eq_refl Huser)
    as (found & w2 & Hfound & _ & Hred & Hdb2).
  rewrite Hnew in Hred, Hdb2.
  assert (Hgone : r_expires_at reward < later ->
            r.1 = Throw (GoneError "Reward has expired") ∧ db r.2 = db w').
  { intros Hlate. apply Z.ltb_lt in Hlate. subst r. rewrite Hlate in Hred, Hdb2.
    by rewrite Hred. }
  split; [|split; [done|split] ].
  - intros Hintime. apply Z.ltb_ge in Hintime. subst r. rewrite Hintime in Hred, Hdb2.
    rewrite Hred. cbn [fst snd]. exists (redemption_of E later found).
    unfold redemption_of. cbn. rewrite Hfound. repeat split; try done.
    rewrite Hdb2, Hdb. unfold update_redeemed.
    cbn [user_rewards with_user_rewards]. rewrite fmap_app. f_equal.
    + erewrite (list_fmap_ext _ id); [apply list_fmap_id|].
      intros i y Hy. rewrite bool_decide_eq_false_2; [done|].
      intros Heq. apply Hnewid. apply Exists_exists. exists y.
      split; [by eapply list_elem_of_lookup_2|congruence].
    + cbn. by rewrite bool_decide_eq_true_2.
  - intros Hdays Hlate. apply Hgone. rewrite Hexp. unfold expiryDays. rewrite Hdays. lia.
  - intros other Hother.
    destruct (redeemReward_no_faults E later other (r_reward_code reward) w' Hf')
      as (w3 & Hrun3 & Hdb3 & _).
    rewrite Hrun3. cbn [fst snd]. rewrite Hdb3. unfold redeemReward_delivered.
    rewrite select_reward_details_none; [done|].
    intros Hex. apply Exists_exists in Hex as (y & Hy & Hycode & Hyuser).
    assert (y = reward)
      by (by apply (NoDup_fmap_eq r_reward_code (user_rewards (db w')))).
    congruence.
Qed.

Lemma createReward_then_redeemReward_witness :
  (redeemReward Sample.E (1700000000000 + 31 * 86400000) "player-1" "TLloyw3v284FZYO8"
     (createReward Sample.E 1700000000000 "reward-1" "player-1" "task-1"
        Sample.active_world).2).1
  = Throw (GoneError "Reward has expired").
Proof.
  destruct (createReward_then_redeemReward Sample.E 1700000000000 "reward-1" "player-1"
              "task-1" Sample.active_world
              (reward_row_of Sample.E 1700000000000 "reward-1" "player-1" "task-1" 0
                 (Sample.pizza "active" None))
              (createReward Sample.E 1700000000000 "reward-1" "player-1" "task-1"
                 Sample.active_world).2
              (1700000000000 + 31 * 86400000) eq_refl)
    as (_ & _ & Hgone & _).
  - split; [apply Forall_nil_2|].
    apply Forall_singleton. apply Exists_cons_hd. reflexivity.
  - apply NoDup_nil_2.
  - vm_compute. reflexivity.
  - apply Hgone; [reflexivity|]. apply Z.le_refl.
Defined.

End RewardLifecycleFacts.

(* ===================================================================== *)
(** ** PuzzleGenerator: scoring on a grid of times, difficulty, failures  *)
(* ===================================================================== *)

Module GeneratorFacts.
Import MonadFacts FrameFacts PuzzleGenerator PuzzleFacts.

(** X3.  Two arrays of integers of the same length are never rejected: the
    result says [is_correct] exactly when they are equal, item by item and
    in order; a wrong arrangement scores 0 with no bonus, a right one has
    the base score 100. *)
Theorem validateSolution_correct_iff_equal (lu lc : list Z) (timeTaken : float) :
  length lu = length lc ->
  exists v,
    validateSolution (index_array lu) (index_array lc) timeTaken = Ok v
    ∧ (is_correct v = true <-> lu = lc)
    ∧ (lu <> lc -> score v = 0%float ∧ time_bonus v = 0%float ∧ base_score v = None)
    ∧ (lu = lc -> base_score v = Some 100%float
                  ∧ score v = (100 + time_bonus v)%float).
Proof.
  intros Hlen. rewrite ValidatorFacts.validateSolution_index_arrays by done.
  case_bool_decide as Heq; eexists; (split; [reflexivity|]); cbn; repeat split; done.
Qed.

Lemma validateSolution_correct_iff_equal_witness :
  exists v,
    validateSolution (index_array [2; 0; 1]) (index_array [0; 1; 2]) 45000 = Ok v
    ∧ is_correct v = false.
Proof.
  destruct (validateSolution_correct_iff_equal [2; 0; 1] [0; 1; 2] 45000 eq_refl)
    as (v & Hv & Hiff & _).
  exists v. split; [exact Hv|].
  destruct (is_correct v); [|reflexivity].
  destruct Hiff as [Hiff _]. discriminate (Hiff eq_refl).
Defined.

(** The bonus and the score computed by [validateSolution] after
    [tenths] tenths of a second, compared with the formula over the
    rationals. *)
Definition bonus_agrees (tenths : Z) : bool :=
  let timeTaken := number_of_Z (tenths * 100) in
  let timeBonus := Math_floor (Math_max 0 ((300 - timeTaken / 1000) / 300) * 50)%float in
  Leibniz.eqb timeBonus (number_of_Z (Formula.time_bonus (tenths * 100)))
  && Leibniz.eqb (100 + timeBonus)%float (number_of_Z (Formula.score (tenths * 100))).

Definition tenths_of_ten_minutes : list Z := Z.of_nat <$> seq 0 (Z.to_nat 6001).

Lemma bonus_agrees_on_grid :
  forallb (fun t => (t =? 1260) || bonus_agrees t) tenths_of_ten_minutes = true.
Proof. vm_compute. reflexivity. Qed.

Lemma Qfloor_fifty (q : Q) : (0 <= q)%Q -> (q <= 1)%Q -> 0 <= Qfloor (50 * q) <= 50.
Proof.
  intros H0 H1.
  assert (Hlo : Qfloor (inject_Z 0) <= Qfloor (50 * q)).
  { apply Qfloor_resp_le. destruct q as [a b]. unfold Qle in *. simpl in *. lia. }
  assert (Hhi : Qfloor (50 * q) <= Qfloor (inject_Z 50)).
  { apply Qfloor_resp_le. destruct q as [a b]. unfold Qle in *. simpl in *. lia. }
  rewrite Qfloor_Z in Hlo, Hhi. done.
Qed.

Lemma formula_time_bonus_range (ms : Z) :
  0 <= ms -> 0 <= Formula.time_bonus ms <= 50.
Proof.
  intros Hms. unfold Formula.time_bonus. apply Qfloor_fifty.
  - apply Q.le_max_l.
  - apply Q.max_lub; [done|].
    unfold Qle, Qdiv, Qminus, Qmult, Qplus, Qinv, Qopp, inject_Z. simpl. lia.
Qed.

Lemma formula_time_bonus_late (ms : Z) :
  300000 <= ms -> Formula.time_bonus ms = 0.
Proof.
  intros Hms. unfold Formula.time_bonus.
  assert (Hmax : (Qmax 0 ((300 - inject_Z ms / 1000) / 300) == 0)%Q).
  { apply Q.max_l.
    unfold Qle, Qdiv, Qminus, Qmult, Qplus, Qinv, Qopp, inject_Z. simpl. lia. }
  rewrite Hmax. reflexivity.
Qed.

(** X4.  On every tenth of a second from 0 to 600 seconds, except at 126.0
    seconds, the binary64 arithmetic of [validateSolution] gives the bonus
    and the score of the formula floor(50 * max(0, (300 - t) / 300)) and
    100 + bonus; so on this grid the bonus is a whole number from 0 to 50
    and is 0 from 300 seconds on. *)
Theorem validateSolution_bonus_on_tenths (solution : list Z) (tenths : Z) :
  0 <= tenths <= 6000 -> tenths <> 1260 ->
  exists v,
    validateSolution (index_array solution) (index_array solution)
      (number_of_Z (tenths * 100)) = Ok v
    ∧ is_correct v = true
    ∧ time_bonus v = number_of_Z (Formula.time_bonus (tenths * 100))
    ∧ score v = number_of_Z (Formula.score (tenths * 100))
    ∧ 0 <= Formula.time_bonus (tenths * 100) <= 50
    ∧ (3000 <= tenths -> Formula.time_bonus (tenths * 100) = 0).
Proof.
  intros Hrange Hne.
  rewrite ValidatorFacts.validateSolution_index_arrays by done.
  rewrite bool_decide_eq_true_2 by done. eexists. split; [reflexivity|].
  cbn [is_correct time_bonus score].
  pose proof bonus_agrees_on_grid as Hgrid.
  rewrite forallb_forall in Hgrid.
  assert (Hin : In tenths tenths_of_ten_minutes).
  { apply list_elem_of_In. unfold tenths_of_ten_minutes.
    apply list_elem_of_fmap. exists (Z.to_nat tenths). split; [lia|].
    apply elem_of_seq. lia. }
  specialize (Hgrid tenths Hin).
  apply Z.eqb_neq in Hne. rewrite Hne in Hgrid. cbn [orb] in Hgrid.
  unfold bonus_agrees in Hgrid. apply andb_prop in Hgrid as [Hb Hs].
  apply Leibniz.eqb_spec in Hb, Hs.
  split; [done|]. split; [exact Hb|]. split; [exact Hs|].
  split.
  - apply formula_time_bonus_range. lia.
  - intros Hlate. apply formula_time_bonus_late. lia.
Qed.

Lemma validateSolution_bonus_on_tenths_witness :
  exists v,
    validateSolution (index_array [2; 0; 1]) (index_array [2; 0; 1]) 45000 = Ok v
    ∧ score v = 142%float.
Proof.
  destruct (validateSolution_bonus_on_tenths [2; 0; 1] 450) as (v & Hv & _ & _ & Hs & _).
  - lia.
  - lia.
  - exists v. split; [exact Hv|]. rewrite Hs. vm_compute. reflexivity.
Defined.

(** X5.  [calculateDifficulty] never throws: it returns one of 'easy', 'medium'
    and 'hard'; 'medium' whenever the pixels of some piece cannot be read,
    which it logs as an error; 'hard' for an empty list of pieces.  It
    leaves the store alone. *)
Theorem calculateDifficulty_never_throws E (pieceBuffers : list Buffer) w :
  exists d,
    (calculateDifficulty E pieceBuffers w).1 = Ok d
    ∧ d ∈ ["easy"; "medium"; "hard"]
    ∧ (Exists (fun b => piece_entropy E b = None) pieceBuffers ->
       d = "medium"
       ∧ exists caught,
           log (calculateDifficulty E pieceBuffers w).2
           = log w ++ [ {| level := "error"; message := "Difficulty calculation failed:";
                           thrown := Some caught |} ])
    ∧ (pieceBuffers = [] -> d = "hard")
    ∧ db (calculateDifficulty E pieceBuffers w).2 = db w.
Proof.
  unfold calculateDifficulty.
  destruct (mapM (piece_entropy E) pieceBuffers) as [entropies|] eqn:Hm.
  - assert (Hall : ¬ Exists (fun b => piece_entropy E b = None) pieceBuffers).
    { intros Hex. apply Exists_exists in Hex as (b & Hb & Hnone).
      assert (Hsome : is_Some (mapM (piece_entropy E) pieceBuffers)) by (by rewrite Hm).
      apply mapM_is_Some in Hsome. rewrite Forall_forall in Hsome.
      destruct (Hsome b Hb) as [q Hq]. simpl in Hq. congruence. }
    destruct pieceBuffers as [|b bs].
    + exists "hard". repeat split; try done. ShuffleFacts.in_list.
    + repeat destruct (Qlt_le_dec _ _); eexists; (split; [reflexivity|]);
        (split; [ShuffleFacts.in_list|done]).
  - exists "medium". split; [done|]. split; [ShuffleFacts.in_list|].
    split; [intros _; split; [done|by eexists]|]. split; [|done].
    intros ->. discriminate Hm.
Qed.

(** X6.  An image that [generateImagePuzzle] refuses.  An empty buffer and a
    buffer of more than 5,000,000 bytes are invalid whatever sharp
    reports.  When [isValidImage] is false and the grid size is valid, the
    call throws the ValidationError of the image: nothing has been
    resized, extracted or uploaded, no uuid has been drawn, the store is
    as it was, and the log has gained the entry of the failure. *)
Theorem generateImagePuzzle_failures E now imageBuffer gridSize w :
  valid_grid_size gridSize = true ->
  let r := generateImagePuzzle E now imageBuffer gridSize w in
  let refused := ValidationError "Invalid image format. Must be JPEG/PNG and < 5MB" in
  (length imageBuffer = 0%nat ∨ 5000000 < Z.of_nat (length imageBuffer) ->
   isValidImage E imageBuffer = false)
  ∧ (isValidImage E imageBuffer = false ->
     r.1 = Throw refused
     ∧ calls r.2 = calls w ∧ uuids_drawn r.2 = uuids_drawn w ∧ db r.2 = db w
     ∧ log r.2 = log w ++ [ {| level := "error"; message := "Puzzle generation failed:";
                               thrown := Some refused |} ]).
Proof.
  intros Hvalid r refused.
  assert (Heff : match gridSize with VUndefined => VNumber 9 | _ => gridSize end = gridSize).
  { by destruct gridSize. }
  split.
  - intros Hsize. unfold isValidImage.
    destruct Hsize as [Hzero|Hbig].
    + by rewrite Hzero.
    + apply Z.ltb_lt in Hbig. rewrite Hbig. by rewrite orb_true_r.
  - intros Hbad. subst r. unfold generateImagePuzzle.
    rewrite Heff, Hvalid, Hbad. done.
Qed.

Lemma generateImagePuzzle_failures_witness :
  (generateImagePuzzle Sample.E 1700000000000 [] (VNumber 9) Sample.active_world).1
  = Throw (ValidationError "Invalid image format. Must be JPEG/PNG and < 5MB").
Proof.
  destruct (generateImagePuzzle_failures Sample.E 1700000000000 [] (VNumber 9)
              Sample.active_world eq_refl) as (Hsize & Hbad).
  apply Hbad. apply Hsize. left. reflexivity.
Defined.

End GeneratorFacts.

(* ===================================================================== *)
(** ** [isValidImage] and the metadata it reads                           *)
(* ===================================================================== *)

Module MetadataFacts.
Import MonadFacts QueryFacts PuzzleGenerator TaskService GridFacts CreateFacts.

(** X7.  [isValidImage] reads [format], [width] and [height] from what
    [sharp(buffer).metadata()] returns, on the spot.  When that object has
    no [format] member - which is the case of the pending promise that the
    call returns when it is not awaited - no image is valid: every call of
    [generateImagePuzzle] with a grid size of the table fails with the
    ValidationError of the image check before sharp or S3 is used, and
    every [createTask] that carries an image, once the data are validated
    and the title is free, fails with the ValidationError of the image
    stage and stores nothing. *)
Theorem isValidImage_without_format E :
  (forall buffer metadata, sharp_metadata E buffer = Some metadata ->
                           format metadata = None) ->
  (forall buffer, isValidImage E buffer = false)
  ∧ (forall now buffer gridSize w,
       valid_grid_size gridSize = true ->
       (generateImagePuzzle E now buffer gridSize w).1
       = Throw (ValidationError "Invalid image format. Must be JPEG/PNG and < 5MB")
       ∧ calls (generateImagePuzzle E now buffer gridSize w).2 = calls w)
  ∧ (forall now new_id companyId taskData image w,
       validateTaskData E taskData = Ok tt ->
       image_file taskData = Some image -> image <> "" ->
       head (db_faults w) <> Some true ->
       select_same_title companyId (trim (default "" (title taskData))) (db w) = [] ->
       (createTask E now new_id companyId taskData w).1
       = Throw (ValidationError
           "Failed to process image. Please ensure it's a valid JPEG/PNG file under 5MB")
       ∧ db (createTask E now new_id companyId taskData w).2 = db w
       ∧ calls (createTask E now new_id companyId taskData w).2 = calls w).
Proof.
  intros Hformat.
  assert (Hinvalid : forall buffer, isValidImage E buffer = false).
  { intros buffer. unfold isValidImage.
    destruct (_ || _); [done|].
    destruct (sharp_metadata E buffer) as [metadata|] eqn:Hm; [|done].
    by rewrite (Hformat _ _ Hm). }
  assert (Hgen : forall now buffer gridSize w,
            valid_grid_size gridSize = true ->
            generateImagePuzzle E now buffer gridSize w
            = (Throw (ValidationError "Invalid image format. Must be JPEG/PNG and < 5MB"),
               set_log (log w ++
                 [ {| level := "error"; message := "Puzzle generation failed:";
                      thrown := Some (ValidationError
                        "Invalid image format. Must be JPEG/PNG and < 5MB") |} ]) w)).
  { intros now buffer gridSize w Hvalid. unfold generateImagePuzzle.
    assert (Heff : match gridSize with VUndefined => VNumber 9 | _ => gridSize end
                   = gridSize) by by destruct gridSize.
    by rewrite Heff, Hvalid, Hinvalid. }
  split; [done|]. split.
  - intros now buffer gridSize w Hvalid. by rewrite Hgen.
  - intros now new_id companyId taskData image w Hdata Himage Hnonempty Hf Hfree.
    rewrite createTask_unfold, Hdata.
    erewrite bind_run_ok; [|reflexivity].
    erewrite bind_run_ok; [|by apply query_select].
    rewrite Hfree. rewrite (bool_decide_eq_true_2 _ eq_refl). cbn [negb].
    erewrite bind_run_ok; [|reflexivity].
    assert (Himg : forall w1, exists w2,
              process_image E now taskData w1
              = (Throw (ValidationError
                   "Failed to process image. Please ensure it's a valid JPEG/PNG file under 5MB"),
                 w2)
              ∧ db w2 = db w1 ∧ calls w2 = calls w1).
    { intros w1. unfold process_image. rewrite Himage.
      apply String.eqb_neq in Hnonempty. rewrite Hnonempty.
      unfold try_catch, bind.
      rewrite Hgen
        by (by apply valid_difficulty_grid_size, (validateTaskData_difficulty E)).
      by eexists. }
    destruct (Himg (delivered None (db w) w)) as (w2 & Hrun & Hdb & Hcalls).
    erewrite bind_run_throw; [|exact Hrun]. cbn [fst snd]. by rewrite Hdb, Hcalls.
Qed.

(** An environment in which [metadata()] is read without being awaited. *)
Definition unawaited : environment :=
  {| sharp_metadata := fun _ => Some {| format := None; width := None; height := None |};
     sharp_resize_jpeg := sharp_resize_jpeg Sample.E;
     sharp_extract_jpeg := sharp_extract_jpeg Sample.E;
     piece_entropy := fun _ => None;
     sha256_hex := sha256_hex Sample.E;
     uuidv4 := uuidv4 Sample.E;
     Math_random := Math_random Sample.E;
     Math_random_toString36 := Math_random_toString36 Sample.E;
     Buffer_from_base64 := Buffer_from_base64 Sample.E;
     JSON_parse := JSON_parse Sample.E;
     toISOString := toISOString Sample.E;
     CDN_URL := None;
     REWARD_EXPIRY_DAYS := None;
     MAX_TASK_REWARD_VALUE := None |}.

Lemma isValidImage_without_format_witness :
  (createTask unawaited 1700000000000 "task-1" "company-1" Sample.pizza_data
     empty_world).1
  = Throw (ValidationError
      "Failed to process image. Please ensure it's a valid JPEG/PNG file under 5MB").
Proof.
  destruct (isValidImage_without_format unawaited) as (_ & _ & H).
  - intros buffer metadata [= <-]. reflexivity.
  - refine (proj1 (H 1700000000000 "task-1" "company-1" Sample.pizza_data "iVBORw0KGgo="
                     empty_world _ eq_refl _ _ eq_refl)).
    + vm_compute. reflexivity.
    + discriminate.
    + vm_compute. discriminate.
Defined.

End MetadataFacts.

(* ===================================================================== *)
(** ** [getRedemptionInstructions]                                        *)
(* ===================================================================== *)

Module InstructionFacts.
Import UserService.

Definition reward_types : list string := ["discount"; "coupon"; "points"; "cashback"].

Definition contact_company : string :=
  "Please contact the company for redemption instructions.".

(** X25.  Each of the four reward types has a guidance text of its own, none of
    them the fallback; any other type that is not the name of a member of
    [Object.prototype] gets the fallback text that refers to the company;
    the name of such a member gets that member, not a text. *)
Theorem getRedemptionInstructions_table (rewardType : string) :
  (rewardType ∈ reward_types ->
   exists text, getRedemptionInstructions rewardType = VString text
                ∧ text <> contact_company
                ∧ forall other, other ∈ reward_types ->
                    getRedemptionInstructions other = VString text -> other = rewardType)
  ∧ (rewardType ∉ reward_types -> rewardType ∉ Object_prototype_keys ->
     getRedemptionInstructions rewardType = VString contact_company)
  ∧ (rewardType ∈ Object_prototype_keys ->
     getRedemptionInstructions rewardType = VBuiltin rewardType).
Proof.
  split; [|split].
  - intros Hin. unfold reward_types in *.
    repeat (apply elem_of_cons in Hin as [->|Hin];
            [eexists; split; [vm_compute; reflexivity|];
             split; [discriminate|];
             intros other Hother;
             repeat (apply elem_of_cons in Hother as [->|Hother];
                     [first [reflexivity | vm_compute; discriminate]|]);
             by apply elem_of_nil in Hother|]).
    by apply elem_of_nil in Hin.
  - intros Hno Hproto. unfold getRedemptionInstructions, Js.get.
    assert (Hassoc : Js.assoc rewardType instructions = None).
    { apply JsFacts.assoc_None. exact Hno. }
    rewrite Hassoc. by rewrite bool_decide_eq_false_2.
  - intros Hproto. unfold Object_prototype_keys in Hproto.
    repeat (apply elem_of_cons in Hproto as [->|Hproto]; [vm_compute; reflexivity|]).
    by apply elem_of_nil in Hproto.
Qed.

Lemma getRedemptionInstructions_table_witness :
  getRedemptionInstructions "voucher" = VString contact_company.
Proof.
  apply (proj1 (proj2 (getRedemptionInstructions_table "voucher"))).
  - intros Hin. unfold reward_types in Hin.
    repeat (apply elem_of_cons in Hin as [Hin|Hin]; [discriminate Hin|]).
    by apply elem_of_nil in Hin.
  - intros Hin. unfold Object_prototype_keys in Hin.
    repeat (apply elem_of_cons in Hin as [Hin|Hin]; [discriminate Hin|]).
    by apply elem_of_nil in Hin.
Defined.

End InstructionFacts.

(* ===================================================================== *)
(** ** [deletePuzzleAssets]: from the image URL back to the storage key   *)
(* ===================================================================== *)

Module AssetFacts.
Import MonadFacts PuzzleGenerator PuzzleFacts.

Lemma prefix_app (p s : string) : String.prefix p (p +:+ s) = true.
Proof.
  induction p as [|c p IH]; [by destruct s|].
  rewrite JsFacts.app_cons. cbn [String.prefix].
  destruct (Ascii.ascii_dec c c) as [_|Hne]; [exact IH|by destruct Hne].
Qed.

Lemma length_app_string (p s : string) :
  String.length (p +:+ s) = (String.length p + String.length s)%nat.
Proof.
  induction p as [|c p IH]; [by rewrite JsFacts.app_empty|].
  rewrite JsFacts.app_cons. simpl. by rewrite IH.
Qed.

Lemma substring_all (s : string) : String.substring 0 (String.length s) s = s.
Proof. induction s as [|c s IH]; [done|]. simpl. by rewrite IH. Qed.

Lemma substring_after (p s : string) :
  String.substring (String.length p) (String.length s) (p +:+ s) = s.
Proof.
  induction p as [|c p IH].
  - rewrite JsFacts.app_empty. apply substring_all.
  - rewrite JsFacts.app_cons. exact IH.
Qed.

Lemma remove_first_prefix (p s : string) : remove_first p (p +:+ s) = s.
Proof.
  destruct (p +:+ s) as [|c rest] eqn:Hps.
  - destruct p; [|by rewrite JsFacts.app_cons in Hps].
    rewrite JsFacts.app_empty in Hps. subst s. by destruct (String.prefix "" "") eqn:H.
  - rewrite <- Hps. clear c rest Hps.
    destruct (p +:+ s) as [|c rest] eqn:Hps; cbn [remove_first]; rewrite <- Hps;
      rewrite prefix_app, length_app_string;
      replace (String.length p + String.length s - String.length p)%nat
        with (String.length s) by lia;
      apply substring_after.
Qed.

(** [appends m]: running [m] only adds to the list of calls made to the
    collaborators. *)
Definition appends {A} (m : M A) : Prop :=
  forall w, exists more, calls (m w).2 = calls w ++ more.

Lemma appends_of_keeps {A} (m : M A) : FrameFacts.keeps calls m -> appends m.
Proof. intros Hm w. exists []. by rewrite app_nil_r. Qed.

Lemma appends_call c : appends (call c).
Proof. intros w. by exists [c]. Qed.

Lemma appends_bind {A B} (m : M A) (k : A -> M B) :
  appends m -> (forall a, appends (k a)) -> appends (bind m k).
Proof.
  intros Hm Hk w. unfold bind. destruct (Hm w) as [more Hmore].
  destruct (m w) as [[a|e] w1]; simpl in *; [|by exists more].
  destruct (Hk a w1) as [more' Hmore']. exists (more ++ more').
  by rewrite Hmore', Hmore, <- app_assoc.
Qed.

Lemma appends_for_each {A B} (l : list A) (body : A -> M B) :
  (forall x, appends (body x)) -> appends (for_each l body).
Proof.
  intros Hbody. induction l as [|x l IH]; simpl.
  - by apply appends_of_keeps.
  - apply appends_bind; [done|]. intros y. apply appends_bind; [done|].
    intros ys. by apply appends_of_keeps.
Qed.

Lemma appends_extract_pieces E resized side pieceSize :
  appends (extract_pieces E resized side pieceSize).
Proof.
  unfold extract_pieces. apply appends_bind; [|intros ?; by apply appends_of_keeps].
  apply appends_for_each. intros row. apply appends_for_each. intros col.
  unfold extract_piece. apply appends_bind; [apply appends_call|]. intros _.
  apply appends_bind; [by apply appends_of_keeps|]. intros ?. by apply appends_of_keeps.
Qed.

(** What a successful [generateImagePuzzle] reports as the image URL. *)
Lemma generateImagePuzzle_image_url E now imageBuffer gridSize w config w' :
  generateImagePuzzle E now imageBuffer gridSize w = (Ok config, w') ->
  exists id, image_url config = cdnUrl E +:+ "/" +:+ ("puzzles/" +:+ id +:+ "-original.jpg")
             ∧ In (S3Upload ("puzzles/" +:+ id +:+ "-original.jpg")) (calls w').
Proof.
  unfold generateImagePuzzle. intros H.
  apply try_catch_ok_inv in H; [|done].
  apply bind_ok_inv in H as (u1 & w1 & _ & H).
  apply bind_ok_inv in H as (u2 & w2 & _ & H).
  apply bind_ok_inv in H as (u3 & w3 & _ & H).
  apply bind_ok_inv in H as (u4 & w4 & _ & H).
  apply bind_ok_inv in H as (resized & w5 & _ & H).
  apply bind_ok_inv in H as (id & w6 & _ & H).
  apply bind_ok_inv in H as (u7 & w7 & Hupload & H).
  exists id.
  assert (Hin : In (S3Upload ("puzzles/" +:+ id +:+ "-original.jpg")) (calls w7)).
  { unfold uploadToS3 in Hupload.
    apply bind_ok_inv in Hupload as (u & w8 & Hcall & Hupload).
    injection Hcall as _ <-.
    destruct (s3_up _); [|discriminate Hupload].
    injection Hupload as _ <-. cbn. apply in_or_app. right. by left. }
  match type of H with
  | ?K w7 = _ =>
      assert (Hk : appends K);
      [|destruct (Hk w7) as [more Hmore]; rewrite H in Hmore; cbn [snd] in Hmore]
  end.
  { apply appends_bind; [apply appends_extract_pieces|]. intros extracted.
    apply appends_bind.
    { apply appends_for_each. intros i. apply appends_of_keeps.
      apply FrameFacts.keeps_bind; [by apply FrameFacts.keeps_draw_uuid|done]. }
    intros pieceKeys.
    apply appends_bind; [by apply appends_of_keeps, FrameFacts.keeps_shuffleArray|].
    intros shuffled.
    apply appends_bind; [by apply appends_of_keeps, FrameFacts.keeps_calculateDifficulty|].
    intros difficulty.
    apply appends_bind; [by apply appends_of_keeps, FrameFacts.keeps_logger|].
    intros _. by apply appends_of_keeps. }
  split.
  - apply bind_ok_inv in H as (extracted & w8 & _ & H).
    apply bind_ok_inv in H as (pieceKeys & w9 & _ & H).
    apply bind_ok_inv in H as (shuffled & w10 & _ & H).
    apply bind_ok_inv in H as (difficulty & w11 & _ & H).
    apply bind_ok_inv in H as (u12 & w12 & _ & H).
    by injection H as <- _.
  - rewrite Hmore. apply in_or_app. by left.
Qed.

(** X26.  The key that [deletePuzzleAssets] asks S3 to delete for an image URL
    under the CDN prefix is the URL without that prefix - so for the image
    URL of a puzzle made by [generateImagePuzzle] it is the very key under
    which the image was uploaded.  The call never throws, whether or not S3
    answers, and leaves the store alone. *)
Theorem deletePuzzleAssets_deletes_uploaded_key E w :
  (forall key,
     deletePuzzleAssets E (cdnUrl E +:+ "/" +:+ key) w
     = (Ok tt,
        set_log (log w ++
                 [ if s3_up w
                   then {| level := "info"; message := "Puzzle assets deleted";
                           thrown := None |}
                   else {| level := "error"; message := "Failed to delete puzzle assets:";
                           thrown := Some (Error "s3") |} ])
          (set_calls (calls w ++ [S3DeleteObjects [key]]) w)))
  ∧ (forall now imageBuffer gridSize w0 config w1,
       generateImagePuzzle E now imageBuffer gridSize w0 = (Ok config, w1) ->
       exists key,
         In (S3Upload key) (calls w1)
         ∧ calls (deletePuzzleAssets E (image_url config) w).2
           = calls w ++ [S3DeleteObjects [key]]
         ∧ (deletePuzzleAssets E (image_url config) w).1 = Ok tt
         ∧ db (deletePuzzleAssets E (image_url config) w).2 = db w).
Proof.
  assert (Hdel : forall key,
     deletePuzzleAssets E (cdnUrl E +:+ "/" +:+ key) w
     = (Ok tt,
        set_log (log w ++
                 [ if s3_up w
                   then {| level := "info"; message := "Puzzle assets deleted";
                           thrown := None |}
                   else {| level := "error"; message := "Failed to delete puzzle assets:";
                           thrown := Some (Error "s3") |} ])
          (set_calls (calls w ++ [S3DeleteObjects [key]]) w))).
  { intros key. unfold deletePuzzleAssets.
    assert (Hne : String.eqb (cdnUrl E +:+ "/" +:+ key) "" = false).
    { apply String.eqb_neq. intros Hempty.
      assert (Hlen : String.length (cdnUrl E +:+ "/" +:+ key) = 0%nat) by by rewrite Hempty.
      rewrite !length_app_string in Hlen. simpl in Hlen. lia. }
    rewrite Hne.
    replace (cdnUrl E +:+ "/" +:+ key) with ((cdnUrl E +:+ "/") +:+ key)
      by apply JsFacts.app_assoc.
    rewrite remove_first_prefix. unfold bind, call, logger. cbn.
    by destruct (s3_up w). }
  split; [exact Hdel|].
  intros now imageBuffer gridSize w0 config w1 Hrun.
  apply generateImagePuzzle_image_url in Hrun as (id & Hurl & Hin).
  eexists. split; [exact Hin|]. by rewrite Hurl, Hdel.
Qed.

End AssetFacts.
